(** * BudgetWise: the persistence layer (DatabaseService) and the
      authentication layer (AuthService), embedded as state-passing programs.

    The JavaScript methods are asynchronous, but every [await] is a plain
    sequencing point on one cooperative thread, so a method is a function
    from the world before the call to a completion (a value or a thrown
    error) and the world after it. *)

From stdpp Require Import gmap strings list sorting pretty.
From Stdlib Require Import ZArith Lia Floats.
From Stdlib Require QArith.

(** ** Completions and the state/exception monad *)

(** A thrown JavaScript error, identified by its [message]. *)
Definition Error := string.

Inductive result (A : Type) : Type :=
| Ok (a : A)
| Throw (e : Error).
Arguments Ok {A} a.
Arguments Throw {A} e.

Definition is_Ok {A} (r : result A) : Prop :=
  match r with Ok _ => True | Throw _ => False end.

Section Monad.
Context {W : Type}.

Definition M (A : Type) : Type := W -> result A * W.

Definition ret {A} (a : A) : M A := fun w => (Ok a, w).

Definition throw {A} (e : Error) : M A := fun w => (Throw e, w).

Definition bind {A B} (m : M A) (k : A -> M B) : M B :=
  fun w => match m w with
           | (Ok a, w') => k a w'
           | (Throw e, w') => (Throw e, w')
           end.

(** [try { body } catch (error) { handler }]: the handler starts from the
    world the body had reached when it threw. *)
Definition try_catch {A} (body : M A) (handler : Error -> M A) : M A :=
  fun w => match body w with
           | (Ok a, w') => (Ok a, w')
           | (Throw e, w') => handler e w'
           end.

Definition gets {A} (f : W -> A) : M A := fun w => (Ok (f w), w).

Definition modify (f : W -> W) : M unit := fun w => (Ok tt, f w).

(** [for (const x of l) { body }] *)
Fixpoint for_of {A} (l : list A) (body : A -> M unit) : M unit :=
  match l with
  | [] => ret tt
  | x :: l' => bind (body x) (fun _ => for_of l' body)
  end.

(** [for (let i = 0; i < rows.length; i++) { acc = body(rows.item(i)) }] *)
Fixpoint for_rows {A B} (rows : list A) (body : B -> A -> M B) (acc : B) : M B :=
  match rows with
  | [] => ret acc
  | r :: rows' => bind (body acc r) (fun acc' => for_rows rows' body acc')
  end.

(** [console.log] and [console.error] only write to the log. *)
Definition console_log (msg : string) : M unit := ret tt.
Definition console_error (msg : string) (error : Error) : M unit := ret tt.
End Monad.
Arguments M : clear implicits.

Declare Scope js_scope.
Delimit Scope js_scope with js.
Notation "x <- m ;; k" := (bind m (fun x => k))
  (at level 100, m at next level, right associativity) : js_scope.
Notation "m ;;; k" := (bind m (fun _ => k))
  (at level 100, right associativity) : js_scope.

(** Lifting a pure completion into the monad. *)
Definition lift {W A} (r : result A) : M W A := fun w => (r, w).

(** ** The JavaScript runtime and the libraries the services call *)

(** [JSON] stands for the values of the JSON data model; [JSON_parse] throws
    a SyntaxError on text that is not JSON. [Date_toISOString] renders an
    epoch-millisecond instant, [Date_subMonths d n] is
    [d.setMonth(d.getMonth() - n)], and [strftime_Ym] is SQLite's
    [strftime('%Y-%m', text)].

    A JavaScript number and a REAL value of SQLite are IEEE 754 doubles
    ([float]). [sqlite_sum] is SQLite's [sum()] over the REAL values of a
    group, given here in table order: a floating-point sum whose order of
    addition and rounding are the engine's own (plain accumulation before
    SQLite 3.43, compensated summation since), so only the sum of one
    finite value is fixed: it is that value added to 0.
    [tie_order R rows] is the order in which the engine hands the rows of a
    query to the sorter of its ORDER BY: SQL leaves the order of rows that
    compare equal open, and this order decides it. *)
Class Runtime := {
  JSON : Type;
  JSON_null : JSON;
  JSON_stringify : JSON -> string;
  JSON_parse : string -> result JSON;
  Date_toISOString : Z -> string;
  Date_subMonths : Z -> Z -> Z;
  strftime_Ym : string -> option string;
  sqlite_sum : list float -> float;
  sqlite_sum_one : forall x, is_finite x = true -> sqlite_sum [x] = (0 + x)%float;
  tie_order : forall {A : Type}, relation A -> list A -> list A;
  tie_order_perm : forall (A : Type) (R : relation A) (rows : list A),
    tie_order R rows ≡ₚ rows;
}.

(** crypto-js: [SHA256(text).toString()], [AES.encrypt(text, passphrase)]
    (which draws a random salt) rendered with [toString()], [AES.decrypt]
    and the [Utf8] decoding of its output. *)
Class CryptoJS := {
  WordArray : Type;
  SHA256 : string -> string;
  AES_encrypt : string -> string -> string -> string;
  AES_decrypt : string -> string -> result WordArray;
  Utf8_stringify : WordArray -> result string;
}.

(** [value || fallback] for a nullable text value *)
Definition or_text (value : option string) (fallback : string) : string :=
  match value with
  | Some s => if String.eqb s "" then fallback else s
  | None => fallback
  end.

(** Truthiness of an optional text property: absent, [null] and the empty
    string are falsy. *)
Definition truthy (value : option string) : bool :=
  match value with
  | Some s => negb (String.eqb s "")
  | None => false
  end.

(** [Boolean(n)] for a nullable INTEGER column *)
Definition Boolean (n : option Z) : bool :=
  match n with
  | Some z => negb (Z.eqb z 0)
  | None => false
  end.

(** ** The persistent store *)

(** REAL values are doubles, as the JavaScript numbers bound to them are.
    TEXT values are strings, compared byte by byte as SQLite's BINARY
    collation does. Nullable columns are options. *)
Record TxnRow := {
  row_id : string;
  row_amount : float;
  row_type : string;
  row_category : option string;
  row_subcategory : option string;
  row_description : option string;
  row_date : string;
  row_account : option string;
  row_currency : option string;
  row_tags : option string;
  row_location : option string;
  row_receipt : option string;
  row_recurring : option Z;
  row_recurringPattern : option string;
  row_createdAt : string;
  row_updatedAt : string;
}.

Record BudgetRow := {
  bud_id : string;
  bud_name : string;
  bud_category : option string;
  bud_amount : float;
  bud_spent : option float;
  bud_period : option string;
  bud_startDate : string;
  bud_endDate : string;
  bud_currency : option string;
  bud_color : option string;
  bud_icon : option string;
  bud_notifications : option Z;
  bud_warningThreshold : option float;
  bud_isActive : option Z;
  bud_createdAt : string;
  bud_updatedAt : string;
}.

Record CategoryRow := {
  cat_id : string;
  cat_name : string;
  cat_type : string;
  cat_color : option string;
  cat_icon : option string;
  cat_parentId : option string;
  cat_isActive : option Z;
  cat_createdAt : string;
  cat_updatedAt : string;
}.

Record SettingRow := {
  set_key : string;
  set_value : string;
  set_updatedAt : string;
}.

(** The database file budgetwise.db: each of the four tables is missing
    ([None]) until a CREATE TABLE has run, and holds its rows in insertion
    order from then on. *)
Record Store := {
  transactions_table : option (list TxnRow);
  budgets_table : option (list BudgetRow);
  categories_table : option (list CategoryRow);
  settings_table : option (list SettingRow);
}.

(** The rows of a table; a missing table has none. *)
Definition transactions (s : Store) : list TxnRow := default [] (transactions_table s).
Definition budgets (s : Store) : list BudgetRow := default [] (budgets_table s).
Definition categories (s : Store) : list CategoryRow := default [] (categories_table s).
Definition settings (s : Store) : list SettingRow := default [] (settings_table s).

(** The database file of a new installation: no table yet. *)
Definition empty_store : Store :=
  {| transactions_table := None; budgets_table := None;
     categories_table := None; settings_table := None |}.

Definition with_transactions (l : list TxnRow) (s : Store) : Store :=
  {| transactions_table := Some l; budgets_table := budgets_table s;
     categories_table := categories_table s; settings_table := settings_table s |}.

Definition with_budgets (l : list BudgetRow) (s : Store) : Store :=
  {| transactions_table := transactions_table s; budgets_table := Some l;
     categories_table := categories_table s; settings_table := settings_table s |}.

Definition with_categories (l : list CategoryRow) (s : Store) : Store :=
  {| transactions_table := transactions_table s; budgets_table := budgets_table s;
     categories_table := Some l; settings_table := settings_table s |}.

Definition with_settings (l : list SettingRow) (s : Store) : Store :=
  {| transactions_table := transactions_table s; budgets_table := budgets_table s;
     categories_table := categories_table s; settings_table := Some l |}.

(** Whether a table has been created *)
Definition created {A} (table : option (list A)) : bool :=
  match table with Some _ => true | None => false end.

(** ** The SQL statements the service executes *)

(** A statement maps the store to an error (a missing table, a violated
    constraint, a parameter of the wrong type), or to its result rows and
    the store it leaves. *)
Definition Stmt (A : Type) : Type := Store -> result (A * Store).

(** The error of a statement that names a table the file does not hold *)
Definition no_such_table (name : string) : Error := "no such table: " +:+ name.

Definition text_le (a b : string) : Prop := String.leb a b = true.

#[global] Instance text_le_dec a b : Decision (text_le a b).
Proof. unfold text_le. apply _. Defined.

(** NULL sorts before every text value. *)
Definition opt_text_le (a b : option string) : Prop :=
  match a, b with
  | None, _ => True
  | Some _, None => False
  | Some x, Some y => text_le x y
  end.

#[global] Instance opt_text_le_dec a b : Decision (opt_text_le a b).
Proof. destruct a, b; simpl; apply _. Defined.

(** [ORDER BY]: the rows come out sorted by [R]; among rows that compare
    equal the order in which the sorter received them is kept. *)
Section Sorting.
Context {A : Type} (R : relation A) `{forall a b, Decision (R a b)}.

Fixpoint insert_by (x : A) (sorted : list A) : list A :=
  match sorted with
  | [] => [x]
  | y :: rest => if decide (R x y) then x :: sorted else y :: insert_by x rest
  end.

Definition sort_by (rows : list A) : list A := foldr insert_by [] rows.
End Sorting.

(** [GROUP BY key]: one group per distinct key, in order of first
    appearance (SQL leaves the order of groups open). *)
Definition group_by {K} `{EqDecision K} (key : TxnRow -> K) (rows : list TxnRow)
  : list (K * list TxnRow) :=
  map (fun k => (k, filter (fun r => key r = k) rows)) (remove_dups (map key rows)).

(** CREATE TABLE IF NOT EXISTS: a missing table is created empty, an
    existing one is left as it is. *)
Definition create_transactions_table : Stmt unit :=
  fun s => if created (transactions_table s) then Ok (tt, s)
           else Ok (tt, with_transactions [] s).

Definition create_budgets_table : Stmt unit :=
  fun s => if created (budgets_table s) then Ok (tt, s)
           else Ok (tt, with_budgets [] s).

Definition create_categories_table : Stmt unit :=
  fun s => if created (categories_table s) then Ok (tt, s)
           else Ok (tt, with_categories [] s).

Definition create_settings_table : Stmt unit :=
  fun s => if created (settings_table s) then Ok (tt, s)
           else Ok (tt, with_settings [] s).

Definition has_category_id (id : string) (s : Store) : bool :=
  existsb (fun r => String.eqb (cat_id r) id) (categories s).

Definition has_setting_key (key : string) (s : Store) : bool :=
  existsb (fun r => String.eqb (set_key r) key) (settings s).

Definition has_transaction_id (id : string) (s : Store) : bool :=
  existsb (fun r => String.eqb (row_id r) id) (transactions s).

(** INSERT OR IGNORE INTO categories: the only uniqueness constraint of the
    table is its primary key [id]. *)
Definition insert_or_ignore_category (row : CategoryRow) : Stmt unit :=
  fun s => if created (categories_table s) then
             if has_category_id (cat_id row) s then Ok (tt, s)
             else Ok (tt, with_categories (categories s ++ [row]) s)
           else Throw (no_such_table "categories").

(** INSERT OR IGNORE INTO settings: primary key [key]. *)
Definition insert_or_ignore_setting (row : SettingRow) : Stmt unit :=
  fun s => if created (settings_table s) then
             if has_setting_key (set_key row) s then Ok (tt, s)
             else Ok (tt, with_settings (settings s ++ [row]) s)
           else Throw (no_such_table "settings").

(** INSERT OR REPLACE INTO settings: the rows in conflict on [key] are
    deleted, then the new row is inserted. *)
Definition insert_or_replace_setting (row : SettingRow) : Stmt unit :=
  fun s => if created (settings_table s) then
             Ok (tt, with_settings
                       (filter (fun r => set_key r <> set_key row) (settings s) ++ [row]) s)
           else Throw (no_such_table "settings").

(** INSERT INTO transactions: NaN is bound as NULL, which the NOT NULL
    constraint of [amount] refuses; a duplicate primary key aborts. *)
Definition insert_transaction (row : TxnRow) : Stmt unit :=
  fun s => if created (transactions_table s) then
             if is_nan (row_amount row)
             then Throw "NOT NULL constraint failed: transactions.amount"
             else if has_transaction_id (row_id row) s
             then Throw "UNIQUE constraint failed: transactions.id"
             else Ok (tt, with_transactions (transactions s ++ [row]) s)
           else Throw (no_such_table "transactions").

(** The conjuncts appended to [WHERE 1=1], each with its parameter. *)
Inductive Cond :=
| TypeEq (v : string)
| CategoryEq (v : string)
| DateGe (v : string)
| DateLe (v : string).

Definition holds (r : TxnRow) (c : Cond) : bool :=
  match c with
  | TypeEq v => String.eqb (row_type r) v
  | CategoryEq v => match row_category r with
                    | Some c => String.eqb c v
                    | None => false
                    end
  | DateGe v => String.leb v (row_date r)
  | DateLe v => String.leb (row_date r) v
  end.

Definition where_ (conds : list Cond) (r : TxnRow) : bool :=
  forallb (holds r) conds.

(** [ORDER BY date DESC] *)
Definition date_desc (a b : TxnRow) : Prop := text_le (row_date b) (row_date a).

#[global] Instance date_desc_dec a b : Decision (date_desc a b).
Proof. unfold date_desc. apply _. Defined.

(** [LIMIT l OFFSET o] for 64-bit integers [l] and [o] (the statement
    refuses other numbers, see [select_transactions]): a negative limit is
    no limit, a negative offset is 0. *)
Definition limit_offset {A} (l o : Z) (rows : list A) : list A :=
  let rest := drop (Z.to_nat o) rows in
  if (l <? 0)%Z then rest else take (Z.to_nat l) rest.

(** The whole numbers SQLite takes for LIMIT and OFFSET are the 64-bit
    integers; a number outside them stays a REAL, which the statement
    refuses with "datatype mismatch". *)
Definition int64 (n : Z) : bool := (- 2 ^ 63 <=? n)%Z && (n <? 2 ^ 63)%Z.

Record BreakdownRow := {
  br_category : option string;
  br_total : float;
  br_count : Z;
}.

(** The comparison of ORDER BY total DESC; a total that is not a number
    is NULL in SQLite, which sorts last. *)
Definition total_desc (a b : BreakdownRow) : Prop :=
  is_nan (br_total b) || PrimFloat.leb (br_total b) (br_total a) = true.

#[global] Instance total_desc_dec a b : Decision (total_desc a b).
Proof. unfold total_desc. apply _. Defined.

Record TrendRow := {
  tr_month : option string;
  tr_type : string;
  tr_total : float;
}.

Definition month_desc (a b : TrendRow) : Prop := opt_text_le (tr_month b) (tr_month a).

#[global] Instance month_desc_dec a b : Decision (month_desc a b).
Proof. unfold month_desc. apply _. Defined.

Section Queries.
Context `{Runtime}.

(** [SUM(amount)] over the rows of a group *)
Definition SUM (rows : list TxnRow) : float :=
  sqlite_sum (map row_amount rows).

(** [ORDER BY]: the engine's sorter, fed in the engine's order *)
Definition order_by {A} (R : relation A) `{forall a b, Decision (R a b)}
    (rows : list A) : list A :=
  sort_by R (tie_order R rows).

Definition order_by_date_desc (rows : list TxnRow) : list TxnRow :=
  order_by date_desc rows.

(** SELECT * FROM transactions WHERE 1=1 ... ORDER BY date DESC
    LIMIT ? OFFSET ? *)
Definition select_transactions (conds : list Cond) (l o : Z) : Stmt (list TxnRow) :=
  fun s => if created (transactions_table s) then
             if int64 l && int64 o then
               Ok (limit_offset l o
                     (order_by_date_desc (List.filter (where_ conds) (transactions s))), s)
             else Throw "datatype mismatch"
           else Throw (no_such_table "transactions").

(** SELECT type, SUM(amount) as total ... WHERE date >= ? AND date <= ?
    GROUP BY type *)
Definition select_summary (startDate endDate : string) : Stmt (list (string * float)) :=
  fun s =>
    if created (transactions_table s) then
      let rows := List.filter (where_ [DateGe startDate; DateLe endDate]) (transactions s) in
      Ok (map (fun g => (fst g, SUM (snd g))) (group_by row_type rows), s)
    else Throw (no_such_table "transactions").

(** SELECT category, SUM(amount) as total, COUNT( * ) as count ...
    WHERE type = ? AND date >= ? AND date <= ? GROUP BY category
    ORDER BY total DESC *)
Definition select_category_breakdown (type startDate endDate : string)
  : Stmt (list BreakdownRow) :=
  fun s =>
    if created (transactions_table s) then
      let rows := List.filter (where_ [TypeEq type; DateGe startDate; DateLe endDate])
                              (transactions s) in
      Ok (order_by total_desc
            (map (fun g => {| br_category := fst g; br_total := SUM (snd g);
                              br_count := Z.of_nat (length (snd g)) |})
                 (group_by row_category rows)), s)
    else Throw (no_such_table "transactions").

(** SELECT strftime('%Y-%m', date) as month, type, SUM(amount) as total ...
    WHERE date >= ? GROUP BY month, type ORDER BY month DESC *)
Definition select_monthly_trends (startDate : string) : Stmt (list TrendRow) :=
  fun s =>
    if created (transactions_table s) then
      let rows := List.filter (where_ [DateGe startDate]) (transactions s) in
      Ok (order_by month_desc
            (map (fun g => {| tr_month := fst (fst g); tr_type := snd (fst g);
                              tr_total := SUM (snd g) |})
                 (group_by (fun r => (strftime_Ym (row_date r), row_type r)) rows)), s)
    else Throw (no_such_table "transactions").
End Queries.

(** SELECT value FROM settings WHERE key = ? *)
Definition select_setting_value (key : string) : Stmt (list string) :=
  fun s => if created (settings_table s) then
             Ok (map set_value
                   (List.filter (fun r => String.eqb (set_key r) key) (settings s)), s)
           else Throw (no_such_table "settings").

(** ** models/Transaction *)

Section Models.
Context `{Runtime}.

(** The plain object [{ ...row }] after its [tags], [recurringPattern] and
    [recurring] properties have been replaced, as handed to
    [Transaction.fromJSON]. *)
Record TxnJSON := {
  js_id : string;
  js_amount : float;
  js_type : string;
  js_category : option string;
  js_subcategory : option string;
  js_description : option string;
  js_date : string;
  js_account : option string;
  js_currency : option string;
  js_tags : JSON;
  js_location : option string;
  js_receipt : option string;
  js_recurring : bool;
  js_recurringPattern : JSON;
  js_createdAt : string;
  js_updatedAt : string;
}.

(** Modelled from the spec: the type of a transaction is one of income,
    expense and transfer (the class models/Transaction.js is not among the
    sources). *)
Inductive TxnType := income | expense | transfer.

(** The text of a type, as the [type] column holds it *)
Definition type_text (t : TxnType) : string :=
  match t with
  | income => "income"
  | expense => "expense"
  | transfer => "transfer"
  end.

(** Modelled from the spec: the Transaction record of models/Transaction.js,
    which is not among the sources. Its properties are the ones
    [addTransaction] reads; the three dates are Date objects, held as epoch
    milliseconds. *)
Record Transaction := {
  txn_id : string;
  txn_amount : float;
  txn_type : TxnType;
  txn_category : option string;
  txn_subcategory : option string;
  txn_description : option string;
  txn_date : Z;
  txn_account : option string;
  txn_currency : option string;
  txn_tags : JSON;
  txn_location : option string;
  txn_receipt : option string;
  txn_recurring : bool;
  txn_recurringPattern : JSON;
  txn_createdAt : Z;
  txn_updatedAt : Z;
}.

(** The constructor [new Transaction(data)] and the static
    [Transaction.fromJSON(object)] of the missing class. *)
Class Models := {
  Transaction_new : JSON -> result Transaction;
  Transaction_fromJSON : TxnJSON -> result Transaction;
}.
End Models.

(** ** DatabaseService *)

Module DatabaseService.

(** The world a call runs in: the database file, the faults of the SQLite
    plugin (whether [openDatabase] rejects, and for each coming
    [executeSql] call whether it rejects), the wall clock and
    [Math.random] as sequences of readings, and the two fields of the
    service instance ([db] is [true] once a handle is held). *)
Record World := {
  disk : Store;
  open_error : option Error;
  sql_faults : list (option Error);
  clock : nat -> Z;
  reads : nat;
  random : nat -> string;
  draws : nat;
  db : bool;
  isInitialized : bool;
}.

Definition set_disk (s : Store) (w : World) : World :=
  {| disk := s; open_error := open_error w; sql_faults := sql_faults w;
     clock := clock w; reads := reads w; random := random w; draws := draws w;
     db := db w; isInitialized := isInitialized w |}.

Definition set_sql_faults (f : list (option Error)) (w : World) : World :=
  {| disk := disk w; open_error := open_error w; sql_faults := f;
     clock := clock w; reads := reads w; random := random w; draws := draws w;
     db := db w; isInitialized := isInitialized w |}.

Definition set_reads (n : nat) (w : World) : World :=
  {| disk := disk w; open_error := open_error w; sql_faults := sql_faults w;
     clock := clock w; reads := n; random := random w; draws := draws w;
     db := db w; isInitialized := isInitialized w |}.

Definition set_draws (n : nat) (w : World) : World :=
  {| disk := disk w; open_error := open_error w; sql_faults := sql_faults w;
     clock := clock w; reads := reads w; random := random w; draws := n;
     db := db w; isInitialized := isInitialized w |}.

Definition set_db (b : bool) (w : World) : World :=
  {| disk := disk w; open_error := open_error w; sql_faults := sql_faults w;
     clock := clock w; reads := reads w; random := random w; draws := draws w;
     db := b; isInitialized := isInitialized w |}.

Definition set_isInitialized (b : bool) (w : World) : World :=
  {| disk := disk w; open_error := open_error w; sql_faults := sql_faults w;
     clock := clock w; reads := reads w; random := random w; draws := draws w;
     db := db w; isInitialized := b |}.

(** [constructor()] on a device whose state is [w] *)
Definition constructor (w : World) : World :=
  set_isInitialized false (set_db false w).

(** [Date.now()] *)
Definition Date_now : M World Z :=
  fun w => (Ok (clock w (reads w)), set_reads (S (reads w)) w).

(** [Math.random().toString(36).substr(2, 9)] *)
Definition Math_random_base36 : M World string :=
  fun w => (Ok (random w (draws w)), set_draws (S (draws w)) w).

(** [SQLite.enablePromise(true)] only switches the plugin to promises. *)
Definition SQLite_enablePromise : M World unit := ret tt.

(** [SQLite.openDatabase({ name: 'budgetwise.db', location: 'default' })] *)
Definition SQLite_openDatabase : M World unit :=
  fun w => match open_error w with
           | Some e => (Throw e, w)
           | None => (Ok tt, w)
           end.

(** [this.db.executeSql(statement, params)]: a TypeError when [this.db] is
    still [null]; otherwise the call consumes the next entry of the fault
    schedule and, unless that entry rejects it, runs the statement. *)
Definition executeSql {A} (stmt : Stmt A) : M World A :=
  fun w =>
    if db w then
      match sql_faults w with
      | Some e :: rest => (Throw e, set_sql_faults rest w)
      | _ =>
          let w1 := set_sql_faults (tail (sql_faults w)) w in
          match stmt (disk w1) with
          | Ok (a, s) => (Ok a, set_disk s w1)
          | Throw e => (Throw e, w1)
          end
      end
    else (Throw "TypeError: Cannot read property 'executeSql' of null", w).

Local Open Scope js_scope.

Section Methods.
Context `{Models}.

(** [new Date().toISOString()] *)
Definition new_Date_toISOString : M World string :=
  t <- Date_now ;; ret (Date_toISOString t).

Record DefaultCategory := {
  dc_name : string; dc_type : string; dc_color : string; dc_icon : string;
}.

Definition defaultCategories : list DefaultCategory := [
  {| dc_name := "Salary"; dc_type := "income"; dc_color := "#10b981"; dc_icon := "briefcase" |};
  {| dc_name := "Food & Dining"; dc_type := "expense"; dc_color := "#ef4444"; dc_icon := "restaurant" |};
  {| dc_name := "Transportation"; dc_type := "expense"; dc_color := "#f97316"; dc_icon := "car" |};
  {| dc_name := "Shopping"; dc_type := "expense"; dc_color := "#eab308"; dc_icon := "bag" |};
  {| dc_name := "Entertainment"; dc_type := "expense"; dc_color := "#8b5cf6"; dc_icon := "film" |}
].

Definition insertDefaultCategories : M World unit :=
  try_catch
    (for_of defaultCategories (fun category =>
       t <- Date_now ;;
       r <- Math_random_base36 ;;
       let id := "cat_" +:+ pretty t +:+ "_" +:+ r in
       now <- new_Date_toISOString ;;
       executeSql (insert_or_ignore_category
         {| cat_id := id; cat_name := dc_name category; cat_type := dc_type category;
            cat_color := Some (dc_color category); cat_icon := Some (dc_icon category);
            cat_parentId := None; cat_isActive := Some 1%Z;
            cat_createdAt := now; cat_updatedAt := now |})))
    (fun error => console_error "Error inserting default categories:" error).

Definition defaultSettings : list (string * string) := [
  ("currency", "USD"); ("theme", "system");
  ("notifications", "true"); ("firstLaunch", "true")
].

Definition insertDefaultSettings : M World unit :=
  try_catch
    (now <- new_Date_toISOString ;;
     for_of defaultSettings (fun setting =>
       executeSql (insert_or_ignore_setting
         {| set_key := fst setting; set_value := snd setting; set_updatedAt := now |})))
    (fun error => console_error "Error inserting default settings:" error).

Definition createTables : M World unit :=
  try_catch
    (executeSql create_transactions_table ;;;
     executeSql create_budgets_table ;;;
     executeSql create_categories_table ;;;
     executeSql create_settings_table ;;;
     insertDefaultCategories ;;;
     insertDefaultSettings)
    (fun error => console_error "Error creating tables:" error).

Definition initialize : M World unit :=
  initialized <- gets isInitialized ;;
  if initialized then ret tt
  else
    try_catch
      (SQLite_enablePromise ;;;
       SQLite_openDatabase ;;;
       modify (set_db true) ;;;
       createTables ;;;
       modify (set_isInitialized true) ;;;
       console_log "Database initialized successfully")
      (fun error =>
         console_error "Database initialization failed:" error ;;;
         modify (set_isInitialized true)).

(** The parameter row of the INSERT in [addTransaction] *)
Definition row_of (txn : Transaction) : TxnRow :=
  {| row_id := txn_id txn; row_amount := txn_amount txn;
     row_type := type_text (txn_type txn);
     row_category := txn_category txn; row_subcategory := txn_subcategory txn;
     row_description := txn_description txn;
     row_date := Date_toISOString (txn_date txn);
     row_account := txn_account txn; row_currency := txn_currency txn;
     row_tags := Some (JSON_stringify (txn_tags txn));
     row_location := txn_location txn; row_receipt := txn_receipt txn;
     row_recurring := Some (if txn_recurring txn then 1%Z else 0%Z);
     row_recurringPattern := Some (JSON_stringify (txn_recurringPattern txn));
     row_createdAt := Date_toISOString (txn_createdAt txn);
     row_updatedAt := Date_toISOString (txn_updatedAt txn) |}.

(** The argument is a Transaction instance ([inl]) or plain data for the
    constructor ([inr]). *)
Definition as_Transaction (transaction : Transaction + JSON) : result Transaction :=
  match transaction with
  | inl t => Ok t
  | inr data => Transaction_new data
  end.

Definition addTransaction (transaction : Transaction + JSON) : M World Transaction :=
  initialize ;;;
  try_catch
    (txn <- lift (as_Transaction transaction) ;;
     executeSql (insert_transaction (row_of txn)) ;;;
     ret txn)
    (fun error => console_error "Error adding transaction:" error ;;; throw error).

(** The [filters] object: each of the four recognised properties is
    absent ([None]) or holds a text value. *)
Record Filters := {
  f_type : option string;
  f_category : option string;
  f_startDate : option string;
  f_endDate : option string;
}.

Definition no_filters : Filters :=
  {| f_type := None; f_category := None; f_startDate := None; f_endDate := None |}.

(** [if (filters.p) { query += ' AND ...'; params.push(filters.p); }] *)
Definition and_if (p : option string) (cond : string -> Cond) (query : list Cond)
  : list Cond :=
  match p with
  | Some v => if truthy p then query ++ [cond v] else query
  | None => query
  end.

Definition build_query (filters : Filters) : list Cond :=
  let query := [] in
  let query := and_if (f_type filters) TypeEq query in
  let query := and_if (f_category filters) CategoryEq query in
  let query := and_if (f_startDate filters) DateGe query in
  let query := and_if (f_endDate filters) DateLe query in
  query.

(** The object [{ ...row }] with [tags], [recurringPattern] and
    [recurring] replaced *)
Definition row_object (row : TxnRow) (tags recurringPattern : JSON) : TxnJSON :=
  {| js_id := row_id row; js_amount := row_amount row; js_type := row_type row;
     js_category := row_category row; js_subcategory := row_subcategory row;
     js_description := row_description row; js_date := row_date row;
     js_account := row_account row; js_currency := row_currency row;
     js_tags := tags;
     js_location := row_location row; js_receipt := row_receipt row;
     js_recurring := Boolean (row_recurring row);
     js_recurringPattern := recurringPattern;
     js_createdAt := row_createdAt row; js_updatedAt := row_updatedAt row |}.

(** The body of the loop over the result rows of [getTransactions] *)
Definition read_row (transactions : list Transaction) (row : TxnRow)
  : M World (list Transaction) :=
  tags <- lift (JSON_parse (or_text (row_tags row) "[]")) ;;
  recurringPattern <- lift (JSON_parse (or_text (row_recurringPattern row) "null")) ;;
  t <- lift (Transaction_fromJSON (row_object row tags recurringPattern)) ;;
  ret (transactions ++ [t]).

(** [getTransactions(limit = 100, offset = 0, filters = {})]: an omitted
    argument is [None]. *)
Definition getTransactions (limit offset : option Z) (filters : option Filters)
  : M World (list Transaction) :=
  let limit := default 100%Z limit in
  let offset := default 0%Z offset in
  let filters := default no_filters filters in
  initialize ;;;
  try_catch
    (rows <- executeSql (select_transactions (build_query filters) limit offset) ;;
     for_rows rows read_row [])
    (fun error => console_error "Error getting transactions:" error ;;; ret []).

(** The object [{ income: 0, expense: 0, transfer: 0 }] *)
Definition zero_summary : gmap string float :=
  <["income" := 0%float]> (<["expense" := 0%float]> (<["transfer" := 0%float]> ∅)).

Definition getTransactionSummary (startDate endDate : string)
  : M World (gmap string float) :=
  initialize ;;;
  try_catch
    (rows <- executeSql (select_summary startDate endDate) ;;
     for_rows rows
       (fun summary row => ret (<[fst row := snd row]> summary))
       zero_summary)
    (fun error =>
       console_error "Error getting transaction summary:" error ;;;
       ret zero_summary).

Definition getCategoryBreakdown (type startDate endDate : string)
  : M World (list BreakdownRow) :=
  initialize ;;;
  try_catch
    (rows <- executeSql (select_category_breakdown type startDate endDate) ;;
     for_rows rows (fun breakdown row => ret (breakdown ++ [row])) [])
    (fun error =>
       console_error "Error getting category breakdown:" error ;;; ret []).

(** [getMonthlyTrends(months = 6)] *)
Definition getMonthlyTrends (months : option Z) : M World (list TrendRow) :=
  let months := default 6%Z months in
  initialize ;;;
  try_catch
    (t <- Date_now ;;
     let startDate := Date_subMonths t months in
     rows <- executeSql (select_monthly_trends (Date_toISOString startDate)) ;;
     for_rows rows (fun trends row => ret (trends ++ [row])) [])
    (fun error =>
       console_error "Error getting monthly trends:" error ;;; ret []).

(** [null] is [None]. *)
Definition getSetting (key : string) : M World (option string) :=
  initialize ;;;
  try_catch
    (rows <- executeSql (select_setting_value key) ;;
     ret (head rows))
    (fun error => console_error "Error getting setting:" error ;;; ret None).

Definition setSetting (key value : string) : M World unit :=
  initialize ;;;
  try_catch
    (now <- new_Date_toISOString ;;
     executeSql (insert_or_replace_setting
       {| set_key := key; set_value := value; set_updatedAt := now |}))
    (fun error => console_error "Error setting value:" error).
End Methods.
End DatabaseService.

(** ** AuthService *)

Module AuthService.

(** The world: the contents of EncryptedStorage and, for each coming call
    to it, whether it rejects; the wall clock; the random source of
    crypto-js (each draw already rendered as text); and the fields of the
    service instance. [sessionTimer] holds the period of the interval
    registered with [setInterval], or [None] for [null]. *)
Record World := {
  secure : gmap string string;
  secure_faults : list (option Error);
  clock : nat -> Z;
  reads : nat;
  random : nat -> string;
  draws : nat;
  isAuthenticated : bool;
  authMethod : string;
  sessionTimeout : Z;
  lastActivity : Z;
  sessionTimer : option Z;
}.

Definition set_secure (m : gmap string string) (w : World) : World :=
  {| secure := m; secure_faults := secure_faults w; clock := clock w; reads := reads w;
     random := random w; draws := draws w; isAuthenticated := isAuthenticated w;
     authMethod := authMethod w; sessionTimeout := sessionTimeout w;
     lastActivity := lastActivity w; sessionTimer := sessionTimer w |}.

Definition set_secure_faults (f : list (option Error)) (w : World) : World :=
  {| secure := secure w; secure_faults := f; clock := clock w; reads := reads w;
     random := random w; draws := draws w; isAuthenticated := isAuthenticated w;
     authMethod := authMethod w; sessionTimeout := sessionTimeout w;
     lastActivity := lastActivity w; sessionTimer := sessionTimer w |}.

Definition set_reads (n : nat) (w : World) : World :=
  {| secure := secure w; secure_faults := secure_faults w; clock := clock w; reads := n;
     random := random w; draws := draws w; isAuthenticated := isAuthenticated w;
     authMethod := authMethod w; sessionTimeout := sessionTimeout w;
     lastActivity := lastActivity w; sessionTimer := sessionTimer w |}.

Definition set_draws (n : nat) (w : World) : World :=
  {| secure := secure w; secure_faults := secure_faults w; clock := clock w;
     reads := reads w; random := random w; draws := n;
     isAuthenticated := isAuthenticated w; authMethod := authMethod w;
     sessionTimeout := sessionTimeout w; lastActivity := lastActivity w;
     sessionTimer := sessionTimer w |}.

Definition set_isAuthenticated (b : bool) (w : World) : World :=
  {| secure := secure w; secure_faults := secure_faults w; clock := clock w;
     reads := reads w; random := random w; draws := draws w;
     isAuthenticated := b; authMethod := authMethod w;
     sessionTimeout := sessionTimeout w; lastActivity := lastActivity w;
     sessionTimer := sessionTimer w |}.

Definition set_authMethod (m : string) (w : World) : World :=
  {| secure := secure w; secure_faults := secure_faults w; clock := clock w;
     reads := reads w; random := random w; draws := draws w;
     isAuthenticated := isAuthenticated w; authMethod := m;
     sessionTimeout := sessionTimeout w; lastActivity := lastActivity w;
     sessionTimer := sessionTimer w |}.

Definition set_sessionTimeout (t : Z) (w : World) : World :=
  {| secure := secure w; secure_faults := secure_faults w; clock := clock w;
     reads := reads w; random := random w; draws := draws w;
     isAuthenticated := isAuthenticated w; authMethod := authMethod w;
     sessionTimeout := t; lastActivity := lastActivity w;
     sessionTimer := sessionTimer w |}.

Definition set_lastActivity (t : Z) (w : World) : World :=
  {| secure := secure w; secure_faults := secure_faults w; clock := clock w;
     reads := reads w; random := random w; draws := draws w;
     isAuthenticated := isAuthenticated w; authMethod := authMethod w;
     sessionTimeout := sessionTimeout w; lastActivity := t;
     sessionTimer := sessionTimer w |}.

Definition set_sessionTimer (t : option Z) (w : World) : World :=
  {| secure := secure w; secure_faults := secure_faults w; clock := clock w;
     reads := reads w; random := random w; draws := draws w;
     isAuthenticated := isAuthenticated w; authMethod := authMethod w;
     sessionTimeout := sessionTimeout w; lastActivity := lastActivity w;
     sessionTimer := t |}.

(** The objects the authentication methods return: [{ success: true }],
    [{ success: false, error }] and [{ success: false, requiresPIN: true }] *)
Record AuthResult := {
  success : bool;
  error : option string;
  requiresPIN : option bool;
}.

Local Open Scope js_scope.

Definition Date_now : M World Z :=
  fun w => (Ok (clock w (reads w)), set_reads (S (reads w)) w).

(** One draw of the crypto-js random source *)
Definition random_text : M World string :=
  fun w => (Ok (random w (draws w)), set_draws (S (draws w)) w).

(** [EncryptedStorage.getItem(key)] *)
Definition EncryptedStorage_getItem (key : string) : M World (option string) :=
  fun w => match secure_faults w with
           | Some e :: rest => (Throw e, set_secure_faults rest w)
           | _ => (Ok (secure w !! key), set_secure_faults (tail (secure_faults w)) w)
           end.

(** [EncryptedStorage.setItem(key, value)] *)
Definition EncryptedStorage_setItem (key value : string) : M World unit :=
  fun w => match secure_faults w with
           | Some e :: rest => (Throw e, set_secure_faults rest w)
           | _ => (Ok tt, set_secure (<[key := value]> (secure w))
                            (set_secure_faults (tail (secure_faults w)) w))
           end.

(** [constructor()]: the five fields, with the clock read for
    [lastActivity]. *)
Definition constructor : M World unit :=
  modify (set_isAuthenticated false) ;;;
  modify (set_authMethod "none") ;;;
  modify (set_sessionTimeout (5 * 60 * 1000)%Z) ;;;
  (t <- Date_now ;; modify (set_lastActivity t)) ;;;
  modify (set_sessionTimer None).

Definition updateLastActivity : M World unit :=
  t <- Date_now ;; modify (set_lastActivity t).

Definition clearSessionTimer : M World unit :=
  timer <- gets sessionTimer ;;
  match timer with
  | Some _ => modify (set_sessionTimer None)
  | None => ret tt
  end.

Definition logout : M World unit :=
  modify (set_isAuthenticated false) ;;;
  clearSessionTimer.

(** The callback handed to [setInterval] in [startSessionTimer] *)
Definition session_check : M World unit :=
  authenticated <- gets isAuthenticated ;;
  if authenticated then
    now <- Date_now ;;
    last <- gets lastActivity ;;
    timeout <- gets sessionTimeout ;;
    if (timeout <? now - last)%Z then logout else ret tt
  else ret tt.

Definition startSessionTimer : M World unit :=
  clearSessionTimer ;;;
  modify (set_sessionTimer (Some 30000%Z)).

Definition isUserAuthenticated : M World bool := gets isAuthenticated.

Definition getAuthMethod : M World string := gets authMethod.

Section Methods.
Context `{Runtime} `{CryptoJS}.

Definition authenticateWithPIN (pin : string) : M World AuthResult :=
  try_catch
    (storedHashedPIN <- EncryptedStorage_getItem "userPIN" ;;
     if negb (truthy storedHashedPIN) then
       ret {| success := false; error := Some "No PIN set up"; requiresPIN := None |}
     else
       let hashedInputPIN := SHA256 pin in
       if decide (Some hashedInputPIN = storedHashedPIN) then
         modify (set_isAuthenticated true) ;;;
         updateLastActivity ;;;
         ret {| success := true; error := None; requiresPIN := None |}
       else
         ret {| success := false; error := Some "Incorrect PIN"; requiresPIN := None |})
    (fun e =>
       console_error "PIN authentication error:" e ;;;
       ret {| success := false; error := Some e; requiresPIN := None |}).

Definition authenticate : M World AuthResult :=
  try_catch
    (method <- gets authMethod ;;
     if String.eqb method "none" then
       modify (set_isAuthenticated true) ;;;
       updateLastActivity ;;;
       ret {| success := true; error := None; requiresPIN := None |}
     else if String.eqb method "pin" then
       ret {| success := false; error := None; requiresPIN := Some true |}
     else
       modify (set_isAuthenticated true) ;;;
       updateLastActivity ;;;
       ret {| success := true; error := None; requiresPIN := None |})
    (fun e =>
       console_error "Authentication error:" e ;;;
       modify (set_isAuthenticated true) ;;;
       updateLastActivity ;;;
       ret {| success := true; error := None; requiresPIN := None |}).

(** [CryptoJS.lib.WordArray.random(256/8).toString()] is one draw. *)
Definition generateEncryptionKey : M World string :=
  try_catch
    (key <- EncryptedStorage_getItem "encryptionKey" ;;
     match key with
     | Some k =>
         if truthy key then ret k
         else
           k' <- random_text ;;
           EncryptedStorage_setItem "encryptionKey" k' ;;;
           ret k'
     | None =>
         k' <- random_text ;;
         EncryptedStorage_setItem "encryptionKey" k' ;;;
         ret k'
     end)
    (fun e =>
       console_error "Error generating encryption key:" e ;;;
       t <- Date_now ;;
       ret ("default-encryption-key-" +:+ pretty t)).

(** [AES.encrypt] draws its salt from the random source. *)
Definition encryptData (data : JSON) : M World string :=
  try_catch
    (key <- generateEncryptionKey ;;
     salt <- random_text ;;
     ret (AES_encrypt (JSON_stringify data) key salt))
    (fun e =>
       console_error "Error encrypting data:" e ;;;
       ret (JSON_stringify data)).

Definition decryptData (encryptedData : string) : M World JSON :=
  try_catch
    (key <- generateEncryptionKey ;;
     decrypted <- lift (AES_decrypt encryptedData key) ;;
     decryptedString <- lift (Utf8_stringify decrypted) ;;
     lift (JSON_parse decryptedString))
    (fun e =>
       console_error "Error decrypting data:" e ;;;
       try_catch (lift (JSON_parse encryptedData)) (fun _ => ret JSON_null)).
End Methods.
End AuthService.

(** ** Specifications *)

Section Triples.
Context {W : Type}.

(** [returns P m Q]: from every world in [P], [m] completes normally, with
    a value and a world in [Q]. *)
Definition returns {A} (P : W -> Prop) (m : M W A) (Q : A -> W -> Prop) : Prop :=
  forall w, P w -> exists a w', m w = (Ok a, w') /\ Q a w'.

(** [never_throws m]: [m] completes normally from every world. *)
Definition never_throws {A} (m : M W A) : Prop :=
  forall w, is_Ok (fst (m w)).
End Triples.

Module DatabaseSpec.
Import DatabaseService.

(** The store works: [openDatabase] resolves, no statement is scheduled to
    be rejected, and a service that is already initialized holds a handle. *)
Definition ready (w : World) : Prop :=
  open_error w = None /\ sql_faults w = [] /\
  (isInitialized w = true -> db w = true).

(** The state of a working store after initialization *)
Definition healthy (w : World) : Prop :=
  open_error w = None /\ sql_faults w = [] /\
  isInitialized w = true /\ db w = true.

(** A working, connected store whose transactions table is [T] *)
Definition connected (T : list TxnRow) (i : bool) (w : World) : Prop :=
  open_error w = None /\ sql_faults w = [] /\ db w = true /\
  isInitialized w = i /\ transactions (disk w) = T.

(** The four tables of the schema exist. *)
Definition has_tables (s : Store) : Prop :=
  created (transactions_table s) = true /\ created (budgets_table s) = true /\
  created (categories_table s) = true /\ created (settings_table s) = true.

(** A working, connected store that has its tables *)
Definition installed (T : list TxnRow) (i : bool) (w : World) : Prop :=
  connected T i w /\ has_tables (disk w).

(** The store fails: there is no handle, or the next statement is rejected. *)
Definition store_fails (w : World) : Prop :=
  db w = false \/ exists e rest, sql_faults w = Some e :: rest.

(** The four CREATE TABLE statements at the head of [createTables] *)
Definition create_four : M World unit :=
  bind (executeSql create_transactions_table) (fun _ =>
  bind (executeSql create_budgets_table) (fun _ =>
  bind (executeSql create_categories_table) (fun _ =>
  executeSql create_settings_table))).

(** The store works, and a service that is already initialized did create
    its tables (its CREATE TABLE statements were not rejected). *)
Definition operational (w : World) : Prop :=
  ready w /\ (isInitialized w = true -> has_tables (disk w)).

(** The transactions of one type dated within [startDate, endDate], in
    table order *)
Definition matching (type startDate endDate : string) (rows : list TxnRow) : list TxnRow :=
  filter (fun r => row_type r = type /\
                   text_le startDate (row_date r) /\ text_le (row_date r) endDate) rows.

Section Totals.
Context `{Runtime}.

(** What SQLite's SUM(amount) gives for the transactions of one type dated
    within [startDate, endDate]; 0 when there is none. *)
Definition total_of (type startDate endDate : string) (rows : list TxnRow) : float :=
  match matching type startDate endDate rows with
  | [] => 0%float
  | group => SUM group
  end.

Definition summary_of (startDate endDate : string) (rows : list TxnRow)
  : gmap string float :=
  <["income" := total_of "income" startDate endDate rows]>
    (<["expense" := total_of "expense" startDate endDate rows]>
       (<["transfer" := total_of "transfer" startDate endDate rows]> ∅)).
End Totals.

(** The rational number a finite double is *)
Definition real_of (x : float) : option QArith_base.Q :=
  match Prim2SF x with
  | S754_zero _ => Some (QArith_base.inject_Z 0)
  | S754_finite negative m e =>
      let magnitude :=
        QArith_base.Qmult (QArith_base.inject_Z (Z.pos m))
                          (QArith_base.Qpower (QArith_base.inject_Z 2) e) in
      Some (if negative then QArith_base.Qopp magnitude else magnitude)
  | _ => None
  end.

(** The sum of finite doubles as rational numbers *)
Fixpoint exact_sum (amounts : list float) : option QArith_base.Q :=
  match amounts with
  | [] => Some (QArith_base.inject_Z 0)
  | x :: rest =>
      match real_of x, exact_sum rest with
      | Some a, Some b => Some (QArith_base.Qplus a b)
      | _, _ => None
      end
  end.

(** The number [total] is the sum of the amounts. *)
Definition is_sum_of (total : float) (amounts : list float) : Prop :=
  match real_of total, exact_sum amounts with
  | Some a, Some b => QArith_base.Qeq a b
  | _, _ => False
  end.

(** As the claim words it: each of the three keys of the summary holds the
    sum of the amounts of the transactions of its type dated within the
    range. *)
Definition holds_sums (summary : gmap string float) (startDate endDate : string)
    (rows : list TxnRow) : Prop :=
  forall t : TxnType,
    exists total,
      summary !! type_text t = Some total /\
      is_sum_of total (map row_amount (matching (type_text t) startDate endDate rows)).

(** The row holds a transaction of the data model: its type is one of the
    three. (The column itself is TEXT; [addTransaction] writes the type of a
    Transaction.) *)
Definition known_type (r : TxnRow) : Prop :=
  exists t : TxnType, row_type r = type_text t.

Definition dated_within (startDate endDate : string) (r : TxnRow) : Prop :=
  text_le startDate (row_date r) /\ text_le (row_date r) endDate.

#[global] Instance dated_within_dec startDate endDate r :
  Decision (dated_within startDate endDate r).
Proof. unfold dated_within. apply _. Defined.

(** A filter property counts as present when it is there at all ... *)
Definition present (p : option string) : bool :=
  match p with Some _ => true | None => false end.

(** The predicate a filter property contributes when [applied] says it
    counts *)
Definition contributes (applied : option string -> bool) (p : option string)
    (test : string -> bool) : bool :=
  match p with
  | Some v => if applied p then test v else true
  | None => true
  end.

(** The conjunction of the predicates of the filter properties that count:
    type equality, category equality, date >= startDate, date <= endDate *)
Definition satisfies (applied : option string -> bool) (f : Filters) (r : TxnRow) : bool :=
  contributes applied (f_type f) (fun v => String.eqb (row_type r) v)
  && contributes applied (f_category f)
       (fun v => bool_decide (row_category r = Some v))
  && contributes applied (f_startDate f) (fun v => String.leb v (row_date r))
  && contributes applied (f_endDate f) (fun v => String.leb (row_date r) v).

Section Reading.
Context `{Models}.

(** [t] is the row with [tags] and [recurringPattern] deserialized from
    their text ([[]] and [null] when the column is empty) and [recurring]
    coerced to a boolean. *)
Definition deserializes (row : TxnRow) (t : Transaction) : Prop :=
  exists tags recurringPattern,
    JSON_parse (or_text (row_tags row) "[]") = Ok tags /\
    JSON_parse (or_text (row_recurringPattern row) "null") = Ok recurringPattern /\
    Transaction_fromJSON (row_object row tags recurringPattern) = Ok t.

Definition readable (row : TxnRow) : Prop := exists t, deserializes row t.

(** [getTransactions] returns the transactions that satisfy the filter
    properties that count, by date descending, paginated, deserialized. *)
Definition returns_selected (applied : option string -> bool) (w : World)
    (limit offset : option Z) (filters : option Filters) : Prop :=
  exists sorted ts,
    sorted ≡ₚ List.filter (satisfies applied (default no_filters filters))
                          (transactions (disk w)) /\
    StronglySorted date_desc sorted /\
    fst (getTransactions limit offset filters w) = Ok ts /\
    Forall2 deserializes
      (limit_offset (default 100%Z limit) (default 0%Z offset) sorted) ts.
End Reading.
End DatabaseSpec.

Module AuthSpec.
Import AuthService.

(** The condition of the periodic check: the user is authenticated, and the
    time since the last activity exceeds the timeout. *)
Definition expired (w : World) : Prop :=
  isAuthenticated w = true /\
  (sessionTimeout w < clock w (reads w) - lastActivity w)%Z.

Section Crypto.
Context `{Runtime} `{CryptoJS}.

(** The key [generateEncryptionKey] returns in world [w] (it never
    throws): the stored one when the secure storage holds one. *)
Definition key_in (w : World) : string :=
  match fst (generateEncryptionKey w) with
  | Ok k => k
  | Throw _ => ""
  end.

(** What decryption with that key yields: the parsed plaintext, or the
    error of the first step that throws. *)
Definition decrypts (w : World) (blob : string) : result JSON :=
  match AES_decrypt blob (key_in w) with
  | Ok decrypted =>
      match Utf8_stringify decrypted with
      | Ok text => JSON_parse text
      | Throw e => Throw e
      end
  | Throw e => Throw e
  end.

(** The law of the cipher: AES decryption with the passphrase of the
    encryption recovers the plaintext. *)
Definition AES_inverts : Prop :=
  forall text key salt,
    exists decrypted,
      AES_decrypt (AES_encrypt text key salt) key = Ok decrypted /\
      Utf8_stringify decrypted = Ok text.

(** A value is serializable when parsing its serialization gives it
    back. *)
Definition serializable (x : JSON) : Prop :=
  JSON_parse (JSON_stringify x) = Ok x.
End Crypto.
End AuthSpec.

(** ** A small platform on which the services run *)

Module Sample.

Inductive value := VNull | VEmptyArray | VText (s : string).

Definition quote : Ascii.ascii := Ascii.ascii_of_nat 34.

Definition stringify (v : value) : string :=
  match v with
  | VNull => "null"
  | VEmptyArray => "[]"
  | VText s => String quote s
  end.

Definition parse (text : string) : result value :=
  if String.eqb text "null" then Ok VNull
  else if String.eqb text "[]" then Ok VEmptyArray
  else match text with
       | String c s => if Ascii.eqb c quote then Ok (VText s)
                       else Throw "SyntaxError: Unexpected token"
       | EmptyString => Throw "SyntaxError: Unexpected end of JSON input"
       end.

(** The engine of the platform sums by plain accumulation and sorts the
    rows in table order. *)
Definition runtime : Runtime :=
  {| JSON := value; JSON_null := VNull; JSON_stringify := stringify;
     JSON_parse := parse; Date_toISOString := pretty;
     Date_subMonths := fun d n => (d - n * 2629800000)%Z;
     strftime_Ym := fun text => Some (String.substring 0 7 text);
     sqlite_sum := fun amounts => fold_left PrimFloat.add amounts 0%float;
     sqlite_sum_one := fun x _ => eq_refl;
     tie_order := fun A R rows => rows;
     tie_order_perm := fun A R rows => reflexivity rows |}.

#[local] Existing Instance runtime.

Fixpoint strip (key text : string) : result string :=
  match key, text with
  | EmptyString, _ => Ok text
  | String a key', String b text' =>
      if Ascii.eqb a b then strip key' text' else Throw "Malformed UTF-8 data"
  | String _ _, EmptyString => Throw "Malformed UTF-8 data"
  end.

(** A reversible stand-in for the cipher: the ciphertext is the plaintext
    behind the passphrase. *)
Definition crypto : CryptoJS :=
  {| WordArray := string;
     SHA256 := fun text => "sha256:" +:+ text;
     AES_encrypt := fun text key salt => key +:+ text;
     AES_decrypt := fun blob key => strip key blob;
     Utf8_stringify := fun decrypted => Ok decrypted |}.

Definition parse_type (text : string) : result TxnType :=
  if String.eqb text "income" then Ok income
  else if String.eqb text "expense" then Ok expense
  else if String.eqb text "transfer" then Ok transfer
  else Throw "Error: unknown transaction type".

Definition fromJSON (o : @TxnJSON runtime) : result (@Transaction runtime) :=
  match parse_type (js_type o) with
  | Throw e => Throw e
  | Ok type =>
  Ok {| txn_id := js_id o; txn_amount := js_amount o; txn_type := type;
        txn_category := js_category o; txn_subcategory := js_subcategory o;
        txn_description := js_description o; txn_date := 0%Z;
        txn_account := js_account o; txn_currency := js_currency o;
        txn_tags := js_tags o; txn_location := js_location o;
        txn_receipt := js_receipt o; txn_recurring := js_recurring o;
        txn_recurringPattern := js_recurringPattern o;
        txn_createdAt := 0%Z; txn_updatedAt := 0%Z |}
  end.

Definition models : @Models runtime :=
  {| Transaction_new := fun _ => Throw "TypeError: not a transaction";
     Transaction_fromJSON := fromJSON |}.

Definition row (id : string) (amount : float) (type category date : string) : TxnRow :=
  {| row_id := id; row_amount := amount; row_type := type;
     row_category := Some category; row_subcategory := None;
     row_description := None; row_date := date;
     row_account := Some "main"; row_currency := Some "USD";
     row_tags := Some "[]"; row_location := None; row_receipt := None;
     row_recurring := Some 0%Z; row_recurringPattern := Some "null";
     row_createdAt := date; row_updatedAt := date |}.

(** A device at first launch, before the service is constructed: an empty
    database file, a working plugin, a clock that advances by one
    millisecond per reading. *)
Definition device (s : Store) : DatabaseService.World :=
  {| DatabaseService.disk := s;
     DatabaseService.open_error := None;
     DatabaseService.sql_faults := [];
     DatabaseService.clock := fun n => (1700000000000 + Z.of_nat n)%Z;
     DatabaseService.reads := 0;
     DatabaseService.random := fun n => "r" +:+ pretty n;
     DatabaseService.draws := 0;
     DatabaseService.db := false;
     DatabaseService.isInitialized := false |}.

(** A device whose database cannot be opened *)
Definition broken_device : DatabaseService.World :=
  {| DatabaseService.disk := empty_store;
     DatabaseService.open_error := Some "Error: could not open database";
     DatabaseService.sql_faults := [];
     DatabaseService.clock := fun n => (1700000000000 + Z.of_nat n)%Z;
     DatabaseService.reads := 0;
     DatabaseService.random := fun n => "r" +:+ pretty n;
     DatabaseService.draws := 0;
     DatabaseService.db := false;
     DatabaseService.isInitialized := false |}.

Definition two_transactions : Store :=
  with_transactions
    [row "t1" 100 "income" "Salary" "2024-01-10T00:00:00.000Z";
     row "t2" 40 "expense" "Shopping" "2024-01-20T00:00:00.000Z"] empty_store.

(** Two incomes whose sum no double holds: 2^53 and 1 *)
Definition large_transactions : Store :=
  with_transactions
    [row "t1" 9007199254740992 "income" "Salary" "2024-01-10T00:00:00.000Z";
     row "t2" 1 "income" "Salary" "2024-01-20T00:00:00.000Z"] empty_store.

(** An AuthService instance as its constructor leaves it, over an empty
    secure storage *)
Definition session (method : string) (authenticated : bool) : AuthService.World :=
  {| AuthService.secure := ∅;
     AuthService.secure_faults := [];
     AuthService.clock := fun n => (1700000000000 + Z.of_nat n)%Z;
     AuthService.reads := 0;
     AuthService.random := fun n => "k" +:+ pretty n;
     AuthService.draws := 0;
     AuthService.isAuthenticated := authenticated;
     AuthService.authMethod := method;
     AuthService.sessionTimeout := 300000%Z;
     AuthService.lastActivity := 1700000000000%Z;
     AuthService.sessionTimer := None |}.

(** A launch of the app on a device: a new service instance, then
    [initialize()]. *)
Definition launch (w : DatabaseService.World) : DatabaseService.World :=
  snd (@DatabaseService.initialize runtime (DatabaseService.constructor w)).

Definition default_names : list string :=
  ["Salary"; "Food & Dining"; "Transportation"; "Shopping"; "Entertainment"].

Definition default_keys : list string :=
  ["currency"; "theme"; "notifications"; "firstLaunch"].

(** The filters object [{ type: '' }] *)
Definition empty_type_filter : DatabaseService.Filters :=
  {| DatabaseService.f_type := Some ""; DatabaseService.f_category := None;
     DatabaseService.f_startDate := None; DatabaseService.f_endDate := None |}.

Definition a_transaction : @Transaction runtime :=
  {| txn_id := "t1"; txn_amount := 100%float; txn_type := income;
     txn_category := Some "Salary"; txn_subcategory := None;
     txn_description := None; txn_date := 1704844800000%Z;
     txn_account := Some "main"; txn_currency := Some "USD";
     txn_tags := VEmptyArray; txn_location := None; txn_receipt := None;
     txn_recurring := false; txn_recurringPattern := VNull;
     txn_createdAt := 1704844800000%Z; txn_updatedAt := 1704844800000%Z |}.
End Sample.


(** ** AuthService, continued: the methods that also reach DatabaseService *)

(** [n.toString()] on a whole number, and [parseInt(text)] with [None] for
    NaN *)
Class Numbers := {
  Number_toString : Z -> string;
  parseInt : string -> option Z;
}.

Module App.

(** Both services live in one process: the world of the one and the world
    of the other. *)
Record World := {
  database : DatabaseService.World;
  auth : AuthService.World;
}.

Definition in_database {A} (m : M DatabaseService.World A) : M World A :=
  fun w => let (r, d) := m (database w) in (r, {| database := d; auth := auth w |}).

Definition in_auth {A} (m : M AuthService.World A) : M World A :=
  fun w => let (r, a) := m (auth w) in (r, {| database := database w; auth := a |}).

(** [EncryptedStorage.removeItem(key)] *)
Definition EncryptedStorage_removeItem (key : string) : M AuthService.World unit :=
  fun w => match AuthService.secure_faults w with
           | Some e :: rest => (Throw e, AuthService.set_secure_faults rest w)
           | _ => (Ok tt, AuthService.set_secure (delete key (AuthService.secure w))
                            (AuthService.set_secure_faults
                               (tail (AuthService.secure_faults w)) w))
           end.

(** The object [getSecuritySettings] returns *)
Record SecuritySettings := {
  ss_authMethod : string;
  ss_biometricAvailable : bool;
  ss_sessionTimeout : option Z;
  ss_hasPIN : bool;
}.

Local Open Scope js_scope.

Section Methods.
Context `{Runtime} `{CryptoJS} `{Numbers}.

(** [AuthService.initialize()] *)
Definition initialize : M World unit :=
  try_catch
    (savedAuthMethod <- in_database (DatabaseService.getSetting "authMethod") ;;
     in_auth (modify (AuthService.set_authMethod (or_text savedAuthMethod "none"))) ;;;
     in_auth AuthService.startSessionTimer)
    (fun error =>
       console_error "Error initializing auth service:" error ;;;
       in_auth (modify (AuthService.set_authMethod "none"))).

Definition isBiometricAvailable : M World bool :=
  try_catch
    (ret false)
    (fun error => console_error "Error checking biometric availability:" error ;;; ret false).

Definition setupPIN (pin : string) : M World AuthService.AuthResult :=
  try_catch
    (let hashedPIN := SHA256 pin in
     in_auth (AuthService.EncryptedStorage_setItem "userPIN" hashedPIN) ;;;
     in_database (DatabaseService.setSetting "authMethod" "pin") ;;;
     in_auth (modify (AuthService.set_authMethod "pin")) ;;;
     ret {| AuthService.success := true; AuthService.error := None;
            AuthService.requiresPIN := None |})
    (fun error =>
       console_error "Error setting up PIN:" error ;;;
       ret {| AuthService.success := false; AuthService.error := Some error;
              AuthService.requiresPIN := None |}).

Definition setSessionTimeout (minutes : Z) : M World unit :=
  in_auth (modify (AuthService.set_sessionTimeout (minutes * 60 * 1000)%Z)) ;;;
  in_database (DatabaseService.setSetting "sessionTimeout" (Number_toString minutes)).

(** [saved ? parseInt(saved) : 5] *)
Definition getSessionTimeout : M World (option Z) :=
  try_catch
    (saved <- in_database (DatabaseService.getSetting "sessionTimeout") ;;
     match saved with
     | Some text => if truthy saved then ret (parseInt text) else ret (Some 5%Z)
     | None => ret (Some 5%Z)
     end)
    (fun error => ret (Some 5%Z)).

(** [value !== null] for what [getItem] resolves to *)
Definition not_null (value : option string) : bool :=
  match value with Some _ => true | None => false end.

Definition getSecuritySettings : M World SecuritySettings :=
  try_catch
    (method <- in_auth (gets AuthService.authMethod) ;;
     biometricAvailable <- isBiometricAvailable ;;
     sessionTimeout <- getSessionTimeout ;;
     userPIN <- in_auth (AuthService.EncryptedStorage_getItem "userPIN") ;;
     ret {| ss_authMethod := method; ss_biometricAvailable := biometricAvailable;
            ss_sessionTimeout := sessionTimeout; ss_hasPIN := not_null userPIN |})
    (fun error =>
       ret {| ss_authMethod := "none"; ss_biometricAvailable := false;
              ss_sessionTimeout := Some 5%Z; ss_hasPIN := false |}).

Definition resetSecurity : M World AuthService.AuthResult :=
  try_catch
    (in_auth (EncryptedStorage_removeItem "userPIN") ;;;
     in_auth (EncryptedStorage_removeItem "encryptionKey") ;;;
     in_database (DatabaseService.setSetting "authMethod" "none") ;;;
     in_auth (modify (AuthService.set_authMethod "none")) ;;;
     in_auth (modify (AuthService.set_isAuthenticated false)) ;;;
     ret {| AuthService.success := true; AuthService.error := None;
            AuthService.requiresPIN := None |})
    (fun error =>
       console_error "Error resetting security:" error ;;;
       ret {| AuthService.success := false; AuthService.error := Some error;
              AuthService.requiresPIN := None |}).

(** A restart of the app: the process is gone, so both singletons are
    constructed anew over the database file and the secure storage left
    behind, and the auth service is initialized. *)
Definition restart : M World unit :=
  modify (fun w => {| database := DatabaseService.constructor (database w);
                      auth := auth w |}) ;;;
  in_auth AuthService.constructor ;;;
  initialize.
End Methods.
End App.

(** ** The screens that call the services *)

(** [try { body } finally { final }]: [final] runs whatever the completion
    of [body] is, which is then the completion of the whole, unless [final]
    itself throws. *)
Definition try_finally {W A} (body : M W A) (final : M W unit) : M W A :=
  fun w => match body w with
           | (r, w') => match final w' with
                        | (Ok _, w'') => (r, w'')
                        | (Throw e, w'') => (Throw e, w'')
                        end
           end.

Module SettingsScreen.

(** The values the screen keeps and writes: the boolean of a switch, or a
    text. *)
Inductive Value := VBool (b : bool) | VText (s : string).

(** [value.toString()] *)
Definition toString (value : Value) : string :=
  match value with
  | VBool true => "true"
  | VBool false => "false"
  | VText s => s
  end.

(** The component state ([settings], [loading]), the alerts shown so far,
    and the two services. *)
Record World := {
  app : App.World;
  settings : gmap string Value;
  loading : bool;
  alerts : list (string * string);
}.

Definition set_app (a : App.World) (w : World) : World :=
  {| app := a; settings := settings w; loading := loading w; alerts := alerts w |}.

Definition setSettings (s : gmap string Value) (w : World) : World :=
  {| app := app w; settings := s; loading := loading w; alerts := alerts w |}.

Definition setLoading (b : bool) (w : World) : World :=
  {| app := app w; settings := settings w; loading := b; alerts := alerts w |}.

(** [Alert.alert(title, message)] *)
Definition Alert_alert (title message : string) : M World unit :=
  modify (fun w => {| app := app w; settings := settings w; loading := loading w;
                      alerts := alerts w ++ [(title, message)] |}).

Definition in_app {A} (m : M App.World A) : M World A :=
  fun w => let (r, a) := m (app w) in (r, set_app a w).

(** The state [useState] starts from *)
Definition initial_settings : gmap string Value :=
  <["currency" := VText "USD"]>
    (<["notifications" := VBool true]>
       (<["biometric" := VBool false]>
          (<["darkMode" := VBool false]>
             (<["autoBackup" := VBool false]> ∅)))).

(** [DatabaseService.clearAllData()]: the class has no such method, so the
    call is a TypeError. *)
Definition DatabaseService_clearAllData : M World unit :=
  throw "TypeError: DatabaseService.clearAllData is not a function".

Local Open Scope js_scope.

Section Handlers.
Context `{Runtime} `{CryptoJS} `{Numbers}.

Definition getSetting (key : string) : M World (option string) :=
  in_app (App.in_database (DatabaseService.getSetting key)).

Definition loadSettings : M World unit :=
  try_finally
    (try_catch
       (modify (setLoading true) ;;;
        c <- getSetting "currency" ;;
        let currency := or_text c "USD" in
        n <- getSetting "notifications" ;;
        let notifications := negb (bool_decide (n = Some "false")) in
        b <- getSetting "biometric" ;;
        let biometric := bool_decide (b = Some "true") in
        d <- getSetting "darkMode" ;;
        let darkMode := bool_decide (d = Some "true") in
        a <- getSetting "autoBackup" ;;
        let autoBackup := bool_decide (a = Some "true") in
        modify (setSettings
          (<["currency" := VText currency]>
             (<["notifications" := VBool notifications]>
                (<["biometric" := VBool biometric]>
                   (<["darkMode" := VBool darkMode]>
                      (<["autoBackup" := VBool autoBackup]> ∅)))))))
       (fun error => console_error "Error loading settings:" error))
    (modify (setLoading false)).

Definition updateSetting (key : string) (value : Value) : M World unit :=
  try_catch
    (in_app (App.in_database (DatabaseService.setSetting key (toString value))) ;;;
     modify (fun w => setSettings (<[key := value]> (settings w)) w))
    (fun error =>
       console_error "Error updating setting:" error ;;;
       Alert_alert "Error" "Failed to update setting").

(** The [onPress] of the Reset button of the alert [handleResetApp] shows *)
Definition resetPressed : M World unit :=
  try_catch
    (DatabaseService_clearAllData ;;;
     in_app App.resetSecurity ;;;
     Alert_alert "Success" "App has been reset successfully")
    (fun error => Alert_alert "Error" "Failed to reset app").
End Handlers.
End SettingsScreen.

Module TransactionsScreen.

Section Screen.
Context `{Models}.

(** The component state and the database service *)
Record World := {
  database : DatabaseService.World;
  transactions : list Transaction;
  loading : bool;
  filterType : string;
}.

Definition set_database (d : DatabaseService.World) (w : World) : World :=
  {| database := d; transactions := transactions w; loading := loading w;
     filterType := filterType w |}.

Definition setTransactions (l : list Transaction) (w : World) : World :=
  {| database := database w; transactions := l; loading := loading w;
     filterType := filterType w |}.

Definition setLoading (b : bool) (w : World) : World :=
  {| database := database w; transactions := transactions w; loading := b;
     filterType := filterType w |}.

Definition in_database {A} (m : M DatabaseService.World A) : M World A :=
  fun w => let (r, d) := m (database w) in (r, set_database d w).

Local Open Scope js_scope.

Definition loadTransactions : M World unit :=
  try_finally
    (try_catch
       (modify (setLoading true) ;;;
        type <- gets filterType ;;
        let filters :=
          if String.eqb type "all" then DatabaseService.no_filters
          else {| DatabaseService.f_type := Some type;
                  DatabaseService.f_category := None;
                  DatabaseService.f_startDate := None;
                  DatabaseService.f_endDate := None |} in
        allTransactions <-
          in_database (DatabaseService.getTransactions (Some 100%Z) (Some 0%Z) (Some filters)) ;;
        modify (setTransactions allTransactions))
       (fun error => console_error "Error loading transactions:" error))
    (modify (setLoading false)).
End Screen.
End TransactionsScreen.

(** ** Specifications, continued *)

Module SettingsSpec.
Import DatabaseService.

(** The values of the rows with a key, in table order *)
Definition values_of (key : string) (rows : list SettingRow) : list string :=
  map set_value (List.filter (fun r => String.eqb (set_key r) key) rows).

(** The values a list of defaults gives to a key *)
Definition defaults_for (key : string) (defaults : list (string * string)) : list string :=
  map snd (List.filter (fun d => String.eqb (fst d) key) defaults).

(** The value [insertDefaultSettings] gives to a key, if any *)
Definition default_values (key : string) : list string :=
  defaults_for key defaultSettings.

(** A store that executes statements: a handle is held, nothing is
    scheduled to be rejected and the tables exist; [T] is its settings
    table. *)
Definition working (T : list SettingRow) (w : World) : Prop :=
  db w = true /\ sql_faults w = [] /\ settings (disk w) = T /\
  DatabaseSpec.has_tables (disk w).

(** What the loop of [insertDefaultSettings] leaves: each default is appended
    unless its key is there. *)
Fixpoint seeded (now : string) (defaults : list (string * string))
    (T : list SettingRow) : list SettingRow :=
  match defaults with
  | [] => T
  | d :: defaults' =>
      seeded now defaults'
        (if existsb (fun r => String.eqb (set_key r) (fst d)) T then T
         else T ++ [{| set_key := fst d; set_value := snd d; set_updatedAt := now |}])
  end.

(** The database cannot be opened and the instance holds no handle. *)
Definition down (e : Error) (d : World) : Prop :=
  db d = false /\ open_error d = Some e.
End SettingsSpec.

Module AnalyticsSpec.


End AnalyticsSpec.

Module ScreenSpec.
Import SettingsScreen.

(** The settings object [loadSettings] builds from what [getSetting]
    answers for each key *)
Definition shown (stored : string -> option string) : gmap string Value :=
  <["currency" := VText (or_text (stored "currency") "USD")]>
    (<["notifications" := VBool (negb (bool_decide (stored "notifications" = Some "false")))]>
       (<["biometric" := VBool (bool_decide (stored "biometric" = Some "true"))]>
          (<["darkMode" := VBool (bool_decide (stored "darkMode" = Some "true"))]>
             (<["autoBackup" := VBool (bool_decide (stored "autoBackup" = Some "true"))]> ∅)))).

(** The screen over another state of the database service *)
Definition over (d : DatabaseService.World) (w : World) : World :=
  set_app {| App.database := d; App.auth := App.auth (app w) |} w.

(** The switches of the screen *)
Definition switches : list string :=
  ["notifications"; "darkMode"; "biometric"; "autoBackup"].
End ScreenSpec.

(** The auth service as its constructor leaves it *)
Definition constructed (a : AuthService.World) : AuthService.World :=
  snd (AuthService.constructor a).

(** ** Scenarios on the sample platform *)

Module Scenario.

(** Decimal digits of a whole number, and their reading *)
Definition digit (c : Ascii.ascii) : option Z :=
  let n := Ascii.nat_of_ascii c in
  if (48 <=? n)%nat && (n <=? 57)%nat then Some (Z.of_nat (n - 48)) else None.

Fixpoint read_digits (text : string) (acc : option Z) : option Z :=
  match text with
  | EmptyString => acc
  | String c rest =>
      match digit c with
      | Some d => read_digits rest (Some (10 * default 0%Z acc + d)%Z)
      | None => acc
      end
  end.

Definition numbers : Numbers :=
  {| Number_toString := pretty; parseInt := fun text => read_digits text None |}.

(** An app whose database is the sample device over store [s] and whose
    secure storage holds [secure] *)
Definition app (s : Store) (secure : gmap string string) (method : string) : App.World :=
  {| App.database := Sample.device s;
     App.auth := AuthService.set_secure secure (Sample.session method false) |}.

(** The same app on a device whose database cannot be opened *)
Definition app_without_database (secure : gmap string string) (method : string)
  : App.World :=
  {| App.database := Sample.broken_device;
     App.auth := AuthService.set_secure secure (Sample.session method false) |}.

Definition with_pin (pin : string) : gmap string string :=
  <["userPIN" := @SHA256 Sample.crypto pin]> ∅.

Definition settings_screen (a : App.World) : SettingsScreen.World :=
  {| SettingsScreen.app := a;
     SettingsScreen.settings := SettingsScreen.initial_settings;
     SettingsScreen.loading := true;
     SettingsScreen.alerts := [] |}.

Definition transactions_screen (s : Store) (filter : string)
  : @TransactionsScreen.World Sample.runtime :=
  {| TransactionsScreen.database := Sample.device s;
     TransactionsScreen.transactions := [];
     TransactionsScreen.loading := true;
     TransactionsScreen.filterType := filter |}.

(** A store whose only transaction has tags that are not JSON *)
Definition unreadable_row : TxnRow :=
  {| row_id := "t9"; row_amount := 5%float; row_type := "expense";
     row_category := Some "Shopping"; row_subcategory := None;
     row_description := None; row_date := "2024-02-01T00:00:00.000Z";
     row_account := Some "main"; row_currency := Some "USD";
     row_tags := Some "oops"; row_location := None; row_receipt := None;
     row_recurring := Some 0%Z; row_recurringPattern := Some "null";
     row_createdAt := "2024-02-01T00:00:00.000Z";
     row_updatedAt := "2024-02-01T00:00:00.000Z" |}.

Definition with_unreadable_row : Store :=
  with_transactions (transactions Sample.two_transactions ++ [unreadable_row]) empty_store.

(** An app with a PIN set up whose secure storage accepts one call and
    rejects the next *)
Definition app_with_failing_storage (e : Error) : App.World :=
  {| App.database := Sample.device empty_store;
     App.auth := AuthService.set_secure_faults [None; Some e]
                   (AuthService.set_secure (with_pin "1234") (Sample.session "pin" true)) |}.
End Scenario.

(** * Proofs *)

(** ** Rules for normal completion *)

Section TripleRules.
Context {W : Type}.

Lemma returns_ret {A} (P : W -> Prop) (a : A) (Q : A -> W -> Prop) :
  (forall w, P w -> Q a w) -> returns P (ret a) Q.
Proof. intros HQ w Hw. exists a, w. split; [reflexivity | auto]. Qed.

Lemma returns_gets {A} (P : W -> Prop) (f : W -> A) (Q : A -> W -> Prop) :
  (forall w, P w -> Q (f w) w) -> returns P (gets f) Q.
Proof. intros HQ w Hw. exists (f w), w. split; [reflexivity | auto]. Qed.

Lemma returns_modify (P : W -> Prop) (f : W -> W) (Q : unit -> W -> Prop) :
  (forall w, P w -> Q tt (f w)) -> returns P (modify f) Q.
Proof. intros HQ w Hw. exists tt, (f w). split; [reflexivity | auto]. Qed.

Lemma returns_bind {A B} (P : W -> Prop) (R : A -> W -> Prop) (Q : B -> W -> Prop)
    (m : M W A) (k : A -> M W B) :
  returns P m R -> (forall a, returns (R a) (k a) Q) -> returns P (bind m k) Q.
Proof.
  intros Hm Hk w Hw.
  destruct (Hm w Hw) as (a & w1 & E1 & HR).
  destruct (Hk a w1 HR) as (b & w2 & E2 & HQ).
  exists b, w2. unfold bind. rewrite E1. auto.
Qed.

Lemma returns_weaken {A} (P P' : W -> Prop) (Q Q' : A -> W -> Prop) (m : M W A) :
  returns P m Q -> (forall w, P' w -> P w) -> (forall a w, Q a w -> Q' a w) ->
  returns P' m Q'.
Proof.
  intros Hm HP HQ w Hw.
  destruct (Hm w (HP w Hw)) as (a & w1 & E & Hq). eauto.
Qed.

Lemma returns_try_catch {A} (P : W -> Prop) (Q : A -> W -> Prop)
    (body : M W A) (handler : Error -> M W A) :
  returns P body Q -> returns P (try_catch body handler) Q.
Proof.
  intros Hb w Hw. destruct (Hb w Hw) as (a & w1 & E & HQ).
  exists a, w1. unfold try_catch. rewrite E. auto.
Qed.

Lemma returns_for_of {A} (I : W -> Prop) (l : list A) (body : A -> M W unit) :
  (forall x, x ∈ l -> returns I (body x) (fun _ => I)) ->
  returns I (for_of l body) (fun _ => I).
Proof.
  induction l as [|x l IH]; intros Hbody; simpl.
  - apply returns_ret. auto.
  - eapply returns_bind.
    + apply Hbody. left.
    + intros u. apply IH. intros y Hy. apply Hbody. right. exact Hy.
Qed.

Lemma never_throws_ret {A} (a : A) : never_throws (W := W) (ret a).
Proof. intros w. exact I. Qed.

Lemma never_throws_gets {A} (f : W -> A) : never_throws (gets f).
Proof. intros w. exact I. Qed.

Lemma never_throws_modify (f : W -> W) : never_throws (modify f).
Proof. intros w. exact I. Qed.

Lemma never_throws_bind {A B} (m : M W A) (k : A -> M W B) :
  never_throws m -> (forall a, never_throws (k a)) -> never_throws (bind m k).
Proof.
  intros Hm Hk w. unfold bind. specialize (Hm w).
  destruct (m w) as [[a|e] w1]; simpl in *; [apply Hk | contradiction].
Qed.

(** A [try] whose handler completes normally completes normally. *)
Lemma never_throws_try_catch {A} (body : M W A) (handler : Error -> M W A) :
  (forall e, never_throws (handler e)) -> never_throws (try_catch body handler).
Proof.
  intros Hh w. unfold try_catch.
  destruct (body w) as [[a|e] w1]; simpl; [exact I | apply Hh].
Qed.

(** When the body throws, the handler takes over from the world reached. *)
Lemma try_catch_throw {A} (body : M W A) (handler : Error -> M W A) w e w1 :
  body w = (Throw e, w1) -> try_catch body handler w = handler e w1.
Proof. intros E. unfold try_catch. rewrite E. reflexivity. Qed.

Lemma bind_throw {A B} (m : M W A) (k : A -> M W B) w e w1 :
  m w = (Throw e, w1) -> bind m k w = (Throw e, w1).
Proof. intros E. unfold bind. rewrite E. reflexivity. Qed.

Lemma bind_ok {A B} (m : M W A) (k : A -> M W B) w a w1 :
  m w = (Ok a, w1) -> bind m k w = k a w1.
Proof. intros E. unfold bind. rewrite E. reflexivity. Qed.
End TripleRules.

(** ** DatabaseService *)

Import DatabaseService DatabaseSpec.

Section DatabaseProofs.
Context `{Models}.

Lemma executeSql_step {A} (stmt : Stmt A) (P P' : Store -> Prop) T i :
  (forall s, P s -> exists a s', stmt s = Ok (a, s') /\
                                 transactions s' = transactions s /\ P' s') ->
  returns (fun w => connected T i w /\ P (disk w)) (executeSql stmt)
          (fun _ w' => connected T i w' /\ P' (disk w')).
Proof.
  intros Hstmt w ((Ho & Hf & Hd & Hi & HT) & HP).
  destruct (Hstmt (disk w) HP) as (a & s' & E & Ht & HP').
  exists a, (set_disk s' (set_sql_faults [] w)).
  unfold executeSql. rewrite Hd, Hf. simpl. rewrite E.
  split; [reflexivity|]. split; [|exact HP'].
  unfold connected; simpl. repeat split; auto. congruence.
Qed.

Lemma executeSql_keeps {A} (stmt : Stmt A) T i :
  (forall s, has_tables s -> exists a s', stmt s = Ok (a, s') /\
                                          transactions s' = transactions s /\
                                          has_tables s') ->
  returns (installed T i) (executeSql stmt) (fun _ => installed T i).
Proof. apply (executeSql_step stmt has_tables has_tables). Qed.

Lemma Date_now_keeps T i : returns (installed T i) Date_now (fun _ => installed T i).
Proof. intros w Hw. eexists _, _. split; [reflexivity | exact Hw]. Qed.

Lemma Math_random_keeps T i :
  returns (installed T i) Math_random_base36 (fun _ => installed T i).
Proof. intros w Hw. eexists _, _. split; [reflexivity | exact Hw]. Qed.

Lemma new_Date_keeps T i :
  returns (installed T i) new_Date_toISOString (fun _ => installed T i).
Proof.
  eapply returns_bind; [apply Date_now_keeps|].
  intros t. apply returns_ret. auto.
Qed.

Lemma insert_or_ignore_category_total row s :
  has_tables s ->
  exists a s', insert_or_ignore_category row s = Ok (a, s') /\
               transactions s' = transactions s /\ has_tables s'.
Proof.
  intros (Ht & Hb & Hc & Hs). unfold insert_or_ignore_category. rewrite Hc.
  destruct (has_category_id _ _); eexists _, _; repeat split; assumption.
Qed.

(** The statement looks at the id only: under an id the table does not
    hold, a category is inserted whatever names the table already holds. *)
Lemma insert_or_ignore_category_new_id row s :
  created (categories_table s) = true ->
  Forall (fun r => cat_id r <> cat_id row) (categories s) ->
  insert_or_ignore_category row s =
    Ok (tt, with_categories (categories s ++ [row]) s).
Proof.
  intros Hc Hnew. unfold insert_or_ignore_category, has_category_id. rewrite Hc.
  replace (existsb _ _) with false; [reflexivity|].
  symmetry. induction Hnew as [|r l Hr _ IH]; simpl; [reflexivity|].
  apply String.eqb_neq in Hr. rewrite Hr. exact IH.
Qed.

(** Under a key the table holds, a setting is not inserted again. *)
Lemma insert_or_ignore_setting_known_key row s :
  Exists (fun r => set_key r = set_key row) (settings s) ->
  insert_or_ignore_setting row s = Ok (tt, s).
Proof.
  intros Hold. unfold insert_or_ignore_setting, has_setting_key.
  assert (Hs : created (settings_table s) = true).
  { unfold settings in Hold. destruct (settings_table s); [reflexivity|].
    simpl in Hold. inversion Hold. }
  rewrite Hs.
  replace (existsb _ _) with true; [reflexivity|].
  symmetry. induction Hold as [r l Hr|r l _ IH]; simpl.
  - apply String.eqb_eq in Hr. rewrite Hr. reflexivity.
  - rewrite IH. apply orb_true_r.
Qed.

Lemma insert_or_ignore_setting_total row s :
  has_tables s ->
  exists a s', insert_or_ignore_setting row s = Ok (a, s') /\
               transactions s' = transactions s /\ has_tables s'.
Proof.
  intros (Ht & Hb & Hc & Hs). unfold insert_or_ignore_setting. rewrite Hs.
  destruct (has_setting_key _ _); eexists _, _; repeat split; assumption.
Qed.

Lemma insertDefaultCategories_keeps T i :
  returns (installed T i) insertDefaultCategories (fun _ => installed T i).
Proof.
  apply returns_try_catch, returns_for_of. intros category _.
  eapply returns_bind; [apply Date_now_keeps|]. intros t.
  eapply returns_bind; [apply Math_random_keeps|]. intros r.
  eapply returns_bind; [apply new_Date_keeps|]. intros now.
  apply executeSql_keeps. intros s. apply insert_or_ignore_category_total.
Qed.

Lemma insertDefaultSettings_keeps T i :
  returns (installed T i) insertDefaultSettings (fun _ => installed T i).
Proof.
  apply returns_try_catch.
  eapply returns_bind; [apply new_Date_keeps|]. intros now.
  apply returns_for_of. intros setting _.
  apply executeSql_keeps. intros s. apply insert_or_ignore_setting_total.
Qed.

Lemma executeSql_run {A} (stmt : Stmt A) (w : World) a s :
  db w = true -> sql_faults w = [] -> stmt (disk w) = Ok (a, s) ->
  executeSql stmt w = (Ok a, set_disk s (set_sql_faults [] w)).
Proof.
  intros Hd Hf E. unfold executeSql. rewrite Hd, Hf. simpl. rewrite E. reflexivity.
Qed.

(** The four CREATE TABLE statements leave the four tables, and the rows of
    those that were there. *)
Lemma create_four_run w :
  db w = true -> sql_faults w = [] ->
  exists s', create_four w = (Ok tt, set_disk s' (set_sql_faults [] w)) /\
             has_tables s' /\ transactions s' = transactions (disk w) /\
             categories s' = categories (disk w) /\ settings s' = settings (disk w).
Proof.
  intros Hd Hf. unfold create_four.
  set (s0 := disk w).
  set (s1 := if created (transactions_table s0) then s0 else with_transactions [] s0).
  set (s2 := if created (budgets_table s1) then s1 else with_budgets [] s1).
  set (s3 := if created (categories_table s2) then s2 else with_categories [] s2).
  set (s4 := if created (settings_table s3) then s3 else with_settings [] s3).
  assert (E1 : create_transactions_table s0 = Ok (tt, s1))
    by (unfold create_transactions_table, s1; destruct (created (transactions_table s0)); reflexivity).
  assert (E2 : create_budgets_table s1 = Ok (tt, s2))
    by (unfold create_budgets_table, s2; destruct (created (budgets_table s1)); reflexivity).
  assert (E3 : create_categories_table s2 = Ok (tt, s3))
    by (unfold create_categories_table, s3; destruct (created (categories_table s2)); reflexivity).
  assert (E4 : create_settings_table s3 = Ok (tt, s4))
    by (unfold create_settings_table, s4; destruct (created (settings_table s3)); reflexivity).
  exists s4. split.
  - set (w1 := set_disk s1 (set_sql_faults [] w)).
    set (w2 := set_disk s2 (set_sql_faults [] w1)).
    set (w3 := set_disk s3 (set_sql_faults [] w2)).
    rewrite (bind_ok _ _ _ _ _ (executeSql_run _ w tt s1 Hd Hf E1)).
    rewrite (bind_ok _ _ _ _ _ (executeSql_run _ w1 tt s2 Hd eq_refl E2)).
    rewrite (bind_ok _ _ _ _ _ (executeSql_run _ w2 tt s3 Hd eq_refl E3)).
    exact (executeSql_run _ w3 tt s4 Hd eq_refl E4).
  - clear E1 E2 E3 E4. subst s4 s3 s2 s1 s0.
    unfold has_tables, transactions, categories, settings.
    destruct (disk w) as [[?|] [?|] [?|] [?|]]; simpl; auto 10.
Qed.

Lemma createTables_split w :
  createTables w =
    try_catch
      (bind create_four (fun _ =>
       bind insertDefaultCategories (fun _ => insertDefaultSettings)))
      (fun error => console_error "Error creating tables:" error) w.
Proof.
  unfold createTables, try_catch, create_four, bind.
  destruct (executeSql create_transactions_table w) as [[?|?] ?]; [|reflexivity].
  destruct (executeSql create_budgets_table _) as [[?|?] ?]; [|reflexivity].
  destruct (executeSql create_categories_table _) as [[?|?] ?]; reflexivity.
Qed.

Lemma createTables_keeps T i :
  returns (connected T i) createTables (fun _ => installed T i).
Proof.
  intros w Hw. rewrite createTables_split. revert w Hw.
  apply returns_try_catch.
  eapply returns_bind; [|intros ?; eapply returns_bind;
                         [apply insertDefaultCategories_keeps
                         |intros ?; apply insertDefaultSettings_keeps]].
  intros w (Ho & Hf & Hd & Hi & HT).
  destruct (create_four_run w Hd Hf) as (s' & E & Htables & Ht & _).
  eexists tt, _. split; [exact E|].
  split; [|exact Htables]. unfold connected; simpl. repeat split; auto. congruence.
Qed.

(** On a working store, [initialize] completes, leaves the service
    connected and initialized, and does not touch the transactions; a
    service that was not initialized leaves the four tables. *)
Lemma initialize_run w :
  ready w ->
  exists w', initialize w = (Ok tt, w') /\ healthy w' /\
             transactions (disk w') = transactions (disk w) /\
             (isInitialized w = false -> has_tables (disk w')) /\
             (isInitialized w = true -> w' = w).
Proof.
  intros (Ho & Hf & Hi).
  unfold initialize, bind at 1, gets.
  destruct (isInitialized w) eqn:Ei.
  - exists w. unfold healthy.
    split; [reflexivity|]. split; [auto|]. split; [reflexivity|].
    split; [discriminate | reflexivity].
  - assert (Hc : connected (transactions (disk w)) false (set_db true w)).
    { unfold connected; simpl; auto. }
    destruct (createTables_keeps _ _ _ Hc)
      as ([] & w1 & E1 & ((Ho1 & Hf1 & Hd1 & Hi1 & HT1) & Htables)).
    exists (set_isInitialized true w1).
    unfold try_catch, bind, SQLite_enablePromise, SQLite_openDatabase, modify,
      console_log, ret.
    rewrite Ho, E1. unfold healthy; simpl.
    split; [reflexivity|]. split; [auto|]. split; [exact HT1|].
    split; [intros _; exact Htables | discriminate].
Qed.

Lemma initialize_ready w :
  ready w ->
  exists w', initialize w = (Ok tt, w') /\ healthy w' /\
             transactions (disk w') = transactions (disk w).
Proof.
  intros Hr. destruct (initialize_run w Hr) as (w' & E & Hh & HT & _). eauto.
Qed.

(** On an operational store the service has its tables once initialized. *)
Lemma initialize_operational w :
  operational w ->
  exists w', initialize w = (Ok tt, w') /\ healthy w' /\ has_tables (disk w') /\
             transactions (disk w') = transactions (disk w).
Proof.
  intros (Hr & Htables). destruct (initialize_run w Hr) as (w' & E & Hh & HT & Hnew & Hold).
  exists w'. split; [exact E|]. split; [exact Hh|]. split; [|exact HT].
  destruct (isInitialized w) eqn:Ei; [|apply Hnew; reflexivity].
  rewrite (Hold eq_refl). apply Htables. reflexivity.
Qed.

Lemma initialize_healthy w : healthy w -> initialize w = (Ok tt, w).
Proof.
  intros (_ & _ & Hi & _). unfold initialize, bind, gets. rewrite Hi. reflexivity.
Qed.

Lemma healthy_ready w : healthy w -> ready w.
Proof. intros (Ho & Hf & Hi & Hd). unfold ready. auto. Qed.

(** *** Settings *)

Lemma others_then_row key (old : list SettingRow) row :
  set_key row = key ->
  List.filter (fun r => String.eqb (set_key r) key)
              (filter (fun r => set_key r <> key) old ++ [row]) = [row].
Proof.
  intros Hk. induction old as [|r old IH]; simpl.
  - rewrite Hk, String.eqb_refl. reflexivity.
  - rewrite filter_cons. destruct (decide (set_key r <> key)) as [Hne|Heq]; [|exact IH].
    simpl. apply String.eqb_neq in Hne. rewrite Hne. exact IH.
Qed.

Lemma only_row key (old : list SettingRow) row :
  set_key row = key ->
  filter (fun r => set_key r = key)
         (filter (fun r => set_key r <> key) old ++ [row]) = [row].
Proof.
  intros Hk. induction old as [|r old IH]; simpl.
  - rewrite filter_cons, decide_True by exact Hk. reflexivity.
  - rewrite (filter_cons (fun r => set_key r <> key)).
    destruct (decide (set_key r <> key)) as [Hne|Heq]; [|exact IH].
    simpl. rewrite filter_cons, decide_False by exact Hne. exact IH.
Qed.

Lemma setSetting_healthy w key value :
  healthy w -> created (settings_table (disk w)) = true ->
  exists w',
    setSetting key value w = (Ok tt, w') /\ healthy w' /\
    settings (disk w') =
      filter (fun r => set_key r <> key) (settings (disk w))
      ++ [{| set_key := key; set_value := value;
             set_updatedAt := Date_toISOString (clock w (reads w)) |}] /\
    created (settings_table (disk w')) = true /\
    (has_tables (disk w) -> has_tables (disk w')) /\
    transactions (disk w') = transactions (disk w).
Proof.
  intros Hh Hs. pose proof Hh as (Ho & Hf & Hi & Hd).
  eexists. unfold setSetting.
  rewrite (bind_ok _ _ _ _ _ (initialize_healthy w Hh)).
  unfold try_catch, new_Date_toISOString, bind, Date_now, ret, executeSql,
    insert_or_replace_setting.
  simpl. rewrite Hd, Hf. simpl. rewrite Hs.
  split; [reflexivity|]. split; [unfold healthy; simpl; auto|].
  split; [reflexivity|]. split; [reflexivity|].
  split; [|reflexivity]. intros (Ht & Hb & Hc & _). repeat split; assumption.
Qed.

(** Without its table, [setSetting] completes and writes nothing. *)
Lemma setSetting_no_table w key value :
  healthy w -> created (settings_table (disk w)) = false ->
  exists w',
    setSetting key value w = (Ok tt, w') /\ healthy w' /\ disk w' = disk w.
Proof.
  intros Hh Hs. pose proof Hh as (Ho & Hf & Hi & Hd).
  eexists. unfold setSetting.
  rewrite (bind_ok _ _ _ _ _ (initialize_healthy w Hh)).
  unfold try_catch, new_Date_toISOString, bind, Date_now, ret, executeSql,
    insert_or_replace_setting, console_error.
  simpl. rewrite Hd, Hf. simpl. rewrite Hs.
  split; [reflexivity|]. split; [unfold healthy; simpl; auto | reflexivity].
Qed.

Lemma setSetting_ready w key value :
  ready w -> healthy (snd (setSetting key value w)).
Proof.
  intros Hr. destruct (initialize_ready w Hr) as (w1 & E1 & Hh1 & _).
  assert (Hh : healthy (snd (setSetting key value w1))).
  { destruct (created (settings_table (disk w1))) eqn:Es.
    - destruct (setSetting_healthy w1 key value Hh1 Es) as (w' & -> & Hh & _). exact Hh.
    - destruct (setSetting_no_table w1 key value Hh1 Es) as (w' & -> & Hh & _). exact Hh. }
  revert Hh. unfold setSetting.
  rewrite (bind_ok _ _ _ _ _ (initialize_healthy w1 Hh1)).
  rewrite (bind_ok _ _ _ _ _ E1). auto.
Qed.

(** A missing settings table reads as an empty one. *)
Lemma getSetting_healthy w key :
  healthy w ->
  getSetting key w =
    (Ok (head (map set_value
                 (List.filter (fun r => String.eqb (set_key r) key) (settings (disk w))))),
     w).
Proof.
  intros Hh. pose proof Hh as (Ho & Hf & Hi & Hd).
  unfold getSetting.
  rewrite (bind_ok _ _ _ _ _ (initialize_healthy w Hh)).
  unfold try_catch, bind, ret, executeSql, select_setting_value, console_error, settings.
  rewrite Hd, Hf. simpl.
  destruct (settings_table (disk w)) as [rows|] eqn:Es; simpl; f_equal;
    destruct w; simpl in *; subst; reflexivity.
Qed.

(** C7. After [setSetting(k, v)] has run twice on a working store whose
    tables exist (at the latest, the service creates them when it
    initializes), the settings table holds exactly one row with key [k];
    its value is [v] and its updatedAt is the time of the second call; and
    [getSetting(k)] then returns [v]. *)
Theorem setSetting_twice_one_row (w : World) (key value : string) :
  operational w ->
  let w1 := snd (setSetting key value w) in
  let w2 := snd (setSetting key value w1) in
  filter (fun r => set_key r = key) (settings (disk w2)) =
    [{| set_key := key; set_value := value;
        set_updatedAt := Date_toISOString (clock w1 (reads w1)) |}] /\
  fst (getSetting key w2) = Ok (Some value).
Proof.
  intros Hop. simpl.
  destruct (initialize_operational w Hop) as (w0 & E0 & Hh0 & (_ & _ & _ & Hs0) & _).
  destruct (setSetting_healthy w0 key value Hh0 Hs0) as (w1 & E1 & Hh1 & _ & Hs1 & _).
  assert (Ew1 : setSetting key value w = (Ok tt, w1)).
  { revert E1. unfold setSetting.
    rewrite (bind_ok _ _ _ _ _ (initialize_healthy w0 Hh0)).
    rewrite (bind_ok _ _ _ _ _ E0). auto. }
  rewrite Ew1. cbn [snd].
  destruct (setSetting_healthy w1 key value Hh1 Hs1) as (w2 & E2 & Hh2 & Hs2 & _).
  rewrite E2; simpl. split.
  - rewrite Hs2. apply only_row. reflexivity.
  - rewrite (getSetting_healthy w2 key Hh2); simpl.
    rewrite Hs2, others_then_row by reflexivity. reflexivity.
Qed.

(** *** The summary *)

Lemma for_rows_pure {A B} (f : B -> A -> B) (rows : list A) (acc : B) (w : World) :
  for_rows rows (fun acc r => ret (f acc r)) acc w = (Ok (foldl f acc rows), w).
Proof.
  revert acc. induction rows as [|r rows IH]; intros acc; simpl; [reflexivity|].
  unfold bind, ret at 1. apply IH.
Qed.

Lemma foldl_insert_keys {V} (keys : list string) (f : string -> V) (m : gmap string V) k :
  foldl (fun m p => <[fst p := snd p]> m) m (map (fun k => (k, f k)) keys) !! k =
    if decide (k ∈ keys) then Some (f k) else m !! k.
Proof.
  revert m. induction keys as [|x keys IH]; intros m; simpl.
  - reflexivity.
  - rewrite IH. destruct (decide (k ∈ keys)) as [Hin|Hout].
    + rewrite decide_True by (right; exact Hin). reflexivity.
    + destruct (decide (x = k)) as [->|Hne].
      * rewrite decide_True by left. apply lookup_insert_eq.
      * rewrite decide_False.
        -- apply lookup_insert_ne. exact Hne.
        -- intros Hin. apply elem_of_cons in Hin as [->|Hin]; [apply Hne | apply Hout]; auto.
Qed.

Lemma where_range startDate endDate r :
  where_ [DateGe startDate; DateLe endDate] r = true <-> dated_within startDate endDate r.
Proof.
  unfold where_, dated_within, text_le. simpl.
  rewrite andb_true_r, andb_true_iff. reflexivity.
Qed.

(** A group of the query holds the transactions the specification names,
    in table order. *)
Lemma group_matching type startDate endDate rows :
  filter (fun r => row_type r = type)
         (List.filter (where_ [DateGe startDate; DateLe endDate]) rows) =
    matching type startDate endDate rows.
Proof.
  unfold matching. induction rows as [|r rows IH]; [reflexivity|].
  rewrite (filter_cons (fun r => row_type r = type /\ _)).
  cbn [List.filter].
  destruct (where_ [DateGe startDate; DateLe endDate] r) eqn:Ew.
  - apply where_range in Ew. destruct Ew as [Hs He].
    rewrite filter_cons. destruct (decide (row_type r = type)) as [Ht|Ht].
    + rewrite decide_True by auto. rewrite IH. reflexivity.
    + rewrite decide_False by tauto. exact IH.
  - rewrite decide_False; [exact IH|].
    intros (_ & Hs & He).
    assert (where_ [DateGe startDate; DateLe endDate] r = true) as E
      by (apply where_range; split; assumption).
    congruence.
Qed.

Lemma filter_none {A} (P : A -> Prop) `{forall x, Decision (P x)} (l : list A) :
  (forall x, x ∈ l -> ~ P x) -> filter P l = [].
Proof.
  induction l as [|x l IH]; intros Hl; [reflexivity|].
  rewrite filter_cons, decide_False by (apply Hl; left).
  apply IH. intros y Hy. apply Hl. right. exact Hy.
Qed.

Lemma matching_within type startDate endDate rows :
  matching type startDate endDate rows =
    filter (fun r => row_type r = type) (filter (dated_within startDate endDate) rows).
Proof.
  unfold matching. rewrite list_filter_filter.
  apply list_filter_iff. intros r. unfold dated_within. tauto.
Qed.

(** The total of a group of the query is the total the specification
    names. *)
Lemma group_total type startDate endDate rows :
  type ∈ map row_type (List.filter (where_ [DateGe startDate; DateLe endDate]) rows) ->
  SUM (filter (fun r => row_type r = type)
              (List.filter (where_ [DateGe startDate; DateLe endDate]) rows)) =
    total_of type startDate endDate rows.
Proof.
  intros Hin. rewrite group_matching. unfold total_of.
  destruct (matching type startDate endDate rows) as [|r group] eqn:E; [|reflexivity].
  exfalso. apply list_elem_of_fmap in Hin as (r & -> & Hr).
  rewrite <- group_matching in E.
  assert (Hr' : r ∈ filter (fun r' => row_type r' = row_type r)
                      (List.filter (where_ [DateGe startDate; DateLe endDate]) rows))
    by (apply list_elem_of_filter; auto).
  rewrite E in Hr'. apply elem_of_nil in Hr'. exact Hr'.
Qed.

Lemma no_rows_no_total type startDate endDate rows :
  type ∉ map row_type (List.filter (where_ [DateGe startDate; DateLe endDate]) rows) ->
  total_of type startDate endDate rows = 0%float.
Proof.
  intros Hout. unfold total_of. rewrite <- group_matching.
  rewrite filter_none; [reflexivity|]. intros r Hr Ht. apply Hout.
  apply list_elem_of_fmap. exists r. auto.
Qed.

(** A missing transactions table reads as an empty one. *)
Lemma getTransactionSummary_healthy w startDate endDate :
  healthy w ->
  getTransactionSummary startDate endDate w =
    (Ok (foldl (fun m p => <[fst p := snd p]> m) zero_summary
           (map (fun g => (fst g, SUM (snd g)))
                (group_by row_type
                   (List.filter (where_ [DateGe startDate; DateLe endDate])
                                (transactions (disk w)))))), w).
Proof.
  intros Hh. pose proof Hh as (Ho & Hf & Hi & Hd).
  unfold getTransactionSummary.
  rewrite (bind_ok _ _ _ _ _ (initialize_healthy w Hh)).
  unfold try_catch, bind at 1, executeSql, select_summary, transactions.
  rewrite Hd, Hf. simpl.
  destruct (transactions_table (disk w)) as [rows|] eqn:Et; simpl.
  - rewrite for_rows_pure. f_equal.
    destruct w; simpl in *; subst; reflexivity.
  - unfold bind, console_error, ret. f_equal.
    destruct w; simpl in *; subst; reflexivity.
Qed.

Lemma summary_lookup startDate endDate rows k :
  (forall r, r ∈ rows -> dated_within startDate endDate r -> known_type r) ->
  foldl (fun m p => <[fst p := snd p]> m) zero_summary
        (map (fun g => (fst g, SUM (snd g)))
             (group_by row_type
                (List.filter (where_ [DateGe startDate; DateLe endDate]) rows))) !! k =
    summary_of startDate endDate rows !! k.
Proof.
  intros Hknown. unfold group_by. rewrite map_map. simpl.
  set (sel := List.filter _ rows).
  rewrite (foldl_insert_keys _ (fun k => SUM (filter (fun r => row_type r = k) sel))).
  destruct (decide (k ∈ remove_dups (map row_type sel))) as [Hin|Hout].
  - rewrite elem_of_remove_dups in Hin. pose proof Hin as Hgroup.
    apply list_elem_of_fmap in Hin as (r & -> & Hr).
    apply list_elem_of_In, filter_In in Hr as [Hr Hw].
    apply list_elem_of_In in Hr. apply where_range in Hw.
    unfold sel. rewrite group_total by exact Hgroup. unfold summary_of.
    destruct (Hknown r Hr Hw) as [[] E]; rewrite E; by simplify_map_eq.
  - rewrite elem_of_remove_dups in Hout.
    unfold summary_of, zero_summary.
    destruct (decide (k = "income")) as [->|?];
      [ rewrite !lookup_insert_eq, no_rows_no_total by exact Hout; reflexivity |].
    rewrite !(lookup_insert_ne _ "income") by auto.
    destruct (decide (k = "expense")) as [->|?];
      [ rewrite !lookup_insert_eq, no_rows_no_total by exact Hout; reflexivity |].
    rewrite !(lookup_insert_ne _ "expense") by auto.
    destruct (decide (k = "transfer")) as [->|?];
      [ rewrite !lookup_insert_eq, no_rows_no_total by exact Hout; reflexivity |].
    rewrite !(lookup_insert_ne _ "transfer") by auto. reflexivity.
Qed.

(** The group of a type among two transactions of different types *)
Lemma matching_of_two type startDate endDate rows r1 r2 :
  filter (dated_within startDate endDate) rows ≡ₚ [r1; r2] ->
  matching type startDate endDate rows ≡ₚ filter (fun r => row_type r = type) [r1; r2].
Proof. intros Hsel. rewrite matching_within, Hsel. reflexivity. Qed.

Lemma total_of_one type startDate endDate rows r :
  matching type startDate endDate rows ≡ₚ [r] -> is_finite (row_amount r) = true ->
  total_of type startDate endDate rows = (0 + row_amount r)%float.
Proof.
  intros Hone Hfin. apply Permutation_singleton_r in Hone.
  unfold total_of. rewrite Hone. unfold SUM. simpl. apply sqlite_sum_one, Hfin.
Qed.

Lemma total_of_none type startDate endDate rows :
  matching type startDate endDate rows ≡ₚ [] ->
  total_of type startDate endDate rows = 0%float.
Proof.
  intros Hnone. apply Permutation_nil_r in Hnone. unfold total_of. rewrite Hnone.
  reflexivity.
Qed.

(** C2, as amended. On a working store whose transactions dated within the
    range have one of the three types, [getTransactionSummary(startDate,
    endDate)] returns the object with exactly the keys income, expense and
    transfer, each holding what SQLite's SUM(amount) gives for the
    transactions of that type dated within [startDate, endDate], a
    floating-point sum (0 when there is none); when those transactions are
    one income of 100 and one expense of 40 it returns
    {income: 100, expense: 40, transfer: 0}. *)
Theorem getTransactionSummary_totals (w : World) (startDate endDate : string) :
  ready w ->
  (forall r, r ∈ transactions (disk w) ->
             dated_within startDate endDate r -> known_type r) ->
  fst (getTransactionSummary startDate endDate w) =
    Ok (summary_of startDate endDate (transactions (disk w))) /\
  dom (summary_of startDate endDate (transactions (disk w)))
    = ({[ "income"; "expense"; "transfer" ]} : gset string) /\
  (forall r1 r2,
      filter (dated_within startDate endDate) (transactions (disk w)) ≡ₚ [r1; r2] ->
      row_type r1 = "income" -> row_amount r1 = 100%float ->
      row_type r2 = "expense" -> row_amount r2 = 40%float ->
      fst (getTransactionSummary startDate endDate w) =
        Ok (<["income" := 100%float]>
              (<["expense" := 40%float]> (<["transfer" := 0%float]> ∅)))).
Proof.
  intros Hr Hknown.
  destruct (initialize_ready w Hr) as (w1 & E1 & Hh1 & HT).
  assert (Hmain : fst (getTransactionSummary startDate endDate w) =
                  Ok (summary_of startDate endDate (transactions (disk w)))).
  { pose proof (getTransactionSummary_healthy w1 startDate endDate Hh1) as E.
    revert E. unfold getTransactionSummary.
    rewrite (bind_ok _ _ _ _ _ (initialize_healthy w1 Hh1)).
    rewrite (bind_ok _ _ _ _ _ E1). intros ->. simpl. f_equal.
    apply map_eq. intros k. rewrite HT. apply summary_lookup. exact Hknown. }
  split; [exact Hmain|]. split.
  - unfold summary_of. rewrite !dom_insert_L, dom_empty_L. set_solver.
  - intros r1 r2 Hsel T1 A1 T2 A2. rewrite Hmain. unfold summary_of.
    pose proof (matching_of_two "income" _ _ _ _ _ Hsel) as Hi.
    pose proof (matching_of_two "expense" _ _ _ _ _ Hsel) as He.
    pose proof (matching_of_two "transfer" _ _ _ _ _ Hsel) as Ht.
    rewrite !filter_cons, !filter_nil, T1, T2 in Hi, He, Ht. simpl in Hi, He, Ht.
    rewrite (total_of_one _ _ _ _ r1 Hi) by (rewrite A1; reflexivity).
    rewrite (total_of_one _ _ _ _ r2 He) by (rewrite A2; reflexivity).
    rewrite (total_of_none _ _ _ _ Ht), A1, A2. reflexivity.
Qed.

(** *** Reading transactions *)

Lemma text_le_trans a b c : text_le a b -> text_le b c -> text_le a c.
Proof.
  unfold text_le, String.leb. revert b c.
  induction a as [|x a IH]; intros [|y b] [|z c]; simpl; try done.
  unfold Ascii.compare.
  destruct (N.compare_spec (Ascii.N_of_ascii x) (Ascii.N_of_ascii y)),
           (N.compare_spec (Ascii.N_of_ascii y) (Ascii.N_of_ascii z)),
           (N.compare_spec (Ascii.N_of_ascii x) (Ascii.N_of_ascii z));
    try done; try lia.
  apply IH.
Qed.

Lemma text_le_total a b : text_le a b \/ text_le b a.
Proof. apply String.leb_total. Qed.

#[local] Instance date_desc_trans : Transitive date_desc.
Proof. intros a b c Hab Hbc. unfold date_desc in *. eapply text_le_trans; eauto. Qed.

#[local] Instance date_desc_total : Total date_desc.
Proof. intros a b. unfold date_desc. apply text_le_total. Qed.

(** The sorter *)

Lemma insert_by_perm {A} (R : relation A) `{forall a b, Decision (R a b)} x (l : list A) :
  insert_by R x l ≡ₚ x :: l.
Proof.
  induction l as [|y l IH]; simpl; [reflexivity|].
  destruct (decide (R x y)); [reflexivity|].
  rewrite IH. apply Permutation_swap.
Qed.

Lemma sort_by_perm {A} (R : relation A) `{forall a b, Decision (R a b)} (l : list A) :
  sort_by R l ≡ₚ l.
Proof.
  induction l as [|x l IH]; simpl; [reflexivity|].
  rewrite insert_by_perm. f_equiv. exact IH.
Qed.

Lemma insert_by_sorted {A} (R : relation A) `{forall a b, Decision (R a b)}
    `{!Transitive R} `{!Total R} x (l : list A) :
  StronglySorted R l -> StronglySorted R (insert_by R x l).
Proof.
  induction 1 as [|y l Hl IH Hy]; simpl.
  - repeat constructor.
  - destruct (decide (R x y)) as [Hxy|Hxy].
    + constructor; [constructor; assumption|].
      constructor; [exact Hxy|].
      eapply Forall_impl; [exact Hy|]. intros z Hz. by trans y.
    + constructor; [exact IH|].
      rewrite insert_by_perm. constructor; [|exact Hy].
      destruct (total R x y); [contradiction | assumption].
Qed.

Lemma sort_by_sorted {A} (R : relation A) `{forall a b, Decision (R a b)}
    `{!Transitive R} `{!Total R} (l : list A) :
  StronglySorted R (sort_by R l).
Proof.
  induction l as [|x l IH]; simpl; [constructor|].
  apply insert_by_sorted; [assumption | assumption | exact IH].
Qed.

Lemma order_by_perm {A} (R : relation A) `{forall a b, Decision (R a b)} (l : list A) :
  order_by R l ≡ₚ l.
Proof. unfold order_by. rewrite sort_by_perm. apply tie_order_perm. Qed.

Lemma order_by_sorted {A} (R : relation A) `{forall a b, Decision (R a b)}
    `{!Transitive R} `{!Total R} (l : list A) :
  StronglySorted R (order_by R l).
Proof. apply sort_by_sorted; assumption. Qed.

Lemma order_by_nil {A} (R : relation A) `{forall a b, Decision (R a b)} :
  order_by R [] = [].
Proof. apply Permutation_nil_r. apply order_by_perm. Qed.

Lemma order_by_date_desc_sorted rows : StronglySorted date_desc (order_by_date_desc rows).
Proof. apply order_by_sorted; apply _. Qed.

Lemma order_by_date_desc_perm rows : order_by_date_desc rows ≡ₚ rows.
Proof. apply order_by_perm. Qed.

Lemma where_snoc q c r : where_ (q ++ [c]) r = where_ q r && holds r c.
Proof. unfold where_. rewrite forallb_app. simpl. rewrite andb_true_r. reflexivity. Qed.

Lemma and_if_contributes p cond q r :
  where_ (and_if p cond q) r =
    where_ q r && contributes truthy p (fun v => holds r (cond v)).
Proof.
  unfold and_if, contributes. destruct p as [v|]; [|rewrite andb_true_r; reflexivity].
  destruct (truthy (Some v)); [apply where_snoc | rewrite andb_true_r; reflexivity].
Qed.

Lemma category_test r v :
  holds r (CategoryEq v) = bool_decide (row_category r = Some v).
Proof.
  simpl. destruct (row_category r) as [c|].
  - destruct (String.eqb_spec c v) as [->|Hne].
    + rewrite bool_decide_eq_true_2; reflexivity.
    + rewrite bool_decide_eq_false_2; [reflexivity | congruence].
  - rewrite bool_decide_eq_false_2; [reflexivity | congruence].
Qed.

(** The WHERE clause built from the filters is the conjunction of the
    predicates of the truthy filter properties. *)
Lemma build_query_satisfies f r :
  where_ (build_query f) r = satisfies truthy f r.
Proof.
  unfold build_query, satisfies. rewrite !and_if_contributes. simpl.
  f_equal. f_equal. f_equal.
  unfold contributes. destruct (f_category f); [|reflexivity].
  destruct (truthy _); [apply category_test | reflexivity].
Qed.

Lemma read_row_ok acc r t (w : World) :
  deserializes r t -> read_row acc r w = (Ok (acc ++ [t]), w).
Proof.
  intros (tags & pat & E1 & E2 & E3).
  unfold read_row, bind, lift, ret. rewrite E1, E2, E3. reflexivity.
Qed.

Lemma read_rows rows acc (w : World) :
  Forall readable rows ->
  exists ts, for_rows rows read_row acc w = (Ok (acc ++ ts), w) /\
             Forall2 deserializes rows ts.
Proof.
  intros Hrows. revert acc.
  induction Hrows as [|r rows (t & Ht) _ IH]; intros acc.
  - exists []. rewrite app_nil_r. split; [reflexivity | constructor].
  - destruct (IH (acc ++ [t])) as (ts & E & Hts).
    exists (t :: ts). split.
    + simpl. unfold bind at 1. rewrite (read_row_ok _ _ _ _ Ht).
      rewrite E, <- app_assoc. reflexivity.
    + constructor; [exact Ht | exact Hts].
Qed.

Lemma limit_offset_subseteq {A} l o (rows : list A) : limit_offset l o rows ⊆ rows.
Proof.
  unfold limit_offset. destruct (l <? 0)%Z.
  - apply subseteq_drop.
  - etrans; [apply subseteq_take | apply subseteq_drop].
Qed.

Lemma limit_offset_nil {A} l o : limit_offset l o (@nil A) = [].
Proof.
  unfold limit_offset. rewrite drop_nil. destruct (l <? 0)%Z; [reflexivity|].
  apply take_nil.
Qed.

Lemma same_world (w : World) :
  sql_faults w = [] -> set_sql_faults (tail (sql_faults w)) w = w.
Proof. intros Hf. destruct w; simpl in *; subst; reflexivity. Qed.

(** With a limit and an offset that are 64-bit integers; a missing
    transactions table reads as an empty one. *)
Lemma getTransactions_healthy w limit offset filters :
  healthy w ->
  int64 (default 100%Z limit) && int64 (default 0%Z offset) = true ->
  getTransactions limit offset filters w =
    try_catch
      (for_rows
         (limit_offset (default 100%Z limit) (default 0%Z offset)
            (order_by_date_desc
               (List.filter (where_ (build_query (default no_filters filters)))
                            (transactions (disk w)))))
         read_row [])
      (fun error => bind (console_error "Error getting transactions:" error)
                         (fun _ => ret [])) w.
Proof.
  intros Hh Hint. pose proof Hh as (Ho & Hf & Hi & Hd).
  unfold getTransactions.
  rewrite (bind_ok _ _ _ _ _ (initialize_healthy w Hh)).
  unfold try_catch, bind at 1, executeSql, select_transactions, transactions.
  rewrite Hd. rewrite (same_world w Hf), Hf.
  destruct (transactions_table (disk w)) as [rows|] eqn:Et; simpl.
  - rewrite Hint.
    replace (set_disk (disk w) w) with w by (destruct w; reflexivity).
    reflexivity.
  - unfold order_by_date_desc. rewrite order_by_nil, limit_offset_nil. reflexivity.
Qed.

(** A limit or an offset that is no 64-bit integer is refused by the
    statement, and [getTransactions] returns [[]]. *)
Lemma getTransactions_mismatch w limit offset filters :
  int64 (default 100%Z limit) && int64 (default 0%Z offset) = false ->
  fst (getTransactions limit offset filters w) = Ok [].
Proof.
  intros Hint. unfold getTransactions.
  assert (Hinit : exists w1, initialize w = (Ok tt, w1)).
  { assert (Hok : is_Ok (fst (initialize w))).
    { unfold initialize, bind at 1, gets. destruct (isInitialized w); [exact I|].
      unfold try_catch. destruct (bind _ _ _) as [[?|?] ?]; exact I. }
    destruct (initialize w) as [[[]|e] w1]; [eauto | contradiction]. }
  destruct Hinit as (w1 & E1). rewrite (bind_ok _ _ _ _ _ E1).
  unfold try_catch, bind at 1, executeSql, select_transactions.
  destruct (db w1); [|reflexivity].
  destruct (sql_faults w1) as [|[e|] rest]; try reflexivity;
    destruct (created _); try reflexivity; rewrite Hint; reflexivity.
Qed.

(** C6, as amended. On a working store whose rows are readable (their tags
    and recurringPattern are JSON text or empty, and [Transaction.fromJSON]
    builds a transaction from them), for a limit and an offset that are
    64-bit integers, [getTransactions(limit, offset, filters)] returns
    exactly the transactions that satisfy the conjunction of the predicates
    of the filter properties that are present with a non-empty value (type
    equality, category equality, date >= startDate, date <= endDate),
    ordered by date descending and paginated by limit and offset, each with
    tags and recurringPattern deserialized and recurring as a boolean; for
    a limit or an offset outside the 64-bit integers it returns [[]]. *)
Theorem getTransactions_selects (w : World) (limit offset : option Z)
    (filters : option Filters) :
  ready w ->
  Forall readable (transactions (disk w)) ->
  (int64 (default 100%Z limit) && int64 (default 0%Z offset) = true ->
   returns_selected truthy w limit offset filters) /\
  (int64 (default 100%Z limit) && int64 (default 0%Z offset) = false ->
   fst (getTransactions limit offset filters w) = Ok []).
Proof.
  intros Hr Hrows. split; [|apply getTransactions_mismatch].
  intros Hint.
  destruct (initialize_ready w Hr) as (w1 & E1 & Hh1 & HT).
  set (f := default no_filters filters).
  set (sorted := order_by_date_desc
                   (List.filter (satisfies truthy f) (transactions (disk w)))).
  set (page := limit_offset (default 100%Z limit) (default 0%Z offset) sorted).
  assert (Hpage : Forall readable page).
  { apply Forall_forall. intros r Hin.
    apply limit_offset_subseteq in Hin. unfold sorted in Hin.
    rewrite order_by_date_desc_perm in Hin.
    apply list_elem_of_In, filter_In in Hin as [Hin _].
    rewrite Forall_forall in Hrows. apply Hrows, list_elem_of_In, Hin. }
  destruct (read_rows page [] w1 Hpage) as (ts & Ets & Hts).
  exists sorted, ts. split; [apply order_by_date_desc_perm|].
  split; [apply order_by_date_desc_sorted|]. split; [|exact Hts].
  pose proof (getTransactions_healthy w1 limit offset filters Hh1 Hint) as E.
  revert E. unfold getTransactions at 1.
  rewrite (bind_ok _ _ _ _ _ (initialize_healthy w1 Hh1)).
  unfold getTransactions at 1.
  rewrite (bind_ok _ _ _ _ _ E1). intros ->.
  rewrite HT, (List.filter_ext _ _ (build_query_satisfies _)).
  fold f sorted page. unfold try_catch. rewrite Ets. reflexivity.
Qed.

(** *** The error policy *)

Lemma initialize_never_throws : never_throws initialize.
Proof.
  apply never_throws_bind; [apply never_throws_gets|]. intros [|].
  - apply never_throws_ret.
  - apply never_throws_try_catch. intros e w. exact I.
Qed.

Lemma initialize_completes w : exists w1, initialize w = (Ok tt, w1).
Proof.
  pose proof (initialize_never_throws w) as Hok.
  destruct (initialize w) as [[[]|e] w1]; [eauto | contradiction].
Qed.

Lemma initialize_marks w : isInitialized (snd (initialize w)) = true.
Proof.
  unfold initialize, bind at 1, gets. destruct (isInitialized w) eqn:Ei; [exact Ei|].
  unfold try_catch, bind at 1, SQLite_enablePromise, ret.
  unfold bind at 1, SQLite_openDatabase.
  destruct (open_error w); [reflexivity|].
  unfold bind at 1, modify. unfold bind at 1.
  destruct (createTables _) as [[[]|e] w1]; reflexivity.
Qed.

(** A second [initialize()] on the same service instance does nothing. *)
Lemma initialize_again w :
  initialize (snd (initialize w)) = (Ok tt, snd (initialize w)).
Proof.
  unfold initialize at 1, bind, gets. rewrite initialize_marks. reflexivity.
Qed.

Lemma executeSql_fails {A} (stmt : Stmt A) w :
  store_fails w -> exists e w', executeSql stmt w = (Throw e, w').
Proof.
  unfold executeSql. intros [Hd|(e & rest & Hf)].
  - rewrite Hd. eauto.
  - destruct (db w); [rewrite Hf|]; eauto.
Qed.

Lemma reads_never_throw w :
  is_Ok (fst (initialize w)) /\
  (forall l o f, is_Ok (fst (getTransactions l o f w))) /\
  (forall s e, is_Ok (fst (getTransactionSummary s e w))) /\
  (forall t s e, is_Ok (fst (getCategoryBreakdown t s e w))) /\
  (forall m, is_Ok (fst (getMonthlyTrends m w))) /\
  (forall k, is_Ok (fst (getSetting k w))) /\
  (forall k v, is_Ok (fst (setSetting k v w))).
Proof.
  repeat split; intros;
    try apply initialize_never_throws;
    (apply never_throws_bind; [apply initialize_never_throws|]);
    intros _; apply never_throws_try_catch; intros err w'; exact I.
Qed.

Lemma reads_default_on_failure w :
  store_fails (snd (initialize w)) ->
  (forall l o f, fst (getTransactions l o f w) = Ok []) /\
  (forall s e, fst (getTransactionSummary s e w) = Ok zero_summary) /\
  (forall t s e, fst (getCategoryBreakdown t s e w) = Ok []) /\
  (forall m, fst (getMonthlyTrends m w) = Ok []) /\
  (forall k, fst (getSetting k w) = Ok None) /\
  (forall k v, fst (setSetting k v w) = Ok tt).
Proof.
  destruct (initialize_completes w) as (w1 & E1). rewrite E1. simpl. intros Hf.
  repeat split; intros.
  - unfold getTransactions. rewrite (bind_ok _ _ _ _ _ E1).
    destruct (executeSql_fails
                (select_transactions (build_query (default no_filters f))
                   (default 100%Z l) (default 0%Z o)) w1 Hf) as (err & w2 & E2).
    erewrite try_catch_throw by (apply bind_throw, E2). reflexivity.
  - unfold getTransactionSummary. rewrite (bind_ok _ _ _ _ _ E1).
    destruct (executeSql_fails (select_summary s e) w1 Hf) as (err & w2 & E2).
    erewrite try_catch_throw by (apply bind_throw, E2). reflexivity.
  - unfold getCategoryBreakdown. rewrite (bind_ok _ _ _ _ _ E1).
    destruct (executeSql_fails (select_category_breakdown t s e) w1 Hf)
      as (err & w2 & E2).
    erewrite try_catch_throw by (apply bind_throw, E2). reflexivity.
  - unfold getMonthlyTrends. rewrite (bind_ok _ _ _ _ _ E1).
    assert (Hf' : store_fails (set_reads (S (reads w1)) w1)) by exact Hf.
    destruct (executeSql_fails
                (select_monthly_trends
                   (Date_toISOString
                      (Date_subMonths (clock w1 (reads w1)) (default 6%Z m))))
                _ Hf') as (err & w2 & E2).
    erewrite try_catch_throw; [reflexivity|].
    unfold bind at 1, Date_now. apply bind_throw, E2.
  - unfold getSetting. rewrite (bind_ok _ _ _ _ _ E1).
    destruct (executeSql_fails (select_setting_value k) w1 Hf) as (err & w2 & E2).
    erewrite try_catch_throw by (apply bind_throw, E2). reflexivity.
  - unfold setSetting. rewrite (bind_ok _ _ _ _ _ E1).
    assert (Hf' : store_fails (set_reads (S (reads w1)) w1)) by exact Hf.
    destruct (executeSql_fails
                (insert_or_replace_setting
                   {| set_key := k; set_value := v;
                      set_updatedAt := Date_toISOString (clock w1 (reads w1)) |})
                _ Hf') as (err & w2 & E2).
    erewrite try_catch_throw; [reflexivity|].
    unfold new_Date_toISOString, bind at 1, bind at 1, Date_now, ret. exact E2.
Qed.

Lemma addTransaction_rethrows w transaction txn e :
  as_Transaction transaction = Ok txn ->
  fst (executeSql (insert_transaction (row_of txn)) (snd (initialize w))) = Throw e ->
  fst (addTransaction transaction w) = Throw e.
Proof.
  destruct (initialize_completes w) as (w1 & E1). rewrite E1. simpl. intros Ht He.
  unfold addTransaction. rewrite (bind_ok _ _ _ _ _ E1).
  destruct (executeSql _ w1) as [r w2] eqn:E2. simpl in He. subst r.
  erewrite try_catch_throw.
  - reflexivity.
  - unfold bind at 1, lift. rewrite Ht. apply bind_throw, E2.
Qed.

(** The transactions [addTransaction] stores have one of the three types:
    on a working store the table keeps holding only such rows. *)
Lemma addTransaction_known_types w transaction :
  ready w ->
  Forall known_type (transactions (disk w)) ->
  Forall known_type (transactions (disk (snd (addTransaction transaction w)))).
Proof.
  intros Hr Hknown.
  destruct (initialize_ready w Hr) as (w1 & E1 & (Ho & Hf & Hi & Hd) & HT).
  unfold addTransaction. rewrite (bind_ok _ _ _ _ _ E1).
  unfold try_catch, bind at 1, lift.
  rewrite <- HT in Hknown.
  destruct (as_Transaction transaction) as [txn|e]; [|simpl; exact Hknown].
  unfold bind at 1, executeSql, insert_transaction. rewrite Hd, Hf. simpl.
  destruct (created _); simpl; [|exact Hknown].
  destruct (is_nan _); simpl; [exact Hknown|].
  destruct (has_transaction_id _ _); simpl; [exact Hknown|].
  apply Forall_app. split; [exact Hknown|].
  constructor; [|constructor]. exists (txn_type txn). reflexivity.
Qed.

(** C4. Whatever the store does, [initialize], [getTransactions],
    [getTransactionSummary], [getCategoryBreakdown], [getMonthlyTrends],
    [getSetting] and [setSetting] complete without throwing; when the
    store fails they return their safe default (the empty sequence, the
    zero-valued summary, null, nothing); and [addTransaction] throws to
    its caller the error with which its INSERT fails. *)
Theorem error_policy (w : World) :
  (is_Ok (fst (initialize w)) /\
   (forall l o f, is_Ok (fst (getTransactions l o f w))) /\
   (forall s e, is_Ok (fst (getTransactionSummary s e w))) /\
   (forall t s e, is_Ok (fst (getCategoryBreakdown t s e w))) /\
   (forall m, is_Ok (fst (getMonthlyTrends m w))) /\
   (forall k, is_Ok (fst (getSetting k w))) /\
   (forall k v, is_Ok (fst (setSetting k v w)))) /\
  (store_fails (snd (initialize w)) ->
   (forall l o f, fst (getTransactions l o f w) = Ok []) /\
   (forall s e, fst (getTransactionSummary s e w) = Ok zero_summary) /\
   (forall t s e, fst (getCategoryBreakdown t s e w) = Ok []) /\
   (forall m, fst (getMonthlyTrends m w) = Ok []) /\
   (forall k, fst (getSetting k w) = Ok None) /\
   (forall k v, fst (setSetting k v w) = Ok tt)) /\
  (forall transaction txn e,
      as_Transaction transaction = Ok txn ->
      fst (executeSql (insert_transaction (row_of txn)) (snd (initialize w))) = Throw e ->
      fst (addTransaction transaction w) = Throw e).
Proof.
  split; [apply reads_never_throw|].
  split; [apply reads_default_on_failure|].
  intros transaction txn e. apply addTransaction_rethrows.
Qed.
End DatabaseProofs.

(** ** AuthService *)

Import AuthService AuthSpec.

Section AuthProofs.
Context `{Runtime} `{CryptoJS}.

(** C5. When the secure storage reports that no PIN hash is stored,
    [authenticateWithPIN(pin)] returns, for every [pin], the failure whose
    reason is 'No PIN set up', which is not the 'Incorrect PIN' failure,
    and leaves [isAuthenticated] as it was. *)
Theorem authenticateWithPIN_without_PIN (w : World) (pin : string) :
  fst (EncryptedStorage_getItem "userPIN" w) = Ok None ->
  fst (authenticateWithPIN pin w) =
    Ok {| success := false; error := Some "No PIN set up"; requiresPIN := None |} /\
  fst (authenticateWithPIN pin w) <>
    Ok {| success := false; error := Some "Incorrect PIN"; requiresPIN := None |} /\
  isAuthenticated (snd (authenticateWithPIN pin w)) = isAuthenticated w.
Proof.
  intros Hget.
  assert (E : authenticateWithPIN pin w =
              (Ok {| success := false; error := Some "No PIN set up"; requiresPIN := None |},
               snd (EncryptedStorage_getItem "userPIN" w))).
  { unfold authenticateWithPIN, try_catch, bind.
    destruct (EncryptedStorage_getItem "userPIN" w) as [r w1]. simpl in Hget. subst r.
    reflexivity. }
  rewrite E. simpl. repeat split.
  - discriminate.
  - unfold EncryptedStorage_getItem. destruct (secure_faults w) as [|[e|] rest]; reflexivity.
Qed.

(** C10. For every [authMethod] other than 'none' and 'pin' (the reserved
    'biometric' included), [authenticate()] returns success, sets
    [isAuthenticated], sets the last activity to the current time, and
    never consults the secure storage: no credential is checked. *)
Theorem authenticate_without_check (w : World) :
  authMethod w <> "none" -> authMethod w <> "pin" ->
  fst (authenticate w) = Ok {| success := true; error := None; requiresPIN := None |} /\
  isAuthenticated (snd (authenticate w)) = true /\
  lastActivity (snd (authenticate w)) = clock w (reads w) /\
  secure (snd (authenticate w)) = secure w /\
  secure_faults (snd (authenticate w)) = secure_faults w.
Proof.
  intros Hnone Hpin.
  assert (E : authenticate w =
              (Ok {| success := true; error := None; requiresPIN := None |},
               set_lastActivity (clock w (reads w))
                 (set_reads (S (reads w)) (set_isAuthenticated true w)))).
  { unfold authenticate, try_catch, bind at 1, gets.
    apply String.eqb_neq in Hnone, Hpin. rewrite Hnone, Hpin. reflexivity. }
  rewrite E. repeat split.
Qed.

Lemma logout_eq (w : World) :
  logout w =
    (Ok tt, match sessionTimer w with
            | Some _ => set_sessionTimer None (set_isAuthenticated false w)
            | None => set_isAuthenticated false w
            end).
Proof.
  unfold logout, clearSessionTimer, bind, modify, gets. simpl.
  destruct (sessionTimer w); reflexivity.
Qed.

Lemma session_check_eq (w : World) :
  session_check w =
    if isAuthenticated w then
      if (sessionTimeout w <? clock w (reads w) - lastActivity w)%Z
      then logout (set_reads (S (reads w)) w)
      else (Ok tt, set_reads (S (reads w)) w)
    else (Ok tt, w).
Proof.
  unfold session_check, bind at 1, gets. destruct (isAuthenticated w); [|reflexivity].
  unfold bind, Date_now, gets. simpl.
  destruct (_ <? _)%Z; reflexivity.
Qed.

(** C8. The periodic check is registered with a period of 30000 ms and the
    constructor sets the timeout to 5 minutes. A run of the check
    completes; it turns an authenticated session into a logged-out one
    exactly when the user is authenticated and the time since the last
    activity exceeds the session timeout; otherwise it leaves every field
    of the service as it was. *)
Theorem session_check_logs_out_when_expired (w : World) :
  sessionTimer (snd (startSessionTimer w)) = Some 30000%Z /\
  sessionTimeout (snd (constructor w)) = (5 * 60 * 1000)%Z /\
  fst (session_check w) = Ok tt /\
  (isAuthenticated w = true /\ isAuthenticated (snd (session_check w)) = false
   <-> expired w) /\
  (~ expired w ->
   isAuthenticated (snd (session_check w)) = isAuthenticated w /\
   authMethod (snd (session_check w)) = authMethod w /\
   sessionTimeout (snd (session_check w)) = sessionTimeout w /\
   lastActivity (snd (session_check w)) = lastActivity w /\
   sessionTimer (snd (session_check w)) = sessionTimer w).
Proof.
  split; [unfold startSessionTimer, clearSessionTimer, bind, gets, modify;
          destruct (sessionTimer w); reflexivity|].
  split; [reflexivity|].
  rewrite session_check_eq. unfold expired.
  destruct (isAuthenticated w) eqn:Ea.
  - destruct (Z.ltb_spec (sessionTimeout w) (clock w (reads w) - lastActivity w))
      as [Hlt|Hge].
    + rewrite logout_eq. simpl.
      destruct (sessionTimer w); simpl; (split; [reflexivity|]); (split; [tauto|]); tauto.
    + simpl. split; [reflexivity|]. rewrite Ea. split; [|auto].
      split; [intros [_ ?]; discriminate | intros [_ ?]; lia].
  - simpl. rewrite Ea. split; [reflexivity|]. split; [|auto].
    split; intros [? _]; discriminate.
Qed.
(** *** Encryption *)

Lemma generateEncryptionKey_completes (w : World) :
  exists k w1, generateEncryptionKey w = (Ok k, w1).
Proof.
  unfold generateEncryptionKey, try_catch.
  match goal with |- context [match ?b w with _ => _ end] => destruct (b w) as [[k|e] w1] end.
  - eauto.
  - eexists _, _. reflexivity.
Qed.

(** C9. [decryptData] never throws: for every input it returns the value
    parsed from the AES decryption under the stored key when that yields a
    parseable serialization, else the value parsed from the input itself,
    else null. *)
Theorem decryptData_falls_back (w : World) (blob : string) :
  fst (decryptData blob w) =
    Ok (match decrypts w blob with
        | Ok v => v
        | Throw _ => match JSON_parse blob with
                     | Ok v => v
                     | Throw _ => JSON_null
                     end
        end).
Proof.
  unfold decrypts, key_in, decryptData.
  destruct (generateEncryptionKey_completes w) as (k & w1 & E). rewrite E. simpl.
  unfold try_catch, bind at 1. rewrite E.
  unfold bind, lift, ret, console_error.
  destruct (AES_decrypt blob k) as [d|e]; simpl.
  - destruct (Utf8_stringify d) as [text|e]; simpl.
    + destruct (JSON_parse text); simpl; [reflexivity|].
      destruct (JSON_parse blob); reflexivity.
    + destruct (JSON_parse blob); reflexivity.
  - destruct (JSON_parse blob); reflexivity.
Qed.

Lemma generateEncryptionKey_stored (w : World) (k : string) :
  secure_faults w = [] -> secure w !! "encryptionKey" = Some k -> k <> "" ->
  generateEncryptionKey w = (Ok k, set_secure_faults [] w).
Proof.
  intros Hf Hk Hne.
  unfold generateEncryptionKey, try_catch, bind at 1, EncryptedStorage_getItem.
  rewrite Hf, Hk. simpl. apply String.eqb_neq in Hne. rewrite Hne. reflexivity.
Qed.

(** On a working secure storage the key returned is non-empty and is the
    one the storage holds afterwards. *)
Lemma generateEncryptionKey_persists (w : World) :
  secure_faults w = [] -> (forall n, random w n <> "") ->
  exists k w1,
    generateEncryptionKey w = (Ok k, w1) /\ k <> "" /\
    secure w1 !! "encryptionKey" = Some k /\
    secure_faults w1 = [] /\ random w1 = random w.
Proof.
  intros Hf Hrand.
  destruct (secure w !! "encryptionKey") as [k|] eqn:Hk;
    [destruct (String.eqb_spec k "") as [->|Hne]|].
  - exists (random w (draws w)). eexists. split.
    + unfold generateEncryptionKey, try_catch, bind at 1, EncryptedStorage_getItem.
      rewrite Hf, Hk. simpl.
      unfold bind, random_text, EncryptedStorage_setItem, ret. simpl. reflexivity.
    + simpl. rewrite lookup_insert_eq. auto.
  - exists k, (set_secure_faults [] w). split.
    + apply generateEncryptionKey_stored; assumption.
    + simpl. auto.
  - exists (random w (draws w)). eexists. split.
    + unfold generateEncryptionKey, try_catch, bind at 1, EncryptedStorage_getItem.
      rewrite Hf, Hk. simpl.
      unfold bind, random_text, EncryptedStorage_setItem, ret. simpl. reflexivity.
    + simpl. rewrite lookup_insert_eq. auto.
Qed.

(** C3. With a working secure storage and a cipher whose decryption
    inverts its encryption, [encryptData(x)] returns a blob from which
    [decryptData], run next against the same stored key, returns [x], for
    every serializable value [x]. *)
Theorem decrypt_encrypt (w : World) (x : JSON) :
  AES_inverts -> serializable x ->
  secure_faults w = [] -> (forall n, random w n <> "") ->
  exists blob w1,
    encryptData x w = (Ok blob, w1) /\
    fst (decryptData blob w1) = Ok x.
Proof.
  intros Haes Hjson Hf Hrand.
  destruct (generateEncryptionKey_persists w Hf Hrand)
    as (k & w1 & Ek & Hne & Hk & Hf1 & Hr1).
  set (salt := random w1 (draws w1)).
  exists (AES_encrypt (JSON_stringify x) k salt), (set_draws (S (draws w1)) w1).
  split.
  - unfold encryptData, try_catch, bind at 1. rewrite Ek. reflexivity.
  - unfold decryptData, try_catch, bind at 1.
    rewrite (generateEncryptionKey_stored _ k) by assumption.
    destruct (Haes (JSON_stringify x) k salt) as (d & Ed & Eu).
    unfold bind, lift. rewrite Ed, Eu, Hjson. reflexivity.
Qed.
End AuthProofs.

(** ** AuthService: further properties *)

Section AuthSessionProofs.
Context `{Runtime} `{CryptoJS}.
Import AuthService AuthSpec.

Lemma getItem_world key (w : World) v :
  fst (EncryptedStorage_getItem key w) = Ok v ->
  EncryptedStorage_getItem key w = (Ok v, set_secure_faults (tail (secure_faults w)) w).
Proof.
  unfold EncryptedStorage_getItem. destruct (secure_faults w) as [|[e|] rest]; simpl;
    intros E; try discriminate; congruence.
Qed.

Lemma authenticateWithPIN_match (w : World) (pin hash : string) :
  fst (EncryptedStorage_getItem "userPIN" w) = Ok (Some hash) -> hash <> "" ->
  SHA256 pin = hash ->
  authenticateWithPIN pin w =
    (Ok {| success := true; error := None; requiresPIN := None |},
     set_lastActivity (clock w (reads w))
       (set_reads (S (reads w))
          (set_isAuthenticated true (set_secure_faults (tail (secure_faults w)) w)))).
Proof.
  intros Hget Hne Hpin. apply getItem_world in Hget. apply String.eqb_neq in Hne.
  unfold authenticateWithPIN, try_catch, bind at 1. rewrite Hget. simpl.
  rewrite Hne. simpl. rewrite decide_True by congruence. reflexivity.
Qed.

Lemma authenticateWithPIN_mismatch (w : World) (pin hash : string) :
  fst (EncryptedStorage_getItem "userPIN" w) = Ok (Some hash) -> hash <> "" ->
  SHA256 pin <> hash ->
  authenticateWithPIN pin w =
    (Ok {| success := false; error := Some "Incorrect PIN"; requiresPIN := None |},
     set_secure_faults (tail (secure_faults w)) w).
Proof.
  intros Hget Hne Hpin. apply getItem_world in Hget. apply String.eqb_neq in Hne.
  unfold authenticateWithPIN, try_catch, bind at 1. rewrite Hget. simpl.
  rewrite Hne. simpl. rewrite decide_False by congruence. reflexivity.
Qed.

Lemma authenticateWithPIN_none (w : World) (pin : string) :
  fst (EncryptedStorage_getItem "userPIN" w) = Ok None ->
  authenticateWithPIN pin w =
    (Ok {| success := false; error := Some "No PIN set up"; requiresPIN := None |},
     set_secure_faults (tail (secure_faults w)) w).
Proof.
  intros Hget. apply getItem_world in Hget.
  unfold authenticateWithPIN, try_catch, bind at 1. rewrite Hget. reflexivity.
Qed.

Lemma authenticate_pin (w : World) :
  authMethod w = "pin" ->
  authenticate w =
    (Ok {| success := false; error := None; requiresPIN := Some true |}, w).
Proof.
  intros E. unfold authenticate, try_catch, bind at 1, gets. rewrite E. reflexivity.
Qed.

Lemma authenticate_open (w : World) :
  authMethod w <> "pin" ->
  authenticate w =
    (Ok {| success := true; error := None; requiresPIN := None |},
     set_lastActivity (clock w (reads w))
       (set_reads (S (reads w)) (set_isAuthenticated true w))).
Proof.
  intros Hne. unfold authenticate, try_catch, bind at 1, gets.
  apply String.eqb_neq in Hne. rewrite Hne.
  destruct (String.eqb (authMethod w) "none"); reflexivity.
Qed.

(** X1. [authenticateWithPIN] compares the SHA-256 hash of the entered PIN
    with the stored one. When a non-empty hash is stored and the storage
    answers: if the hashes are equal the result is [{ success: true }], the
    session is authenticated and [lastActivity] is the clock reading; if
    they differ the result is [{ success: false, error: 'Incorrect PIN' }]
    and both fields are left as they were. *)
Theorem authenticateWithPIN_checks_hash (w : World) (pin hash : string) :
  fst (EncryptedStorage_getItem "userPIN" w) = Ok (Some hash) -> hash <> "" ->
  (SHA256 pin = hash ->
   fst (authenticateWithPIN pin w) =
     Ok {| success := true; error := None; requiresPIN := None |} /\
   isAuthenticated (snd (authenticateWithPIN pin w)) = true /\
   lastActivity (snd (authenticateWithPIN pin w)) = clock w (reads w)) /\
  (SHA256 pin <> hash ->
   fst (authenticateWithPIN pin w) =
     Ok {| success := false; error := Some "Incorrect PIN"; requiresPIN := None |} /\
   isAuthenticated (snd (authenticateWithPIN pin w)) = isAuthenticated w /\
   lastActivity (snd (authenticateWithPIN pin w)) = lastActivity w).
Proof.
  intros Hget Hne. split; intros Hpin.
  - rewrite (authenticateWithPIN_match w pin hash Hget Hne Hpin). repeat split.
  - rewrite (authenticateWithPIN_mismatch w pin hash Hget Hne Hpin). repeat split.
Qed.

(** X2. When the secure storage rejects the read of the PIN hash,
    [authenticateWithPIN] does not throw: it returns
    [{ success: false, error: <message of the error> }] and neither
    authenticates nor records activity, whatever the PIN. *)
Theorem authenticateWithPIN_storage_failure (w : World) (pin : string) e rest :
  secure_faults w = Some e :: rest ->
  fst (authenticateWithPIN pin w) =
    Ok {| success := false; error := Some e; requiresPIN := None |} /\
  isAuthenticated (snd (authenticateWithPIN pin w)) = isAuthenticated w /\
  lastActivity (snd (authenticateWithPIN pin w)) = lastActivity w.
Proof.
  intros Hf.
  assert (E : authenticateWithPIN pin w =
              (Ok {| success := false; error := Some e; requiresPIN := None |},
               set_secure_faults rest w)).
  { unfold authenticateWithPIN, try_catch, bind at 1, EncryptedStorage_getItem.
    rewrite Hf. reflexivity. }
  rewrite E. repeat split.
Qed.

(** X3. [authenticate()] never opens a PIN-protected app by itself: with
    [authMethod] 'pin' it returns [{ success: false, requiresPIN: true }] and
    changes nothing; with every other method it returns [{ success: true }]
    and authenticates. So the session is authenticated after the call
    exactly when the method is not 'pin' or it was authenticated before. *)
Theorem authenticate_gate (w : World) :
  (authMethod w = "pin" ->
   authenticate w =
     (Ok {| success := false; error := None; requiresPIN := Some true |}, w)) /\
  (authMethod w <> "pin" ->
   fst (authenticate w) = Ok {| success := true; error := None; requiresPIN := None |} /\
   isAuthenticated (snd (authenticate w)) = true) /\
  (isAuthenticated (snd (authenticate w)) = true <->
   authMethod w <> "pin" \/ isAuthenticated w = true).
Proof.
  pose proof (authenticate_pin w) as Hpin.
  pose proof (authenticate_open w) as Hother.
  split; [exact Hpin|]. split.
  - intros Hne. rewrite (Hother Hne). split; reflexivity.
  - destruct (decide (authMethod w = "pin")) as [E|Hne].
    + rewrite (Hpin E). simpl. split; [auto | intros [?|?]; [contradiction | assumption]].
    + rewrite (Hother Hne). simpl. split; auto.
Qed.

Lemma authenticate_timer (w : World) :
  sessionTimer (snd (authenticate w)) = sessionTimer w.
Proof.
  unfold authenticate, try_catch, bind at 1, gets.
  destruct (String.eqb (authMethod w) "none"); [reflexivity|].
  destruct (String.eqb (authMethod w) "pin"); reflexivity.
Qed.

Lemma authenticateWithPIN_timer (w : World) (pin : string) :
  sessionTimer (snd (authenticateWithPIN pin w)) = sessionTimer w.
Proof.
  unfold authenticateWithPIN, try_catch, bind at 1, EncryptedStorage_getItem.
  destruct (secure_faults w) as [|[e|] rest]; simpl; try reflexivity;
    (destruct (truthy (secure w !! "userPIN")); simpl; [|reflexivity];
     destruct (decide _); reflexivity).
Qed.

Lemma logout_timer (w : World) : sessionTimer (snd (logout w)) = None.
Proof. rewrite logout_eq. simpl. destruct (sessionTimer w) eqn:E; simpl; auto. Qed.

(** X4. [logout] clears the interval of the session timer, and neither
    [authenticate] nor [authenticateWithPIN] starts it again: after a
    logout, explicit or by the periodic check on an expired session, a new
    login leaves [sessionTimer] null, so no expiry check is scheduled any
    more for that session. *)
Theorem login_does_not_rearm_timer (w : World) (pin : string) :
  sessionTimer (snd (authenticate (snd (logout w)))) = None /\
  sessionTimer (snd (authenticateWithPIN pin (snd (logout w)))) = None /\
  (expired w ->
   sessionTimer (snd (authenticate (snd (session_check w)))) = None /\
   sessionTimer (snd (authenticateWithPIN pin (snd (session_check w)))) = None).
Proof.
  rewrite authenticate_timer, authenticateWithPIN_timer, logout_timer.
  split; [reflexivity|]. split; [reflexivity|].
  intros [Ha Hlt]. rewrite authenticate_timer, authenticateWithPIN_timer.
  rewrite session_check_eq, Ha.
  apply Z.ltb_lt in Hlt. rewrite Hlt. rewrite logout_timer. auto.
Qed.

(** X5. Recorded activity keeps the session: if the user is authenticated,
    [updateLastActivity()] runs, and the periodic check then reads a clock
    that is at most [sessionTimeout] later, the session stays authenticated
    and the timer is kept. *)
Theorem activity_keeps_session (w : World) :
  isAuthenticated w = true ->
  (clock w (S (reads w)) - clock w (reads w) <= sessionTimeout w)%Z ->
  isAuthenticated (snd (session_check (snd (updateLastActivity w)))) = true /\
  sessionTimer (snd (session_check (snd (updateLastActivity w)))) = sessionTimer w.
Proof.
  intros Ha Hle. rewrite session_check_eq.
  unfold updateLastActivity, bind, Date_now, modify. simpl. rewrite Ha.
  destruct (Z.ltb_spec (sessionTimeout w) (clock w (S (reads w)) - clock w (reads w)));
    [lia|]. simpl. auto.
Qed.

(** X6. On a working secure storage [generateEncryptionKey] is stable: the
    first call stores the key it returns under 'encryptionKey', and a second
    call returns the same key without drawing randomness or writing to the
    storage. *)
Theorem generateEncryptionKey_stable (w : World) :
  secure_faults w = [] -> (forall n, random w n <> "") ->
  exists k w1 w2,
    generateEncryptionKey w = (Ok k, w1) /\
    generateEncryptionKey w1 = (Ok k, w2) /\
    secure w2 = secure w1 /\ draws w2 = draws w1 /\
    secure w1 !! "encryptionKey" = Some k.
Proof.
  intros Hf Hrand.
  destruct (generateEncryptionKey_persists w Hf Hrand)
    as (k & w1 & Ek & Hne & Hk & Hf1 & Hr1).
  exists k, w1, (set_secure_faults [] w1).
  split; [exact Ek|]. split; [apply generateEncryptionKey_stored; assumption|].
  auto.
Qed.

(** X7. While the secure storage rejects its calls, [generateEncryptionKey]
    returns 'default-encryption-key-' followed by [Date.now()] and stores
    nothing; two such calls at different clock readings return different
    keys. *)
Theorem generateEncryptionKey_outage (w : World) e1 e2 rest :
  secure_faults w = Some e1 :: Some e2 :: rest ->
  let r1 := generateEncryptionKey w in
  let r2 := generateEncryptionKey (snd r1) in
  fst r1 = Ok ("default-encryption-key-" +:+ pretty (clock w (reads w))) /\
  fst r2 = Ok ("default-encryption-key-" +:+ pretty (clock w (S (reads w)))) /\
  secure (snd r2) = secure w /\
  (clock w (reads w) <> clock w (S (reads w)) -> fst r1 <> fst r2).
Proof.
  intros Hf.
  assert (E1 : generateEncryptionKey w =
               (Ok ("default-encryption-key-" +:+ pretty (clock w (reads w))),
                set_reads (S (reads w)) (set_secure_faults (Some e2 :: rest) w))).
  { unfold generateEncryptionKey, try_catch, bind at 1, EncryptedStorage_getItem.
    rewrite Hf. reflexivity. }
  assert (E2 : generateEncryptionKey
                 (set_reads (S (reads w)) (set_secure_faults (Some e2 :: rest) w)) =
               (Ok ("default-encryption-key-" +:+ pretty (clock w (S (reads w)))),
                set_reads (S (S (reads w))) (set_secure_faults rest w))).
  { unfold generateEncryptionKey, try_catch, bind at 1, EncryptedStorage_getItem.
    reflexivity. }
  cbv zeta. rewrite E1. cbn [fst snd]. rewrite E2. cbn [fst snd].
  repeat split.
  intros Hclock Heq. injection Heq as Heq.
  apply String.app_inj, (inj pretty) in Heq. contradiction.
Qed.
End AuthSessionProofs.

(** ** DatabaseService: further properties *)

Section DatabaseFurtherProofs.
Context `{Models}.
Import DatabaseService DatabaseSpec SettingsSpec AnalyticsSpec.

Lemma executeSql_keeps_settings {A} (stmt : Stmt A) T :
  (forall s, has_tables s -> exists a s', stmt s = Ok (a, s') /\
                                          settings s' = settings s /\ has_tables s') ->
  returns (working T) (executeSql stmt) (fun _ => working T).
Proof.
  intros Hstmt w (Hd & Hf & HS & Htables).
  destruct (Hstmt (disk w) Htables) as (a & s' & E & Hs & Htables').
  eexists _, _. split; [apply executeSql_run; eassumption|].
  unfold working; simpl.
  split; [assumption|]. split; [reflexivity|]. split; [congruence | exact Htables'].
Qed.

Lemma working_reads T : returns (working T) Date_now (fun _ => working T).
Proof. intros w Hw. eexists _, _. split; [reflexivity | exact Hw]. Qed.

Lemma working_draws T : returns (working T) Math_random_base36 (fun _ => working T).
Proof. intros w Hw. eexists _, _. split; [reflexivity | exact Hw]. Qed.

Lemma working_now T :
  returns (working T) new_Date_toISOString (fun _ => working T).
Proof.
  eapply returns_bind; [apply working_reads|]. intros t. apply returns_ret. auto.
Qed.

Lemma insertDefaultCategories_keeps_settings T :
  returns (working T) insertDefaultCategories (fun _ => working T).
Proof.
  apply returns_try_catch, returns_for_of. intros category _.
  eapply returns_bind; [apply working_reads|]. intros t.
  eapply returns_bind; [apply working_draws|]. intros r.
  eapply returns_bind; [apply working_now|]. intros now. apply executeSql_keeps_settings.
  intros s (Ht & Hb & Hc & Hs). unfold insert_or_ignore_category. rewrite Hc.
  destruct (has_category_id _ _); eexists _, _; repeat split; assumption.
Qed.

Lemma seeding_loop now defaults T :
  returns (working T)
    (for_of defaults (fun setting =>
       executeSql (insert_or_ignore_setting
         {| set_key := fst setting; set_value := snd setting; set_updatedAt := now |})))
    (fun _ => working (seeded now defaults T)).
Proof.
  revert T. induction defaults as [|d defaults IH]; intros T; simpl.
  - apply returns_ret. auto.
  - eapply returns_bind; [|intros ?; apply IH].
    intros w (Hd & Hf & HS & Htables). pose proof Htables as (Ht & Hb & Hc & Hs).
    destruct (has_setting_key (fst d) (disk w)) eqn:Eh.
    + exists tt, (set_disk (disk w) (set_sql_faults [] w)). split.
      * apply executeSql_run; [assumption | assumption |].
        unfold insert_or_ignore_setting. simpl. rewrite Hs, Eh. reflexivity.
      * unfold has_setting_key in Eh. rewrite HS in Eh. rewrite Eh.
        unfold working. simpl. auto.
    + eexists tt, _. split.
      * apply executeSql_run; [assumption | assumption |].
        unfold insert_or_ignore_setting. simpl. rewrite Hs, Eh. reflexivity.
      * unfold has_setting_key in Eh. rewrite HS in Eh. rewrite Eh.
        unfold working. simpl. rewrite HS.
        repeat split; try assumption; reflexivity.
Qed.

Lemma insertDefaultSettings_seeds T :
  returns (working T) insertDefaultSettings
    (fun _ w' => exists now, working (seeded now defaultSettings T) w').
Proof.
  intros w Hw. unfold insertDefaultSettings, try_catch.
  unfold bind at 1, new_Date_toISOString, bind at 1, Date_now, ret.
  destruct (seeding_loop (Date_toISOString (clock w (reads w))) defaultSettings T
              (set_reads (Datatypes.S (reads w)) w)) as (u & w' & E & Hw'); [exact Hw|].
  rewrite E. eauto.
Qed.

Lemma createTables_seeds T :
  returns (fun w => db w = true /\ sql_faults w = [] /\ settings (disk w) = T)
    createTables
    (fun _ w' => exists now, working (seeded now defaultSettings T) w').
Proof.
  intros w Hw. rewrite createTables_split. revert w Hw.
  apply returns_try_catch.
  eapply returns_bind; [|intros ?; eapply returns_bind;
                         [apply insertDefaultCategories_keeps_settings
                         |intros ?; apply insertDefaultSettings_seeds]].
  intros w (Hd & Hf & HS).
  destruct (create_four_run w Hd Hf) as (s' & E & Htables & _ & _ & Hs).
  eexists tt, _. split; [exact E|].
  unfold working; simpl.
  split; [assumption|]. split; [reflexivity|]. split; [congruence | exact Htables].
Qed.

Lemma initialize_seeds (w : World) :
  ready w -> isInitialized w = false ->
  exists now,
    settings (disk (snd (initialize w))) =
      seeded now defaultSettings (settings (disk w)).
Proof.
  intros (Ho & Hf & _) Hi.
  assert (Hw : db (set_db true w) = true /\ sql_faults (set_db true w) = [] /\
               settings (disk (set_db true w)) = settings (disk w))
    by (repeat split; assumption).
  destruct (createTables_seeds _ _ Hw) as ([] & w1 & E1 & now & _ & _ & HT & _).
  exists now. unfold initialize, bind at 1, gets. rewrite Hi.
  unfold try_catch, bind, SQLite_enablePromise, SQLite_openDatabase, modify,
    console_log, ret.
  rewrite Ho, E1. simpl. exact HT.
Qed.

Lemma values_of_app key (l1 l2 : list SettingRow) :
  values_of key (l1 ++ l2) = values_of key l1 ++ values_of key l2.
Proof. unfold values_of. rewrite List.filter_app, map_app. reflexivity. Qed.

Lemma values_of_known key (T : list SettingRow) :
  existsb (fun r => String.eqb (set_key r) key) T = true -> values_of key T <> [].
Proof.
  unfold values_of. induction T as [|r T IH]; simpl; [discriminate|].
  destruct (String.eqb (set_key r) key); simpl; [discriminate | exact IH].
Qed.

Lemma values_of_unknown key (T : list SettingRow) :
  existsb (fun r => String.eqb (set_key r) key) T = false -> values_of key T = [].
Proof.
  unfold values_of. induction T as [|r T IH]; simpl; [reflexivity|].
  destruct (String.eqb (set_key r) key); simpl; [discriminate | exact IH].
Qed.

Lemma head_app_known {A} (l1 l2 l3 : list A) :
  l1 <> [] -> head (l1 ++ l2) = head (l1 ++ l3).
Proof. destruct l1; [contradiction | reflexivity]. Qed.

(** Seeding never changes the first value of a key that has one, and gives
    a key without a row its default. *)
Lemma seeded_head key now defaults (T : list SettingRow) :
  head (values_of key (seeded now defaults T)) =
    head (values_of key T ++ defaults_for key defaults).
Proof.
  revert T. induction defaults as [|d defaults IH]; intros T; simpl.
  - unfold defaults_for. simpl. rewrite app_nil_r. reflexivity.
  - rewrite IH. unfold defaults_for. simpl.
    destruct (existsb _ T) eqn:Eh.
    + destruct (String.eqb_spec (fst d) key) as [<-|Hne]; [|reflexivity].
      apply head_app_known, values_of_known, Eh.
    + rewrite values_of_app. unfold values_of at 2. simpl.
      rewrite <- app_assoc. destruct (String.eqb (fst d) key); reflexivity.
Qed.

(** X8. The first [getSetting] of a new instance on a working store
    initializes the database first, so it answers with the stored value of
    the key when the table has a row for it, else with the default
    [insertDefaultSettings] gives the key, else with null. *)
Theorem getSetting_after_seeding (w : World) (key : string) :
  ready w -> isInitialized w = false ->
  fst (getSetting key w) =
    Ok (head (values_of key (settings (disk w)) ++ default_values key)).
Proof.
  intros Hr Hi.
  destruct (initialize_ready w Hr) as (w1 & E1 & Hh1 & _).
  destruct (initialize_seeds w Hr Hi) as (now & HT). rewrite E1 in HT. cbn [snd] in HT.
  pose proof (getSetting_healthy w1 key Hh1) as E. revert E.
  unfold getSetting. rewrite (bind_ok _ _ _ _ _ (initialize_healthy w1 Hh1)).
  rewrite (bind_ok _ _ _ _ _ E1). intros ->. simpl. f_equal.
  rewrite HT. apply seeded_head.
Qed.

Lemma values_of_others key key' (T : list SettingRow) :
  key <> key' ->
  values_of key' (filter (fun r => set_key r <> key) T) = values_of key' T.
Proof.
  intros Hne. unfold values_of. induction T as [|r T IH]; [reflexivity|].
  rewrite filter_cons. simpl.
  destruct (decide (set_key r <> key)) as [Hr|Hr]; simpl.
  - destruct (String.eqb (set_key r) key'); simpl; congruence.
  - apply dec_stable in Hr. rewrite Hr.
    apply String.eqb_neq in Hne. rewrite Hne. exact IH.
Qed.

(** X9. [setSetting(key, value)] on a working store leaves what
    [getSetting] answers for every other key as it was. *)
Theorem setSetting_other_keys (w : World) (key key' value : string) :
  ready w -> key <> key' ->
  fst (getSetting key' (snd (setSetting key value w))) = fst (getSetting key' w).
Proof.
  intros Hr Hne.
  destruct (initialize_ready w Hr) as (w1 & E1 & Hh1 & _).
  assert (Eg : getSetting key' w = getSetting key' w1).
  { unfold getSetting. rewrite (bind_ok _ _ _ _ _ (initialize_healthy w1 Hh1)).
    rewrite (bind_ok _ _ _ _ _ E1). reflexivity. }
  assert (Es : setSetting key value w = setSetting key value w1).
  { unfold setSetting. rewrite (bind_ok _ _ _ _ _ (initialize_healthy w1 Hh1)).
    rewrite (bind_ok _ _ _ _ _ E1). reflexivity. }
  rewrite Es, Eg.
  destruct (created (settings_table (disk w1))) eqn:Etable.
  - destruct (setSetting_healthy w1 key value Hh1 Etable) as (w2 & E2 & Hh2 & Hs2 & _).
    rewrite E2. simpl.
    rewrite (getSetting_healthy w2 key' Hh2), (getSetting_healthy w1 key' Hh1). simpl.
    f_equal. f_equal. fold (values_of key' (settings (disk w2))).
    fold (values_of key' (settings (disk w1))).
    rewrite Hs2, values_of_app, values_of_others by exact Hne.
    unfold values_of at 2. simpl.
    apply String.eqb_neq in Hne. rewrite Hne. simpl. apply app_nil_r.
  - destruct (setSetting_no_table w1 key value Hh1 Etable) as (w2 & E2 & Hh2 & Hdisk).
    rewrite E2. simpl.
    rewrite (getSetting_healthy w2 key' Hh2), (getSetting_healthy w1 key' Hh1). simpl.
    rewrite Hdisk. reflexivity.
Qed.

(** *** Adding transactions *)

Lemma finite_not_nan x : is_finite x = true -> is_nan x = false.
Proof. unfold is_finite. destruct (is_nan x); [discriminate | reflexivity]. Qed.

Lemma addTransaction_healthy (w : World) transaction txn :
  healthy w -> created (transactions_table (disk w)) = true ->
  as_Transaction transaction = Ok txn -> is_finite (txn_amount txn) = true ->
  addTransaction transaction w =
    if has_transaction_id (txn_id txn) (disk w)
    then (Throw "UNIQUE constraint failed: transactions.id", set_sql_faults [] w)
    else (Ok txn, set_disk (with_transactions (transactions (disk w) ++ [row_of txn])
                              (disk w)) (set_sql_faults [] w)).
Proof.
  intros Hh Htable Ht Hfin. pose proof Hh as (Ho & Hf & Hi & Hd).
  unfold addTransaction. rewrite (bind_ok _ _ _ _ _ (initialize_healthy w Hh)).
  unfold try_catch, bind at 1, lift. rewrite Ht.
  unfold bind at 1, executeSql, insert_transaction. rewrite Hd, Hf. simpl.
  rewrite Htable, (finite_not_nan _ Hfin).
  destruct (has_transaction_id _ _); reflexivity.
Qed.

Lemma addTransaction_operational (w : World) transaction :
  operational w ->
  exists w1, healthy w1 /\ has_tables (disk w1) /\
             transactions (disk w1) = transactions (disk w) /\
             addTransaction transaction w = addTransaction transaction w1.
Proof.
  intros Hop. destruct (initialize_operational w Hop) as (w1 & E1 & Hh1 & Htables & HT).
  exists w1. split; [exact Hh1|]. split; [exact Htables|]. split; [exact HT|].
  unfold addTransaction. rewrite (bind_ok _ _ _ _ _ (initialize_healthy w1 Hh1)).
  rewrite (bind_ok _ _ _ _ _ E1). reflexivity.
Qed.


Lemma where_nothing rows : List.filter (where_ (build_query no_filters)) rows = rows.
Proof. induction rows as [|r rows IH]; simpl; [reflexivity | f_equal; exact IH]. Qed.

Lemma limit_offset_all {A} (l : Z) (rows : list A) :
  (Z.of_nat (length rows) <= l)%Z -> limit_offset l 0 rows = rows.
Proof.
  intros Hl. unfold limit_offset. simpl.
  destruct (Z.ltb_spec l 0); [lia|]. apply firstn_all2. lia.
Qed.

Lemma deserializes_fun r t t' : deserializes r t -> deserializes r t' -> t = t'.
Proof.
  intros (a & b & E1 & E2 & E3) (a' & b' & E1' & E2' & E3'). congruence.
Qed.

(** X11. A transaction with a finite amount added with a new id to a
    working, readable store of fewer than [limit] rows, [limit] a 64-bit
    integer, is listed by the next [getTransactions(limit)]: the result
    holds the transaction as deserialized from its row and has one entry
    more than the table had. *)
Theorem added_transaction_is_listed (w : World) transaction txn t (limit : Z) :
  operational w -> as_Transaction transaction = Ok txn ->
  is_finite (txn_amount txn) = true ->
  has_transaction_id (txn_id txn) (disk w) = false ->
  Forall readable (transactions (disk w)) -> deserializes (row_of txn) t ->
  (Z.of_nat (length (transactions (disk w))) < limit)%Z -> int64 limit = true ->
  exists ts,
    fst (getTransactions (Some limit) None None (snd (addTransaction transaction w)))
      = Ok ts /\
    t ∈ ts /\ length ts = S (length (transactions (disk w))).
Proof.
  intros Hop Ht Hfin Hnew Hrows Hrow Hlim Hint.
  destruct (addTransaction_operational w transaction Hop)
    as (w1 & Hh1 & (Htable & _) & HT & ->).
  rewrite (addTransaction_healthy w1 transaction txn Hh1 Htable Ht Hfin).
  unfold has_transaction_id in *. rewrite HT, Hnew. cbn [snd].
  set (w2 := set_disk _ _).
  assert (Hh2 : healthy w2) by (destruct Hh1 as (? & ? & ? & ?); repeat split; assumption).
  rewrite (getTransactions_healthy w2 _ _ _ Hh2)
    by (simpl; rewrite Hint; reflexivity).
  cbn [default]. rewrite where_nothing.
  assert (HT2 : transactions (disk w2) = transactions (disk w) ++ [row_of txn])
    by reflexivity.
  rewrite HT2.
  set (sorted := order_by_date_desc _).
  assert (Hperm : sorted ≡ₚ transactions (disk w) ++ [row_of txn])
    by apply order_by_date_desc_perm.
  rewrite limit_offset_all
    by (rewrite Hperm, length_app; simpl; lia).
  assert (Hall : Forall readable sorted).
  { rewrite Hperm. apply Forall_app. split; [exact Hrows|].
    constructor; [exists t; exact Hrow | constructor]. }
  destruct (read_rows sorted [] w2 Hall) as (ts & Ets & Hts).
  exists ts. unfold try_catch. rewrite Ets. simpl. split; [reflexivity|]. split.
  - assert (Hin : row_of txn ∈ sorted) by (rewrite Hperm; set_solver).
    apply list_elem_of_lookup in Hin as (i & Hi).
    destruct (Forall2_lookup_l _ _ _ _ _ Hts Hi) as (t' & Hi' & Ht').
    rewrite (deserializes_fun _ _ _ Hrow Ht'). eapply list_elem_of_lookup_2, Hi'.
  - rewrite <- (Forall2_length _ _ _ Hts), Hperm, length_app. simpl. lia.
Qed.

(** *** A failed open *)

(** X12. A failed open is final for the instance: when [openDatabase]
    rejects, [initialize] still sets [isInitialized] and leaves no handle, so
    it never tries again; on such an instance [getTransactions] returns [[]],
    [getTransactionSummary] the zero summary, [getSetting] null,
    [setSetting] writes nothing, and [addTransaction] throws the TypeError
    of the call on the null handle. *)
Theorem failed_open_is_final (w : World) (e : Error) :
  isInitialized w = false -> db w = false -> open_error w = Some e ->
  (isInitialized (snd (initialize w)) = true /\ db (snd (initialize w)) = false) /\
  (forall w', isInitialized w' = true -> db w' = false ->
     (forall l o f, getTransactions l o f w' = (Ok [], w')) /\
     (forall s e', getTransactionSummary s e' w' = (Ok zero_summary, w')) /\
     (forall k, getSetting k w' = (Ok None, w')) /\
     (forall k v, disk (snd (setSetting k v w')) = disk w') /\
     (forall transaction txn, as_Transaction transaction = Ok txn ->
        addTransaction transaction w' =
          (Throw "TypeError: Cannot read property 'executeSql' of null", w'))).
Proof.
  intros Hi Hd Ho. split.
  - assert (E : initialize w = (Ok tt, set_isInitialized true w)).
    { unfold initialize, bind at 1, gets. rewrite Hi.
      unfold try_catch, bind at 1, SQLite_enablePromise, ret.
      unfold bind at 1, SQLite_openDatabase. rewrite Ho. reflexivity. }
    rewrite E. simpl. auto.
  - intros w' Hi' Hd'.
    assert (Einit : initialize w' = (Ok tt, w'))
      by (unfold initialize, bind, gets; rewrite Hi'; reflexivity).
    repeat split; intros.
    + unfold getTransactions. rewrite (bind_ok _ _ _ _ _ Einit).
      unfold try_catch, bind at 1, executeSql. rewrite Hd'. reflexivity.
    + unfold getTransactionSummary. rewrite (bind_ok _ _ _ _ _ Einit).
      unfold try_catch, bind at 1, executeSql. rewrite Hd'. reflexivity.
    + unfold getSetting. rewrite (bind_ok _ _ _ _ _ Einit).
      unfold try_catch, bind at 1, executeSql. rewrite Hd'. reflexivity.
    + unfold setSetting. rewrite (bind_ok _ _ _ _ _ Einit).
      unfold try_catch, new_Date_toISOString, bind, Date_now, ret, executeSql.
      simpl. rewrite Hd'. reflexivity.
    + unfold addTransaction. rewrite (bind_ok _ _ _ _ _ Einit).
      unfold try_catch, bind at 1, lift.
      match goal with Ht : as_Transaction _ = _ |- _ => rewrite Ht end.
      unfold bind at 1, executeSql. rewrite Hd'. reflexivity.
Qed.

(** *** Breakdown by category, trends by month *)


Lemma filter_bool_prop {A} (f : A -> bool) (P : A -> Prop) `{forall x, Decision (P x)}
    (l : list A) :
  (forall x, f x = true <-> P x) -> List.filter f l = filter P l.
Proof.
  intros Hf. induction l as [|x l IH]; [reflexivity|].
  simpl. rewrite filter_cons. destruct (f x) eqn:E.
  - rewrite decide_True by (apply Hf, E). f_equal. exact IH.
  - rewrite decide_False; [exact IH|]. intros HP. apply Hf in HP. congruence.
Qed.










Lemma opt_text_le_trans a b c : opt_text_le a b -> opt_text_le b c -> opt_text_le a c.
Proof.
  destruct a, b, c; simpl; try tauto. apply text_le_trans.
Qed.

#[local] Instance month_desc_trans : Transitive month_desc.
Proof. intros a b c Hab Hbc. unfold month_desc in *. eapply opt_text_le_trans; eauto. Qed.

#[local] Instance month_desc_total : Total month_desc.
Proof.
  intros a b. unfold month_desc.
  destruct (tr_month a), (tr_month b); simpl; auto. apply text_le_total.
Qed.



End DatabaseFurtherProofs.

(** ** Reading transactions back *)

Section ReadingProofs.
Context `{Models}.
Import DatabaseService DatabaseSpec.

Lemma read_row_world acc r (w : World) : snd (read_row acc r w) = w.
Proof.
  unfold read_row, bind, lift, ret.
  destruct (JSON_parse _); [|reflexivity].
  destruct (JSON_parse _); [|reflexivity].
  destruct (Transaction_fromJSON _); reflexivity.
Qed.

(** Each row read adds one transaction. *)
Lemma read_rows_length rows acc (w : World) ts w' :
  for_rows rows read_row acc w = (Ok ts, w') ->
  length ts = (length acc + length rows)%nat.
Proof.
  revert acc w. induction rows as [|r rows IH]; intros acc w.
  - simpl. unfold ret. intros [= <- _]. lia.
  - simpl. unfold bind at 1.
    destruct (read_row acc r w) as [[acc'|e] w1] eqn:E; [|discriminate].
    intros Hrest. apply IH in Hrest. rewrite Hrest.
    revert E. unfold read_row, bind, lift, ret.
    destruct (JSON_parse _); [|discriminate].
    destruct (JSON_parse _); [|discriminate].
    destruct (Transaction_fromJSON _); [|discriminate].
    intros [= <- _]. rewrite length_app. simpl. lia.
Qed.

(** The loop stops at a row whose tags are not JSON. *)
Lemma read_rows_unreadable rows r acc (w : World) e :
  r ∈ rows ->
  JSON_parse (or_text (row_tags r) "[]") = Throw e ->
  exists e' w', for_rows rows read_row acc w = (Throw e', w').
Proof.
  intros Hr Hbad. revert acc. induction rows as [|r0 rows IH]; intros acc.
  - apply elem_of_nil in Hr as [].
  - simpl. unfold bind at 1.
    destruct (read_row acc r0 w) as [[acc'|e0] w1] eqn:E; [|eauto].
    pose proof (read_row_world acc r0 w) as Hw. rewrite E in Hw. cbn [snd] in Hw. subst w1.
    apply elem_of_cons in Hr as [->|Hr]; [|apply IH, Hr].
    revert E. unfold read_row, bind at 1, lift. rewrite Hbad. discriminate.
Qed.

Lemma limit_offset_length {A} (l o : Z) (rows : list A) :
  (0 <= l)%Z -> (length (limit_offset l o rows) <= Z.to_nat l)%nat.
Proof.
  intros Hl. unfold limit_offset.
  destruct (l <? 0)%Z eqn:E; [apply Z.ltb_lt in E; lia|].
  rewrite length_take. lia.
Qed.

Lemma executeSql_select_length conds l o (w : World) rows w' :
  (0 <= l)%Z ->
  executeSql (select_transactions conds l o) w = (Ok rows, w') ->
  (length rows <= Z.to_nat l)%nat.
Proof.
  intros Hl. unfold executeSql, select_transactions.
  destruct (db w); [|discriminate].
  destruct (sql_faults w) as [|[e|] rest]; try discriminate;
    (destruct (created _); [|discriminate]);
    (destruct (int64 l && int64 o); [|discriminate]);
    intros [= <- _]; apply limit_offset_length, Hl.
Qed.

Lemma getTransactions_page (w : World) limit offset filters r w' :
  (0 <= default 100%Z limit)%Z ->
  getTransactions limit offset filters w = (r, w') ->
  exists ts, r = Ok ts /\ (length ts <= Z.to_nat (default 100%Z limit))%nat.
Proof.
  intros Hl. unfold getTransactions.
  destruct (initialize_completes w) as (w1 & E1). rewrite (bind_ok _ _ _ _ _ E1).
  unfold try_catch, bind at 1.
  destruct (executeSql _ w1) as [[rows|e] w2] eqn:E2.
  - apply executeSql_select_length in E2; [|exact Hl].
    destruct (for_rows rows read_row [] w2) as [[ts|e] w3] eqn:E3.
    + intros [= <- _]. exists ts. split; [reflexivity|].
      apply read_rows_length in E3. simpl in E3. lia.
    + intros [= <- _]. exists []. split; [reflexivity | simpl; lia].
  - intros [= <- _]. exists []. split; [reflexivity | simpl; lia].
Qed.

Lemma getTransactions_initialized (w w1 : World) limit offset filters :
  initialize w = (Ok tt, w1) -> healthy w1 ->
  getTransactions limit offset filters w = getTransactions limit offset filters w1.
Proof.
  intros E1 Hh1. unfold getTransactions.
  rewrite (bind_ok _ _ _ _ _ (initialize_healthy w1 Hh1)).
  rewrite (bind_ok _ _ _ _ _ E1). reflexivity.
Qed.

(** [getTransactions] on a working store whose rows are readable, for a
    limit and an offset that are 64-bit integers *)
Lemma getTransactions_ready (w : World) limit offset filters :
  ready w -> Forall readable (transactions (disk w)) ->
  int64 (default 100%Z limit) && int64 (default 0%Z offset) = true ->
  exists ts w1,
    getTransactions limit offset filters w = (Ok ts, w1) /\ healthy w1 /\
    Forall2 deserializes
      (limit_offset (default 100%Z limit) (default 0%Z offset)
         (order_by_date_desc
            (List.filter (satisfies truthy (default no_filters filters))
                         (transactions (disk w))))) ts.
Proof.
  intros Hr Hrows Hint.
  destruct (initialize_ready w Hr) as (w1 & E1 & Hh1 & HT).
  set (page := limit_offset _ _ _).
  assert (Hpage : Forall readable page).
  { apply Forall_forall. intros r Hin.
    apply limit_offset_subseteq in Hin.
    rewrite order_by_date_desc_perm in Hin.
    apply list_elem_of_In, filter_In in Hin as [Hin _].
    rewrite Forall_forall in Hrows. apply Hrows, list_elem_of_In, Hin. }
  destruct (read_rows page [] w1 Hpage) as (ts & Ets & Hts).
  exists ts, w1. split; [|split; [exact Hh1 | exact Hts]].
  rewrite (getTransactions_initialized w w1 _ _ _ E1 Hh1).
  rewrite (getTransactions_healthy w1 limit offset filters Hh1 Hint).
  rewrite HT, (List.filter_ext _ _ (build_query_satisfies _)).
  fold page. unfold try_catch. rewrite Ets. reflexivity.
Qed.

(** X15. One unreadable row hides the page: on a working store, when a row
    of the page the engine selects (the matching rows in its order by date
    descending, cut by limit and offset) has tags that [JSON.parse]
    rejects, the error is caught around the whole loop and
    [getTransactions] returns [[]], not the readable rows. *)
Theorem getTransactions_unreadable_row (w : World) limit offset filters r e :
  ready w ->
  r ∈ limit_offset (default 100%Z limit) (default 0%Z offset)
        (order_by_date_desc
           (List.filter (satisfies truthy (default no_filters filters))
                        (transactions (disk w)))) ->
  JSON_parse (or_text (row_tags r) "[]") = Throw e ->
  fst (getTransactions limit offset filters w) = Ok [].
Proof.
  intros Hr Hin Hbad.
  destruct (int64 (default 100%Z limit) && int64 (default 0%Z offset)) eqn:Hint;
    [|apply getTransactions_mismatch, Hint].
  destruct (initialize_ready w Hr) as (w1 & E1 & Hh1 & HT).
  rewrite (getTransactions_initialized w w1 _ _ _ E1 Hh1).
  rewrite (getTransactions_healthy w1 _ _ _ Hh1 Hint), HT.
  erewrite (filter_ext _ (satisfies truthy _)) by (intros; apply build_query_satisfies).
  destruct (read_rows_unreadable _ r [] w1 e Hin Hbad) as (e' & w' & E).
  unfold try_catch. rewrite E. reflexivity.
Qed.
End ReadingProofs.

(** ** The two services together *)

Section AppProofs.
Context `{Models} `{CryptoJS} `{Numbers}.
Import SettingsSpec AnalyticsSpec App.

Lemma in_database_run {A} (m : M DatabaseService.World A) (w : World) r d :
  m (database w) = (r, d) ->
  in_database m w = (r, {| database := d; auth := auth w |}).
Proof. intros E. unfold in_database. rewrite E. reflexivity. Qed.

Lemma in_auth_run {A} (m : M AuthService.World A) (w : World) r a :
  m (auth w) = (r, a) ->
  in_auth m w = (r, {| database := database w; auth := a |}).
Proof. intros E. unfold in_auth. rewrite E. reflexivity. Qed.

Lemma setSetting_completes (d : DatabaseService.World) key value :
  exists d', DatabaseService.setSetting key value d = (Ok tt, d').
Proof.
  destruct (reads_never_throw d) as (_ & _ & _ & _ & _ & _ & Hset).
  specialize (Hset key value).
  destruct (DatabaseService.setSetting key value d) as [[[]|e] d'];
    [eauto | contradiction].
Qed.

Lemma getSetting_completes (d : DatabaseService.World) key :
  exists v d', DatabaseService.getSetting key d = (Ok v, d').
Proof.
  destruct (reads_never_throw d) as (_ & _ & _ & _ & _ & Hget & _).
  specialize (Hget key).
  destruct (DatabaseService.getSetting key d) as [[v|e] d'];
    [eauto | contradiction].
Qed.

(** What [setupPIN] does when the secure storage accepts the write *)
Lemma setupPIN_run (w : World) (pin : string) :
  AuthService.secure_faults (auth w) = [] ->
  setupPIN pin w =
    (Ok {| AuthService.success := true; AuthService.error := None;
           AuthService.requiresPIN := None |},
     {| database := snd (DatabaseService.setSetting "authMethod" "pin" (database w));
        auth := AuthService.set_authMethod "pin"
                  (AuthService.set_secure
                     (<["userPIN" := SHA256 pin]> (AuthService.secure (auth w)))
                     (AuthService.set_secure_faults [] (auth w))) |}).
Proof.
  intros Hf. destruct (setSetting_completes (database w) "authMethod" "pin") as (d' & Ed).
  rewrite Ed. unfold setupPIN, try_catch.
  unfold bind at 1.
  erewrite in_auth_run
    by (unfold AuthService.EncryptedStorage_setItem; rewrite Hf; reflexivity).
  unfold bind at 1. erewrite in_database_run by (simpl; exact Ed).
  reflexivity.
Qed.

Lemma constructed_fields (a : AuthService.World) :
  AuthService.constructor a = (Ok tt, constructed a) /\
  AuthService.isAuthenticated (constructed a) = false /\
  AuthService.authMethod (constructed a) = "none" /\
  AuthService.sessionTimeout (constructed a) = 300000%Z /\
  AuthService.sessionTimer (constructed a) = None /\
  AuthService.secure (constructed a) = AuthService.secure a /\
  AuthService.secure_faults (constructed a) = AuthService.secure_faults a.
Proof. repeat split. Qed.

(** What a restart does, given what the settings table answers *)
Lemma restart_run (w : World) v d :
  DatabaseService.getSetting "authMethod" (DatabaseService.constructor (database w))
    = (Ok v, d) ->
  restart w =
    (Ok tt,
     {| database := d;
        auth := AuthService.set_sessionTimer (Some 30000%Z)
                  (AuthService.set_authMethod (or_text v "none") (constructed (auth w))) |}).
Proof.
  intros Eg.
  unfold restart, initialize, try_catch, bind, modify, in_auth, in_database.
  cbn [database auth]. rewrite (proj1 (constructed_fields (auth w))).
  cbn [database auth fst snd]. rewrite Eg. reflexivity.
Qed.

(** X16. After [setupPIN(pin)] on a working secure storage, whatever the
    state of the database, the result is [{ success: true }], [authMethod]
    is 'pin', [authenticateWithPIN(pin)] succeeds and authenticates, and a
    PIN with a different hash is answered 'Incorrect PIN' without
    authenticating. (The hash of the PIN is not the empty text.) *)
Theorem setupPIN_then_authenticateWithPIN (w : World) (pin : string) :
  AuthService.secure_faults (auth w) = [] -> SHA256 pin <> "" ->
  let w1 := snd (setupPIN pin w) in
  fst (setupPIN pin w) =
    Ok {| AuthService.success := true; AuthService.error := None;
          AuthService.requiresPIN := None |} /\
  AuthService.authMethod (auth w1) = "pin" /\
  fst (AuthService.authenticateWithPIN pin (auth w1)) =
    Ok {| AuthService.success := true; AuthService.error := None;
          AuthService.requiresPIN := None |} /\
  AuthService.isAuthenticated (snd (AuthService.authenticateWithPIN pin (auth w1))) = true /\
  (forall pin', SHA256 pin' <> SHA256 pin ->
     fst (AuthService.authenticateWithPIN pin' (auth w1)) =
       Ok {| AuthService.success := false; AuthService.error := Some "Incorrect PIN";
             AuthService.requiresPIN := None |} /\
     AuthService.isAuthenticated (snd (AuthService.authenticateWithPIN pin' (auth w1))) =
       AuthService.isAuthenticated (auth w)).
Proof.
  intros Hf Hne. cbv zeta. rewrite (setupPIN_run w pin Hf). cbn [fst snd auth].
  set (a1 := AuthService.set_authMethod _ _).
  assert (Hget : fst (AuthService.EncryptedStorage_getItem "userPIN" a1) =
                 Ok (Some (SHA256 pin))).
  { unfold a1, AuthService.EncryptedStorage_getItem. simpl.
    rewrite lookup_insert_eq. reflexivity. }
  split; [reflexivity|]. split; [reflexivity|].
  rewrite (authenticateWithPIN_match a1 pin _ Hget Hne eq_refl).
  split; [reflexivity|]. split; [reflexivity|].
  intros pin' Hpin'.
  rewrite (authenticateWithPIN_mismatch a1 pin' _ Hget Hne Hpin').
  split; reflexivity.
Qed.

Lemma values_of_replaced key value now (old : list SettingRow) :
  values_of key
    (filter (fun r => set_key r <> key) old
     ++ [{| set_key := key; set_value := value; set_updatedAt := now |}]) = [value].
Proof. unfold values_of. rewrite others_then_row by reflexivity. reflexivity. Qed.

(** [setSetting] on a working store that has its tables leaves exactly the
    new value under the key. *)
Lemma setSetting_operational (d : DatabaseService.World) key value :
  DatabaseSpec.operational d ->
  exists d1,
    DatabaseService.setSetting key value d = (Ok tt, d1) /\
    DatabaseSpec.healthy d1 /\ DatabaseSpec.has_tables (DatabaseService.disk d1) /\
    values_of key (settings (DatabaseService.disk d1)) = [value].
Proof.
  intros Hop.
  destruct (initialize_operational d Hop) as (d0 & E0 & Hh0 & Ht0 & _).
  destruct (setSetting_healthy d0 key value Hh0 (proj2 (proj2 (proj2 Ht0))))
    as (d1 & E1 & Hh1 & Hs1 & _ & Ht1 & _).
  exists d1. split; [|split; [exact Hh1|split; [exact (Ht1 Ht0)|]]].
  - revert E1. unfold DatabaseService.setSetting.
    rewrite (bind_ok _ _ _ _ _ (initialize_healthy d0 Hh0)).
    rewrite (bind_ok _ _ _ _ _ E0). auto.
  - rewrite Hs1. apply values_of_replaced.
Qed.

(** After a [setSetting] on a working store that has its tables, a new
    instance reads the value back. *)
Lemma setSetting_then_new_instance (d : DatabaseService.World) key value :
  DatabaseSpec.operational d ->
  fst (DatabaseService.getSetting key
         (DatabaseService.constructor (snd (DatabaseService.setSetting key value d))))
    = Ok (Some value).
Proof.
  intros Hop.
  destruct (setSetting_operational d key value Hop) as (d1 & Es & Hh1 & _ & Hs1).
  rewrite Es. cbn [snd].
  set (d2 := DatabaseService.constructor d1).
  assert (Hr2 : DatabaseSpec.ready d2).
  { destruct Hh1 as (Ho & Hf & _ & _). unfold d2. repeat split; try assumption.
    simpl. discriminate. }
  destruct (initialize_ready d2 Hr2) as (d3 & E3 & Hh3 & _).
  destruct (initialize_seeds d2 Hr2 eq_refl) as (now & HT).
  rewrite E3 in HT. cbn [snd] in HT.
  pose proof (getSetting_healthy d3 key Hh3) as E. revert E.
  unfold DatabaseService.getSetting.
  rewrite (bind_ok _ _ _ _ _ (initialize_healthy d3 Hh3)).
  rewrite (bind_ok _ _ _ _ _ E3). intros ->. simpl. f_equal.
  fold (values_of key (settings (DatabaseService.disk d3))).
  rewrite HT, seeded_head. unfold d2.
  change (DatabaseService.disk (DatabaseService.constructor d1))
    with (DatabaseService.disk d1).
  rewrite Hs1. reflexivity.
Qed.

(** X17. A PIN set up on a working database that has its tables (an
    initialized service did create them) and a working secure storage
    survives a restart of the app: after new instances of both services
    are constructed and [AuthService.initialize()] has run, [authMethod] is
    'pin' again, the session timer runs, nobody is authenticated, and
    [authenticate()] answers [{ success: false, requiresPIN: true }]. *)
Theorem PIN_gate_survives_restart (w : World) (pin : string) :
  DatabaseSpec.operational (database w) -> AuthService.secure_faults (auth w) = [] ->
  let w2 := snd (restart (snd (setupPIN pin w))) in
  AuthService.authMethod (auth w2) = "pin" /\
  AuthService.sessionTimer (auth w2) = Some 30000%Z /\
  AuthService.isAuthenticated (auth w2) = false /\
  AuthService.authenticate (auth w2) =
    (Ok {| AuthService.success := false; AuthService.error := None;
           AuthService.requiresPIN := Some true |}, auth w2).
Proof.
  intros Hr Hf. cbv zeta. rewrite (setupPIN_run w pin Hf). cbn [snd].
  pose proof (setSetting_then_new_instance (database w) "authMethod" "pin" Hr) as Hv.
  set (w1 := {| database := _; auth := _ |}).
  destruct (DatabaseService.getSetting "authMethod"
              (DatabaseService.constructor (database w1))) as [v d] eqn:Eg.
  unfold w1 in Eg at 1. cbn [database] in Eg. rewrite Eg in Hv. cbn [fst] in Hv. subst v.
  rewrite (restart_run w1 (Some "pin") d Eg). cbn [snd auth].
  split; [reflexivity|]. split; [reflexivity|]. split; [reflexivity|].
  apply authenticate_pin. reflexivity.
Qed.

Lemma initialize_down e (d : DatabaseService.World) :
  down e d ->
  exists d', DatabaseService.initialize d = (Ok tt, d') /\ down e d' /\
             DatabaseService.disk d' = DatabaseService.disk d.
Proof.
  intros (Hd & Ho). unfold DatabaseService.initialize, bind at 1, gets.
  destruct (DatabaseService.isInitialized d).
  - exists d. repeat split; assumption.
  - exists (DatabaseService.set_isInitialized true d).
    unfold try_catch, bind at 1, DatabaseService.SQLite_enablePromise, ret.
    unfold bind at 1, DatabaseService.SQLite_openDatabase. rewrite Ho.
    repeat split; assumption.
Qed.

Lemma getSetting_down e (d : DatabaseService.World) key :
  down e d ->
  exists d', DatabaseService.getSetting key d = (Ok None, d') /\ down e d' /\
             DatabaseService.disk d' = DatabaseService.disk d.
Proof.
  intros Hdown. destruct (initialize_down e d Hdown) as (d' & E & Hdown' & Hdisk).
  exists d'. unfold DatabaseService.getSetting. rewrite (bind_ok _ _ _ _ _ E).
  unfold try_catch, bind at 1, DatabaseService.executeSql.
  rewrite (proj1 Hdown'). auto.
Qed.

Lemma setSetting_down e (d : DatabaseService.World) key value :
  down e d ->
  down e (snd (DatabaseService.setSetting key value d)) /\
  DatabaseService.disk (snd (DatabaseService.setSetting key value d)) =
    DatabaseService.disk d.
Proof.
  intros Hdown. destruct (initialize_down e d Hdown) as (d' & E & Hdown' & Hdisk).
  unfold DatabaseService.setSetting. rewrite (bind_ok _ _ _ _ _ E).
  unfold try_catch, DatabaseService.new_Date_toISOString, bind, DatabaseService.Date_now,
    ret, DatabaseService.executeSql.
  simpl. rewrite (proj1 Hdown'). simpl. destruct Hdown'. split; [split|]; assumption.
Qed.

(** X18. When the database cannot be opened, [setupPIN] still reports
    success and sets the method for the running instance, but the method is
    not saved, because [setSetting] swallows the error: after a restart the
    PIN hash is still in the secure storage, [authMethod] is 'none', and
    [authenticate()] lets the user in without a PIN. *)
Theorem PIN_gate_lost_without_database (w : World) (pin : string) (e : Error) :
  down e (database w) -> AuthService.secure_faults (auth w) = [] ->
  let w1 := snd (setupPIN pin w) in
  let w2 := snd (restart w1) in
  fst (setupPIN pin w) =
    Ok {| AuthService.success := true; AuthService.error := None;
          AuthService.requiresPIN := None |} /\
  AuthService.authMethod (auth w1) = "pin" /\
  DatabaseService.disk (database w1) = DatabaseService.disk (database w) /\
  AuthService.secure (auth w2) !! "userPIN" = Some (SHA256 pin) /\
  AuthService.authMethod (auth w2) = "none" /\
  fst (AuthService.authenticate (auth w2)) =
    Ok {| AuthService.success := true; AuthService.error := None;
          AuthService.requiresPIN := None |} /\
  AuthService.isAuthenticated (snd (AuthService.authenticate (auth w2))) = true.
Proof.
  intros Hdown Hf. cbv zeta. rewrite (setupPIN_run w pin Hf). cbn [fst snd].
  destruct (setSetting_down e (database w) "authMethod" "pin" Hdown) as (Hdown1 & Hdisk1).
  set (w1 := {| database := _; auth := _ |}).
  assert (Hdown2 : down e (DatabaseService.constructor (database w1))).
  { destruct Hdown1. split; [reflexivity | assumption]. }
  destruct (getSetting_down e _ "authMethod" Hdown2) as (d & Eg & _ & _).
  rewrite (restart_run w1 None d Eg). cbn [snd auth database].
  split; [reflexivity|]. split; [reflexivity|]. split; [exact Hdisk1|].
  split; [simpl; apply lookup_insert_eq|]. split; [reflexivity|].
  rewrite authenticate_open by (simpl; discriminate). split; reflexivity.
Qed.

Lemma getItem_readable (a : AuthService.World) key :
  AuthService.secure_faults a = [] ->
  fst (AuthService.EncryptedStorage_getItem key a) = Ok (AuthService.secure a !! key).
Proof. intros Hf. unfold AuthService.EncryptedStorage_getItem. rewrite Hf. reflexivity. Qed.

(** What [resetSecurity] does when the secure storage accepts both removals *)
Lemma resetSecurity_run (w : World) :
  AuthService.secure_faults (auth w) = [] ->
  resetSecurity w =
    (Ok {| AuthService.success := true; AuthService.error := None;
           AuthService.requiresPIN := None |},
     {| database := snd (DatabaseService.setSetting "authMethod" "none" (database w));
        auth := AuthService.set_isAuthenticated false
                  (AuthService.set_authMethod "none"
                     (AuthService.set_secure
                        (delete "encryptionKey"
                           (delete "userPIN" (AuthService.secure (auth w))))
                        (AuthService.set_secure_faults [] (auth w)))) |}).
Proof.
  intros Hf. destruct (setSetting_completes (database w) "authMethod" "none") as (d' & Ed).
  rewrite Ed.
  unfold resetSecurity, try_catch, bind, modify, in_auth, in_database,
    EncryptedStorage_removeItem.
  cbn [database auth]. rewrite Hf. cbn. rewrite Ed. reflexivity.
Qed.

(** X19. On a working secure storage [resetSecurity] returns
    [{ success: true }], removes the PIN hash and the encryption key, sets
    [authMethod] to 'none' and logs out; a later [authenticateWithPIN] is
    answered 'No PIN set up'. *)
Theorem resetSecurity_clears (w : World) (pin : string) :
  AuthService.secure_faults (auth w) = [] ->
  let w1 := snd (resetSecurity w) in
  fst (resetSecurity w) =
    Ok {| AuthService.success := true; AuthService.error := None;
          AuthService.requiresPIN := None |} /\
  AuthService.secure (auth w1) !! "userPIN" = None /\
  AuthService.secure (auth w1) !! "encryptionKey" = None /\
  AuthService.authMethod (auth w1) = "none" /\
  AuthService.isAuthenticated (auth w1) = false /\
  fst (AuthService.authenticateWithPIN pin (auth w1)) =
    Ok {| AuthService.success := false; AuthService.error := Some "No PIN set up";
          AuthService.requiresPIN := None |}.
Proof.
  intros Hf. cbv zeta. rewrite (resetSecurity_run w Hf). cbn [fst snd auth].
  set (a1 := AuthService.set_isAuthenticated _ _).
  assert (Hpin : AuthService.secure a1 !! "userPIN" = None).
  { unfold a1. simpl. rewrite lookup_delete_ne by discriminate. apply lookup_delete_eq. }
  split; [reflexivity|]. split; [exact Hpin|].
  split; [unfold a1; simpl; apply lookup_delete_eq|].
  split; [reflexivity|]. split; [reflexivity|].
  rewrite authenticateWithPIN_none; [reflexivity|].
  rewrite getItem_readable by reflexivity. rewrite Hpin. reflexivity.
Qed.

(** X20. [resetSecurity] is not atomic: when the secure storage accepts the
    removal of the PIN hash and rejects the removal of the encryption key,
    the result is [{ success: false, error }], the database is untouched and
    [authMethod] is still 'pin', while the hash is gone; [authenticate()]
    then asks for a PIN that [authenticateWithPIN] can only answer with
    'No PIN set up'. *)
Theorem resetSecurity_partial_failure (w : World) (pin : string) (e : Error) :
  AuthService.secure_faults (auth w) = [None; Some e] ->
  AuthService.authMethod (auth w) = "pin" ->
  let w1 := snd (resetSecurity w) in
  fst (resetSecurity w) =
    Ok {| AuthService.success := false; AuthService.error := Some e;
          AuthService.requiresPIN := None |} /\
  AuthService.secure (auth w1) !! "userPIN" = None /\
  AuthService.authMethod (auth w1) = "pin" /\
  database w1 = database w /\
  AuthService.authenticate (auth w1) =
    (Ok {| AuthService.success := false; AuthService.error := None;
           AuthService.requiresPIN := Some true |}, auth w1) /\
  fst (AuthService.authenticateWithPIN pin (auth w1)) =
    Ok {| AuthService.success := false; AuthService.error := Some "No PIN set up";
          AuthService.requiresPIN := None |}.
Proof.
  intros Hf Hm. cbv zeta.
  assert (E : resetSecurity w =
              (Ok {| AuthService.success := false; AuthService.error := Some e;
                     AuthService.requiresPIN := None |},
               {| database := database w;
                  auth := AuthService.set_secure_faults []
                            (AuthService.set_secure
                               (delete "userPIN" (AuthService.secure (auth w)))
                               (AuthService.set_secure_faults [Some e] (auth w))) |})).
  { unfold resetSecurity, try_catch, bind, modify, in_auth, in_database,
      EncryptedStorage_removeItem.
    cbn [database auth]. rewrite Hf. reflexivity. }
  rewrite E. cbn [fst snd auth database].
  set (a1 := AuthService.set_secure_faults [] _).
  assert (Hpin : AuthService.secure a1 !! "userPIN" = None)
    by (unfold a1; simpl; apply lookup_delete_eq).
  split; [reflexivity|]. split; [exact Hpin|]. split; [exact Hm|].
  split; [reflexivity|]. split; [apply authenticate_pin; exact Hm|].
  rewrite authenticateWithPIN_none; [reflexivity|].
  rewrite getItem_readable by reflexivity. rewrite Hpin. reflexivity.
Qed.

(** The first [getSetting] of a new instance over a working store: the
    world it leaves is healthy and holds the seeded settings. *)
Lemma getSetting_new_instance (d : DatabaseService.World) key :
  DatabaseSpec.ready d -> DatabaseService.isInitialized d = false ->
  exists d' now,
    DatabaseService.getSetting key d =
      (Ok (head (values_of key (settings (DatabaseService.disk d))
                 ++ default_values key)), d') /\
    DatabaseSpec.healthy d' /\
    settings (DatabaseService.disk d') =
      seeded now DatabaseService.defaultSettings (settings (DatabaseService.disk d)).
Proof.
  intros Hr Hi.
  destruct (initialize_ready d Hr) as (d1 & E1 & Hh1 & _).
  destruct (initialize_seeds d Hr Hi) as (now & HT). rewrite E1 in HT. cbn [snd] in HT.
  exists d1, now.
  pose proof (getSetting_healthy d1 key Hh1) as E. revert E.
  unfold DatabaseService.getSetting.
  rewrite (bind_ok _ _ _ _ _ (initialize_healthy d1 Hh1)).
  rewrite (bind_ok _ _ _ _ _ E1). intros ->.
  split; [|split; assumption].
  f_equal. f_equal. fold (values_of key (settings (DatabaseService.disk d1))).
  rewrite HT. apply seeded_head.
Qed.

Lemma getSessionTimeout_healthy (w : World) :
  DatabaseSpec.healthy (database w) ->
  getSessionTimeout w =
    (Ok (match head (values_of "sessionTimeout"
                       (settings (DatabaseService.disk (database w)))) with
         | Some text => if truthy (Some text) then parseInt text else Some 5%Z
         | None => Some 5%Z
         end), w).
Proof.
  intros Hh. unfold getSessionTimeout, try_catch, bind at 1.
  erewrite in_database_run by (apply getSetting_healthy, Hh).
  fold (values_of "sessionTimeout" (settings (DatabaseService.disk (database w)))).
  destruct (head _) as [text|]; [destruct (truthy (Some text))|];
    destruct w; reflexivity.
Qed.

(** X21. [setSessionTimeout(minutes)] sets the timeout of the running
    instance to [minutes * 60 * 1000] and saves the minutes, which
    [getSessionTimeout] reads back, also after a restart; but
    [AuthService.initialize()] never reads the setting, so after a restart
    the timeout in force is the five minutes of the constructor. (On a
    working database that has its tables, an initialized service having
    created them, for minutes that [parseInt] reads back from their
    non-empty [toString()].) *)
Theorem sessionTimeout_saved_not_restored (w : World) (minutes : Z) :
  DatabaseSpec.operational (database w) ->
  parseInt (Number_toString minutes) = Some minutes ->
  Number_toString minutes <> "" ->
  let w1 := snd (setSessionTimeout minutes w) in
  let w2 := snd (restart w1) in
  AuthService.sessionTimeout (auth w1) = (minutes * 60 * 1000)%Z /\
  fst (getSessionTimeout w1) = Ok (Some minutes) /\
  fst (getSessionTimeout w2) = Ok (Some minutes) /\
  AuthService.sessionTimeout (auth w2) = (5 * 60 * 1000)%Z.
Proof.
  intros Hop Hparse Hne. cbv zeta.
  destruct (setSetting_operational (database w) "sessionTimeout"
              (Number_toString minutes) Hop) as (d1 & Es & Hh1 & _ & Hs1).
  assert (Ew1 : setSessionTimeout minutes w =
                (Ok tt, {| database := d1;
                           auth := AuthService.set_sessionTimeout
                                     (minutes * 60 * 1000)%Z (auth w) |})).
  { unfold setSessionTimeout, bind, modify, in_auth, in_database.
    cbn [database auth]. rewrite Es. reflexivity. }
  rewrite Ew1. cbn [snd].
  set (w1 := {| database := d1; auth := _ |}).
  apply String.eqb_neq in Hne.
  split; [reflexivity|]. split.
  - rewrite getSessionTimeout_healthy by exact Hh1. cbn [fst database w1].
    rewrite Hs1. simpl. rewrite Hne. simpl. f_equal. exact Hparse.
  - assert (Hr2 : DatabaseSpec.ready (DatabaseService.constructor (database w1))).
    { destruct Hh1 as (Ho & Hf & _ & _). repeat split; try assumption.
      simpl. discriminate. }
    destruct (getSetting_new_instance _ "authMethod" Hr2 eq_refl)
      as (d2 & now & Eg & Hh2 & HT2).
    rewrite (restart_run w1 _ d2 Eg). cbn [snd auth].
    split; [|reflexivity].
    rewrite getSessionTimeout_healthy by exact Hh2. cbn [fst database].
    rewrite HT2, seeded_head. cbn [DatabaseService.disk DatabaseService.constructor].
    replace (settings (DatabaseService.disk (DatabaseService.constructor (database w1))))
      with (settings (DatabaseService.disk d1)) by reflexivity.
    rewrite Hs1. simpl. rewrite Hne. simpl. f_equal. exact Hparse.
Qed.

Lemma getSessionTimeout_completes (w : World) :
  exists t d, getSessionTimeout w = (Ok t, {| database := d; auth := auth w |}).
Proof.
  destruct (getSetting_completes (database w) "sessionTimeout") as (v & d & E).
  unfold getSessionTimeout, try_catch, bind at 1.
  erewrite in_database_run by exact E.
  destruct v as [text|]; [destruct (truthy (Some text))|]; eexists _, _; reflexivity.
Qed.

(** X22. [getSecuritySettings] reports the method of the instance, no
    biometrics, the saved timeout and whether a PIN hash is stored, when the
    secure storage answers; when it rejects the read, the fixed object
    [{ authMethod: 'none', biometricAvailable: false, sessionTimeout: 5,
    hasPIN: false }] is returned whatever the instance holds. *)
Theorem getSecuritySettings_reports (w : World) :
  (AuthService.secure_faults (auth w) = [] ->
   exists s, fst (getSecuritySettings w) = Ok s /\
     ss_authMethod s = AuthService.authMethod (auth w) /\
     ss_biometricAvailable s = false /\
     ss_sessionTimeout s = match fst (getSessionTimeout w) with
                           | Ok t => t | Throw _ => None end /\
     ss_hasPIN s = not_null (AuthService.secure (auth w) !! "userPIN")) /\
  (forall e rest, AuthService.secure_faults (auth w) = Some e :: rest ->
   fst (getSecuritySettings w) =
     Ok {| ss_authMethod := "none"; ss_biometricAvailable := false;
           ss_sessionTimeout := Some 5%Z; ss_hasPIN := false |}).
Proof.
  destruct (getSessionTimeout_completes w) as (t & d & Et).
  split.
  - intros Hf. eexists. split.
    + unfold getSecuritySettings, try_catch, bind at 1, in_auth, gets.
      unfold bind at 1, isBiometricAvailable, try_catch, ret.
      unfold bind at 1.
      replace {| database := database w; auth := auth w |} with w by (destruct w; reflexivity).
      rewrite Et. unfold bind, AuthService.EncryptedStorage_getItem.
      cbn [auth database]. rewrite Hf. reflexivity.
    + rewrite Et. repeat split.
  - intros e rest Hf.
    unfold getSecuritySettings, try_catch, bind at 1, in_auth, gets.
    unfold bind at 1, isBiometricAvailable, try_catch, ret.
    unfold bind at 1.
    replace {| database := database w; auth := auth w |} with w by (destruct w; reflexivity).
    rewrite Et. unfold bind, AuthService.EncryptedStorage_getItem.
    cbn [auth database]. rewrite Hf. reflexivity.
Qed.
End AppProofs.

(** ** The settings screen *)

Section SettingsScreenProofs.
Context `{Models} `{CryptoJS} `{Numbers}.
Abbreviation stored_settings := settings (only parsing).
Import SettingsSpec SettingsScreen ScreenSpec.

Lemma getSetting_run (w : World) key v d :
  DatabaseService.getSetting key (App.database (app w)) = (Ok v, d) ->
  getSetting key w = (Ok v, over d w).
Proof.
  intros E. unfold getSetting, in_app, App.in_database. rewrite E. reflexivity.
Qed.

Lemma over_over d d' w : over d' (over d w) = over d' w.
Proof. reflexivity. Qed.

Lemma over_same w : over (App.database (app w)) w = w.
Proof. destruct w as [[d a] s l al]. reflexivity. Qed.

(** [loadSettings] when every [getSetting] answers from one table and
    leaves the database service in state [d] *)
Lemma loadSettings_run (w : World) (d : DatabaseService.World)
    (stored : string -> option string) :
  (forall key, DatabaseService.getSetting key (App.database (app w)) = (Ok (stored key), d)) ->
  (forall key, DatabaseService.getSetting key d = (Ok (stored key), d)) ->
  loadSettings w = (Ok tt, setLoading false (setSettings (shown stored) (over d w))).
Proof.
  intros Hfirst Hnext.
  unfold loadSettings, try_finally, try_catch.
  unfold bind at 1, modify at 1.
  unfold bind at 1. rewrite (getSetting_run (setLoading true w) "currency" _ d (Hfirst _)).
  assert (Hd : forall w0, App.database (app (over d w0)) = d) by reflexivity.
  unfold bind at 1. rewrite (getSetting_run _ "notifications" (stored _) d)
    by (rewrite Hd; apply Hnext).
  unfold bind at 1. rewrite (getSetting_run _ "biometric" (stored _) d)
    by (rewrite Hd; apply Hnext).
  unfold bind at 1. rewrite (getSetting_run _ "darkMode" (stored _) d)
    by (rewrite Hd; apply Hnext).
  unfold bind at 1. rewrite (getSetting_run _ "autoBackup" (stored _) d)
    by (rewrite Hd; apply Hnext).
  reflexivity.
Qed.

Lemma getSetting_over_healthy (d : DatabaseService.World) key :
  DatabaseSpec.healthy d ->
  DatabaseService.getSetting key d =
    (Ok (head (values_of key (stored_settings (DatabaseService.disk d)))), d).
Proof. apply getSetting_healthy. Qed.

(** Every [getSetting] of a new instance over a working store, the first
    and the later ones, answers from the table as it was, completed by the
    defaults. *)
Lemma getSetting_fresh (d : DatabaseService.World) key :
  DatabaseSpec.ready d -> DatabaseService.isInitialized d = false ->
  let d' := snd (DatabaseService.initialize d) in
  let answer := head (values_of key (stored_settings (DatabaseService.disk d))
                      ++ default_values key) in
  DatabaseService.getSetting key d = (Ok answer, d') /\
  DatabaseService.getSetting key d' = (Ok answer, d').
Proof.
  intros Hr Hi. cbv zeta.
  destruct (initialize_ready d Hr) as (d1 & E1 & Hh1 & _).
  destruct (initialize_seeds d Hr Hi) as (now & HT). rewrite E1 in *. cbn [snd] in *.
  assert (E : DatabaseService.getSetting key d1 =
              (Ok (head (values_of key (stored_settings (DatabaseService.disk d))
                         ++ default_values key)), d1)).
  { rewrite (getSetting_over_healthy d1 key Hh1), HT, seeded_head. reflexivity. }
  split; [|exact E].
  revert E. unfold DatabaseService.getSetting at 1.
  rewrite (bind_ok _ _ _ _ _ (initialize_healthy d1 Hh1)).
  unfold DatabaseService.getSetting. rewrite (bind_ok _ _ _ _ _ E1). auto.
Qed.

Lemma getSetting_while_down e (d : DatabaseService.World) key :
  down e d ->
  let d' := snd (DatabaseService.initialize d) in
  DatabaseService.getSetting key d = (Ok None, d') /\
  DatabaseService.getSetting key d' = (Ok None, d') /\
  down e d' /\ DatabaseService.disk d' = DatabaseService.disk d.
Proof.
  intros Hdown. cbv zeta.
  destruct (initialize_down e d Hdown) as (d1 & E1 & Hdown1 & Hdisk). rewrite E1. cbn [snd].
  assert (Hi1 : DatabaseService.isInitialized d1 = true).
  { pose proof (initialize_marks d) as Hm. rewrite E1 in Hm. exact Hm. }
  assert (E : DatabaseService.getSetting key d1 = (Ok None, d1)).
  { unfold DatabaseService.getSetting, DatabaseService.initialize, bind at 1, bind at 1, gets.
    rewrite Hi1. unfold ret, try_catch, bind at 1, DatabaseService.executeSql.
    rewrite (proj1 Hdown1). reflexivity. }
  split; [|auto].
  revert E. unfold DatabaseService.getSetting at 1.
  assert (Einit : DatabaseService.initialize d1 = (Ok tt, d1)).
  { unfold DatabaseService.initialize, bind, gets. rewrite Hi1. reflexivity. }
  rewrite (bind_ok _ _ _ _ _ Einit).
  unfold DatabaseService.getSetting. rewrite (bind_ok _ _ _ _ _ E1). auto.
Qed.

Lemma shown_defaults :
  shown (fun key => head (default_values key)) = initial_settings.
Proof. reflexivity. Qed.

Lemma shown_nothing : shown (fun _ => None) = initial_settings.
Proof. reflexivity. Qed.

(** X23. [loadSettings] shows the initial values (currency USD,
    notifications on, the other switches off) and ends the loading state,
    both on the first launch of a working database with an empty settings
    table and when the database cannot be opened. *)
Theorem loadSettings_defaults (w : World) :
  (DatabaseSpec.ready (App.database (app w)) ->
   DatabaseService.isInitialized (App.database (app w)) = false ->
   stored_settings (DatabaseService.disk (App.database (app w))) = [] ->
   fst (loadSettings w) = Ok tt /\
   settings (snd (loadSettings w)) = initial_settings /\
   loading (snd (loadSettings w)) = false) /\
  (forall e, down e (App.database (app w)) ->
   fst (loadSettings w) = Ok tt /\
   settings (snd (loadSettings w)) = initial_settings /\
   loading (snd (loadSettings w)) = false).
Proof.
  split.
  - intros Hr Hi HT.
    rewrite (loadSettings_run w (snd (DatabaseService.initialize (App.database (app w))))
               (fun key => head (values_of key
                                   (stored_settings (DatabaseService.disk (App.database (app w))))
                                 ++ default_values key)))
      by (intros key; apply (getSetting_fresh _ key Hr Hi)).
    cbn [fst snd]. rewrite HT. split; [reflexivity|]. split; reflexivity.
  - intros e Hdown.
    rewrite (loadSettings_run w (snd (DatabaseService.initialize (App.database (app w))))
               (fun _ => None))
      by (intros key; apply (getSetting_while_down e _ key Hdown)).
    split; [reflexivity|]. split; reflexivity.
Qed.

(** [updateSetting] when the database service completes the write *)
Lemma updateSetting_run (w : World) key value d :
  DatabaseService.setSetting key (toString value) (App.database (app w)) = (Ok tt, d) ->
  updateSetting key value w =
    (Ok tt, setSettings (<[key := value]> (settings w)) (over d w)).
Proof.
  intros E. unfold updateSetting, try_catch, bind, in_app, App.in_database, modify.
  rewrite E. reflexivity.
Qed.

Lemma shown_switch (stored : string -> option string) key (b : bool) :
  key ∈ switches ->
  stored key = Some (toString (VBool b)) ->
  shown stored !! key = Some (VBool b).
Proof.
  intros Hkey Hs. unfold shown. unfold switches in Hkey.
  repeat (apply elem_of_cons in Hkey as [->|Hkey]);
    [| | | |apply elem_of_nil in Hkey as []];
    repeat (rewrite lookup_insert_ne by discriminate);
    rewrite lookup_insert_eq, Hs; destruct b; reflexivity.
Qed.

(** X24. A switch survives a reload: on a working database that has its
    tables (an initialized service did create them), after
    [updateSetting(key, b)] for one of the four switches the screen shows
    [b] for the key, [loadSettings] then shows [b] again (the boolean is
    written as 'true' or 'false' and read back by the comparison of that
    key), and no alert is shown. *)
Theorem updateSetting_then_loadSettings (w : World) key (b : bool) :
  DatabaseSpec.operational (App.database (app w)) ->
  key ∈ switches ->
  let w1 := snd (updateSetting key (VBool b) w) in
  let w2 := snd (loadSettings w1) in
  settings w1 !! key = Some (VBool b) /\
  settings w2 !! key = Some (VBool b) /\
  alerts w2 = alerts w.
Proof.
  intros Hop Hkey. cbv zeta.
  destruct (setSetting_operational _ key (toString (VBool b)) Hop)
    as (d1 & Es & Hh1 & _ & Hs1).
  rewrite (updateSetting_run w key _ d1 Es). cbn [snd].
  split; [apply lookup_insert_eq|].
  rewrite (loadSettings_run _ d1
             (fun k => head (values_of k (stored_settings (DatabaseService.disk d1)))))
    by (intros k; apply getSetting_healthy; exact Hh1).
  cbn [snd]. split; [|reflexivity].
  apply shown_switch; [exact Hkey|].
  rewrite Hs1. reflexivity.
Qed.

(** X25. When the database cannot be opened [updateSetting] reports
    nothing: it completes, the screen shows the new value and no alert, the
    database file is unchanged, and the next [loadSettings] shows the
    initial values again. *)
Theorem updateSetting_without_database (w : World) e key value :
  down e (App.database (app w)) ->
  let w1 := snd (updateSetting key value w) in
  let w2 := snd (loadSettings w1) in
  fst (updateSetting key value w) = Ok tt /\
  settings w1 = <[key := value]> (settings w) /\
  alerts w1 = alerts w /\
  DatabaseService.disk (App.database (app w1)) = DatabaseService.disk (App.database (app w)) /\
  settings w2 = initial_settings.
Proof.
  intros Hdown. cbv zeta.
  destruct (setSetting_completes (App.database (app w)) key (toString value)) as (d1 & Es).
  pose proof (setSetting_down e _ key (toString value) Hdown) as (Hdown1 & Hdisk).
  rewrite Es in Hdown1, Hdisk. cbn [snd] in Hdown1, Hdisk.
  rewrite (updateSetting_run w key _ d1 Es). cbn [fst snd].
  repeat split; try reflexivity; try exact Hdisk.
  rewrite (loadSettings_run _ (snd (DatabaseService.initialize d1)) (fun _ => None))
    by (intros k; apply (getSetting_while_down e d1 k Hdown1)).
  reflexivity.
Qed.

(** X26. The Reset button of [handleResetApp] never resets anything: the
    first call, [DatabaseService.clearAllData()], is to a method the class
    does not define, so in every state the handler goes to its catch, shows
    'Failed to reset app', and [AuthService.resetSecurity()] is not reached:
    both services and the screen are left as they were. *)
Theorem resetPressed_always_fails (w : World) :
  resetPressed w =
    (Ok tt, {| app := app w; settings := settings w; loading := loading w;
               alerts := alerts w ++ [("Error", "Failed to reset app")] |}).
Proof. reflexivity. Qed.
End SettingsScreenProofs.

(** ** The transactions screen *)

Section TransactionsScreenProofs.
Context `{Models}.
Abbreviation stored_transactions := transactions (only parsing).
Import DatabaseService DatabaseSpec TransactionsScreen.

(** The filter object [loadTransactions] passes *)
Lemma loadTransactions_run (w : World) r d :
  DatabaseService.getTransactions (Some 100%Z) (Some 0%Z)
    (Some (if String.eqb (filterType w) "all" then DatabaseService.no_filters
           else {| DatabaseService.f_type := Some (filterType w);
                   DatabaseService.f_category := None;
                   DatabaseService.f_startDate := None;
                   DatabaseService.f_endDate := None |}))
    (database w) = (r, d) ->
  loadTransactions w =
    (Ok tt,
     {| database := d;
        transactions := match r with Ok ts => ts | Throw _ => transactions w end;
        loading := false;
        filterType := filterType w |}).
Proof.
  intros E.
  unfold loadTransactions, try_finally, try_catch, bind, modify, gets, in_database.
  cbn [database filterType setLoading]. rewrite E. destruct r; reflexivity.
Qed.

(** X27. In every state of the database, failing or not, [loadTransactions]
    completes, ends the loading state, keeps the selected filter and shows
    at most 100 transactions. *)
Theorem loadTransactions_always_finishes (w : World) :
  fst (loadTransactions w) = Ok tt /\
  loading (snd (loadTransactions w)) = false /\
  filterType (snd (loadTransactions w)) = filterType w /\
  (length (transactions (snd (loadTransactions w))) <= 100)%nat.
Proof.
  destruct (DatabaseService.getTransactions (Some 100%Z) (Some 0%Z)
              (Some (if String.eqb (filterType w) "all" then DatabaseService.no_filters
                     else {| DatabaseService.f_type := Some (filterType w);
                             DatabaseService.f_category := None;
                             DatabaseService.f_startDate := None;
                             DatabaseService.f_endDate := None |}))
              (database w)) as [r d] eqn:E.
  rewrite (loadTransactions_run w r d E). cbn [fst snd loading filterType transactions].
  apply getTransactions_page in E as (ts & -> & Hlen); [|simpl; lia].
  repeat split. exact Hlen.
Qed.

(** X28. On a working, readable store [loadTransactions] shows the first 100
    transactions by date descending: all of them when the filter is 'all',
    else those whose type is the selected filter. *)
Theorem loadTransactions_lists_type (w : World) :
  ready (database w) ->
  Forall readable (stored_transactions (disk (database w))) ->
  filterType w <> "" ->
  exists sorted,
    sorted ≡ₚ filter (fun r => filterType w = "all" \/ row_type r = filterType w)
                (stored_transactions (disk (database w))) /\
    StronglySorted date_desc sorted /\
    Forall2 deserializes (take 100 sorted) (transactions (snd (loadTransactions w))).
Proof.
  intros Hr Hrows Hne.
  set (f := if String.eqb (filterType w) "all" then DatabaseService.no_filters
            else {| DatabaseService.f_type := Some (filterType w);
                    DatabaseService.f_category := None;
                    DatabaseService.f_startDate := None;
                    DatabaseService.f_endDate := None |}).
  destruct (getTransactions_ready (database w) (Some 100%Z) (Some 0%Z) (Some f) Hr Hrows
              eq_refl) as (ts & d & E & _ & Hts).
  rewrite (loadTransactions_run w (Ok ts) d E). cbn [snd transactions].
  exists (order_by_date_desc
            (List.filter (satisfies truthy f) (stored_transactions (disk (database w))))).
  split; [|split; [apply order_by_date_desc_sorted | exact Hts]].
  rewrite order_by_date_desc_perm.
  rewrite (filter_bool_prop _
             (fun r => filterType w = "all" \/ row_type r = filterType w)); [reflexivity|].
  intros r. unfold f, satisfies, contributes.
  destruct (String.eqb_spec (filterType w) "all") as [Hall|Hall]; simpl.
  - split; auto.
  - destruct (String.eqb_spec (filterType w) "") as [|_]; [contradiction|]. simpl.
    rewrite !andb_true_r, String.eqb_eq. split; [auto | intros [|]; [contradiction|auto]].
Qed.
End TransactionsScreenProofs.

(** ** The services on the sample platform *)

Lemma sample_device_ready (s : Store) : DatabaseSpec.ready (Sample.device s).
Proof. repeat split; try reflexivity. discriminate. Qed.

Lemma sample_device_operational (s : Store) :
  DatabaseSpec.operational (Sample.device s).
Proof. split; [apply sample_device_ready | discriminate]. Qed.

Lemma sample_rows_readable :
  Forall (@DatabaseSpec.readable Sample.runtime Sample.models)
         (transactions Sample.two_transactions).
Proof.
  repeat constructor; eexists; eexists _, _; repeat split; reflexivity.
Qed.

Lemma sample_strip (key text : string) : Sample.strip key (key +:+ text) = Ok text.
Proof.
  induction key as [|c key IH]; simpl; [reflexivity|].
  rewrite Ascii.eqb_refl. exact IH.
Qed.

Lemma sample_AES_inverts : @AuthSpec.AES_inverts Sample.crypto.
Proof.
  intros text key salt. exists text. split; [apply sample_strip | reflexivity].
Qed.

(** C1 (defect in the code). Each launch seeds the default categories
    again: the INSERT OR IGNORE of [insertDefaultCategories] is keyed on a
    freshly generated id, so it never ignores. On a new device the first
    launch leaves the five default categories and the four default settings;
    the second launch leaves each default category twice, while the settings,
    keyed on their name, are left as they were. *)
Theorem seeding_again_duplicates_categories :
  let first := Sample.launch (Sample.device empty_store) in
  let second := Sample.launch first in
  map cat_name (categories (DatabaseService.disk first)) = Sample.default_names /\
  map set_key (settings (DatabaseService.disk first)) = Sample.default_keys /\
  map cat_name (categories (DatabaseService.disk second))
    = Sample.default_names ++ Sample.default_names /\
  settings (DatabaseService.disk second) = settings (DatabaseService.disk first).
Proof. vm_compute. repeat split. Qed.

Lemma getTransactionSummary_totals_witness :
  fst (@DatabaseService.getTransactionSummary Sample.runtime
         "2024-01-01" "2024-12-31" (Sample.device Sample.two_transactions)) =
    Ok (<["income" := 100%float]>
          (<["expense" := 40%float]> (<["transfer" := 0%float]> ∅))).
Proof.
  refine (proj2 (proj2 (@getTransactionSummary_totals Sample.runtime
            (Sample.device Sample.two_transactions) "2024-01-01" "2024-12-31"
            (sample_device_ready _) _))
          (Sample.row "t1" 100 "income" "Salary" "2024-01-10T00:00:00.000Z")
          (Sample.row "t2" 40 "expense" "Shopping" "2024-01-20T00:00:00.000Z")
          _ _ _ _ _); try reflexivity.
  intros r Hr _. simpl in Hr.
  apply elem_of_cons in Hr as [->|Hr]; [exists income; reflexivity|].
  apply elem_of_cons in Hr as [->|Hr]; [exists expense; reflexivity|].
  apply elem_of_nil in Hr. contradiction.
Defined.

(** The claim C2 as it is worded fails for two incomes of 9007199254740992
    (2^53) and 1 dated within the range: the summary holds 9007199254740992
    under income, which is not the sum of the two amounts. *)
Lemma getTransactionSummary_not_exact :
  exists summary,
    fst (@DatabaseService.getTransactionSummary Sample.runtime
           "2024-01-01" "2024-12-31" (Sample.device Sample.large_transactions))
      = Ok summary /\
    summary !! "income" = Some 9007199254740992%float /\
    ~ DatabaseSpec.holds_sums summary "2024-01-01" "2024-12-31"
        (transactions Sample.large_transactions).
Proof.
  eexists. split; [vm_compute; reflexivity|]. split; [reflexivity|].
  intros Hsums. destruct (Hsums income) as (total & Htotal & Hsum).
  vm_compute in Htotal. injection Htotal as <-.
  vm_compute in Hsum. discriminate Hsum.
Qed.

(** The claim C6 as it is worded fails for the filters [{ type: '' }]: the
    property is present, no stored transaction has the empty type, and yet
    both stored transactions are returned. *)
Lemma getTransactions_empty_type_filter :
  ~ @DatabaseSpec.returns_selected Sample.runtime Sample.models DatabaseSpec.present
      (Sample.device Sample.two_transactions) None None (Some Sample.empty_type_filter).
Proof.
  intros (sorted & ts & Hperm & _ & Hres & Hall).
  vm_compute in Hperm. apply Permutation_nil_r in Hperm. subst sorted.
  vm_compute in Hres. injection Hres as <-. inversion Hall.
Qed.

Lemma getTransactions_selects_witness :
  @DatabaseSpec.returns_selected Sample.runtime Sample.models truthy
    (Sample.device Sample.two_transactions) (Some 1%Z) (Some 0%Z)
    (Some {| DatabaseService.f_type := Some "expense";
             DatabaseService.f_category := None;
             DatabaseService.f_startDate := Some "2024-01-01";
             DatabaseService.f_endDate := None |}).
Proof.
  apply (proj1 (@getTransactions_selects Sample.runtime Sample.models
                  (Sample.device Sample.two_transactions) (Some 1%Z) (Some 0%Z)
                  (Some {| DatabaseService.f_type := Some "expense";
                           DatabaseService.f_category := None;
                           DatabaseService.f_startDate := Some "2024-01-01";
                           DatabaseService.f_endDate := None |})
                  (sample_device_ready _) sample_rows_readable)).
  reflexivity.
Defined.

Lemma setSetting_twice_one_row_witness :
  let w := Sample.device empty_store in
  let w2 := snd (@DatabaseService.setSetting Sample.runtime "theme" "dark"
                   (snd (@DatabaseService.setSetting Sample.runtime "theme" "dark" w))) in
  fst (@DatabaseService.getSetting Sample.runtime "theme" w2) = Ok (Some "dark").
Proof.
  exact (proj2 (@setSetting_twice_one_row Sample.runtime (Sample.device empty_store)
                  "theme" "dark" (sample_device_operational _))).
Defined.

Lemma error_policy_witness :
  fst (@DatabaseService.getTransactions Sample.runtime Sample.models
         None None None Sample.broken_device) = Ok [] /\
  fst (@DatabaseService.addTransaction Sample.runtime Sample.models
         (inl Sample.a_transaction) Sample.broken_device)
    = Throw "TypeError: Cannot read property 'executeSql' of null".
Proof.
  destruct (@error_policy Sample.runtime Sample.models Sample.broken_device)
    as (_ & Hdefault & Hraise).
  split.
  - apply Hdefault. left. reflexivity.
  - apply (Hraise (inl Sample.a_transaction) Sample.a_transaction); reflexivity.
Defined.

Lemma authenticateWithPIN_without_PIN_witness :
  fst (@AuthService.authenticateWithPIN Sample.crypto "1234" (Sample.session "pin" false)) =
    Ok {| AuthService.success := false; AuthService.error := Some "No PIN set up";
          AuthService.requiresPIN := None |}.
Proof.
  apply (@authenticateWithPIN_without_PIN Sample.crypto (Sample.session "pin" false) "1234").
  reflexivity.
Defined.

Lemma authenticate_without_check_witness :
  AuthService.isAuthenticated
    (snd (AuthService.authenticate (Sample.session "biometric" false))) = true.
Proof.
  apply (authenticate_without_check (Sample.session "biometric" false)); discriminate.
Defined.

Lemma session_check_witness :
  let w := AuthService.set_lastActivity 1699999600000%Z (Sample.session "pin" true) in
  AuthService.isAuthenticated (snd (AuthService.session_check w)) = false.
Proof.
  simpl.
  destruct (session_check_logs_out_when_expired
              (AuthService.set_lastActivity 1699999600000%Z (Sample.session "pin" true)))
    as (_ & _ & _ & Hiff & _).
  apply Hiff. split; [reflexivity | simpl; lia].
Defined.

Lemma decrypt_encrypt_witness :
  exists blob w1,
    @AuthService.encryptData Sample.runtime Sample.crypto
      (Sample.VText "secret") (Sample.session "pin" true) = (Ok blob, w1) /\
    fst (@AuthService.decryptData Sample.runtime Sample.crypto blob w1)
      = Ok (Sample.VText "secret").
Proof.
  apply (@decrypt_encrypt Sample.runtime Sample.crypto).
  - apply sample_AES_inverts.
  - reflexivity.
  - reflexivity.
  - intros n. discriminate.
Defined.

(** ** The further properties on the sample platform *)

#[local] Existing Instance Sample.runtime.
#[local] Existing Instance Sample.crypto.
#[local] Existing Instance Sample.models.
#[local] Existing Instance Scenario.numbers.

Lemma authenticateWithPIN_checks_hash_witness :
  let w := AuthService.set_secure (Scenario.with_pin "1234") (Sample.session "pin" false) in
  fst (AuthService.authenticateWithPIN "1234" w) =
    Ok {| AuthService.success := true; AuthService.error := None;
          AuthService.requiresPIN := None |} /\
  fst (AuthService.authenticateWithPIN "0000" w) =
    Ok {| AuthService.success := false; AuthService.error := Some "Incorrect PIN";
          AuthService.requiresPIN := None |}.
Proof.
  cbv zeta. split.
  - apply (authenticateWithPIN_checks_hash
             (AuthService.set_secure (Scenario.with_pin "1234") (Sample.session "pin" false))
             "1234" "sha256:1234"); [reflexivity | discriminate | reflexivity].
  - apply (authenticateWithPIN_checks_hash
             (AuthService.set_secure (Scenario.with_pin "1234") (Sample.session "pin" false))
             "0000" "sha256:1234"); [reflexivity | discriminate | discriminate].
Defined.

Lemma authenticateWithPIN_storage_failure_witness :
  fst (AuthService.authenticateWithPIN "1234"
         (AuthService.set_secure_faults [Some "Error: keystore locked"]
            (Sample.session "pin" false))) =
    Ok {| AuthService.success := false; AuthService.error := Some "Error: keystore locked";
          AuthService.requiresPIN := None |}.
Proof.
  apply (authenticateWithPIN_storage_failure
           (AuthService.set_secure_faults [Some "Error: keystore locked"]
              (Sample.session "pin" false)) "1234" "Error: keystore locked" []).
  reflexivity.
Defined.

Lemma authenticate_gate_witness :
  AuthService.authenticate (Sample.session "pin" false) =
    (Ok {| AuthService.success := false; AuthService.error := None;
           AuthService.requiresPIN := Some true |}, Sample.session "pin" false).
Proof.
  apply (proj1 (authenticate_gate (Sample.session "pin" false))). reflexivity.
Defined.

Lemma login_does_not_rearm_timer_witness :
  let w := AuthService.set_sessionTimer (Some 30000%Z)
             (AuthService.set_lastActivity 1699999600000%Z (Sample.session "none" true)) in
  AuthService.sessionTimer
    (snd (AuthService.authenticate (snd (AuthService.session_check w)))) = None.
Proof.
  cbv zeta.
  apply (proj2 (proj2 (login_does_not_rearm_timer
           (AuthService.set_sessionTimer (Some 30000%Z)
              (AuthService.set_lastActivity 1699999600000%Z (Sample.session "none" true)))
           "1234"))).
  split; [reflexivity | simpl; lia].
Defined.

Lemma activity_keeps_session_witness :
  AuthService.isAuthenticated
    (snd (AuthService.session_check
            (snd (AuthService.updateLastActivity (Sample.session "pin" true))))) = true.
Proof.
  apply (activity_keeps_session (Sample.session "pin" true)); [reflexivity | simpl; lia].
Defined.

Lemma generateEncryptionKey_stable_witness :
  exists k w1 w2,
    AuthService.generateEncryptionKey (Sample.session "pin" true) = (Ok k, w1) /\
    AuthService.generateEncryptionKey w1 = (Ok k, w2) /\
    AuthService.secure w2 = AuthService.secure w1 /\
    AuthService.draws w2 = AuthService.draws w1 /\
    AuthService.secure w1 !! "encryptionKey" = Some k.
Proof.
  apply (generateEncryptionKey_stable (Sample.session "pin" true)).
  - reflexivity.
  - intros n. discriminate.
Defined.

Lemma generateEncryptionKey_outage_witness :
  let w := AuthService.set_secure_faults
             [Some "Error: keystore locked"; Some "Error: keystore locked"]
             (Sample.session "pin" true) in
  fst (AuthService.generateEncryptionKey w) = Ok "default-encryption-key-1700000000000" /\
  fst (AuthService.generateEncryptionKey (snd (AuthService.generateEncryptionKey w)))
    = Ok "default-encryption-key-1700000000001".
Proof.
  cbv zeta.
  destruct (generateEncryptionKey_outage
              (AuthService.set_secure_faults
                 [Some "Error: keystore locked"; Some "Error: keystore locked"]
                 (Sample.session "pin" true))
              "Error: keystore locked" "Error: keystore locked" [] eq_refl)
    as (E1 & E2 & _).
  split; [exact E1 | exact E2].
Defined.

Lemma getSetting_after_seeding_witness :
  fst (DatabaseService.getSetting "currency" (Sample.device empty_store)) = Ok (Some "USD").
Proof.
  apply (getSetting_after_seeding (Sample.device empty_store) "currency");
    [apply sample_device_ready | reflexivity].
Defined.

Lemma setSetting_other_keys_witness :
  fst (DatabaseService.getSetting "currency"
         (snd (DatabaseService.setSetting "theme" "dark" (Sample.device empty_store)))) =
  fst (DatabaseService.getSetting "currency" (Sample.device empty_store)).
Proof.
  apply (setSetting_other_keys (Sample.device empty_store) "theme" "currency" "dark");
    [apply sample_device_ready | discriminate].
Defined.


Lemma added_transaction_is_listed_witness :
  exists ts,
    fst (DatabaseService.getTransactions (Some 10%Z) None None
           (snd (DatabaseService.addTransaction (inl Sample.a_transaction)
                   (Sample.device empty_store)))) = Ok ts /\
    length ts = 1%nat.
Proof.
  assert (Hrow : exists t, DatabaseSpec.deserializes
                               (DatabaseService.row_of Sample.a_transaction) t)
    by (eexists; eexists _, _; repeat split; reflexivity).
  destruct Hrow as (t & Hrow).
  destruct (added_transaction_is_listed (Sample.device empty_store)
              (inl Sample.a_transaction) Sample.a_transaction t 10%Z)
    as (ts & E & _ & Hlen).
  - apply sample_device_operational.
  - reflexivity.
  - reflexivity.
  - reflexivity.
  - constructor.
  - exact Hrow.
  - simpl. lia.
  - reflexivity.
  - exists ts. split; assumption.
Defined.

Lemma failed_open_is_final_witness :
  DatabaseService.isInitialized (snd (DatabaseService.initialize Sample.broken_device)) = true /\
  DatabaseService.db (snd (DatabaseService.initialize Sample.broken_device)) = false.
Proof.
  apply (failed_open_is_final Sample.broken_device "Error: could not open database");
    reflexivity.
Defined.



Lemma getTransactions_unreadable_row_witness :
  fst (DatabaseService.getTransactions None None None
         (Sample.launch (Sample.device Scenario.with_unreadable_row))) = Ok [].
Proof.
  apply (getTransactions_unreadable_row
           (Sample.launch (Sample.device Scenario.with_unreadable_row))
           None None None Scenario.unreadable_row "SyntaxError: Unexpected token").
  - split; [reflexivity | split; [reflexivity | intros _; reflexivity]].
  - vm_compute. apply list_elem_of_here.
  - reflexivity.
Defined.

Lemma setupPIN_then_authenticateWithPIN_witness :
  let w1 := snd (App.setupPIN "1234" (Scenario.app empty_store ∅ "none")) in
  AuthService.authMethod (App.auth w1) = "pin" /\
  AuthService.isAuthenticated
    (snd (AuthService.authenticateWithPIN "1234" (App.auth w1))) = true.
Proof.
  destruct (setupPIN_then_authenticateWithPIN (Scenario.app empty_store ∅ "none") "1234")
    as (_ & Hmethod & _ & Hin & _); [reflexivity | discriminate |].
  split; [exact Hmethod | exact Hin].
Defined.

Lemma PIN_gate_survives_restart_witness :
  let w2 := snd (App.restart (snd (App.setupPIN "1234"
                                     (Scenario.app empty_store ∅ "none")))) in
  AuthService.authMethod (App.auth w2) = "pin" /\
  fst (AuthService.authenticate (App.auth w2)) =
    Ok {| AuthService.success := false; AuthService.error := None;
          AuthService.requiresPIN := Some true |}.
Proof.
  destruct (PIN_gate_survives_restart (Scenario.app empty_store ∅ "none") "1234")
    as (Hmethod & _ & _ & Hgate); [apply sample_device_operational | reflexivity |].
  cbv zeta. split; [exact Hmethod | rewrite Hgate; reflexivity].
Defined.

Lemma PIN_gate_lost_without_database_witness :
  let w2 := snd (App.restart (snd (App.setupPIN "1234"
                                     (Scenario.app_without_database ∅ "none")))) in
  AuthService.secure (App.auth w2) !! "userPIN" = Some "sha256:1234" /\
  AuthService.authMethod (App.auth w2) = "none" /\
  AuthService.isAuthenticated (snd (AuthService.authenticate (App.auth w2))) = true.
Proof.
  destruct (PIN_gate_lost_without_database (Scenario.app_without_database ∅ "none")
              "1234" "Error: could not open database")
    as (_ & _ & _ & Hpin & Hmethod & _ & Hin); [split; reflexivity | reflexivity |].
  split; [exact Hpin | split; [exact Hmethod | exact Hin]].
Defined.

Lemma resetSecurity_clears_witness :
  let w := Scenario.app empty_store (Scenario.with_pin "1234") "pin" in
  AuthService.secure (App.auth (snd (App.resetSecurity w))) !! "userPIN" = None /\
  AuthService.authMethod (App.auth (snd (App.resetSecurity w))) = "none".
Proof.
  destruct (resetSecurity_clears
              (Scenario.app empty_store (Scenario.with_pin "1234") "pin") "1234")
    as (_ & Hpin & _ & Hmethod & _); [reflexivity|].
  split; [exact Hpin | exact Hmethod].
Defined.

Lemma resetSecurity_partial_failure_witness :
  let w := Scenario.app_with_failing_storage "Error: keystore locked" in
  fst (App.resetSecurity w) =
    Ok {| AuthService.success := false; AuthService.error := Some "Error: keystore locked";
          AuthService.requiresPIN := None |} /\
  AuthService.authMethod (App.auth (snd (App.resetSecurity w))) = "pin" /\
  AuthService.secure (App.auth (snd (App.resetSecurity w))) !! "userPIN" = None.
Proof.
  destruct (resetSecurity_partial_failure
              (Scenario.app_with_failing_storage "Error: keystore locked")
              "1234" "Error: keystore locked")
    as (Hres & Hpin & Hmethod & _); [reflexivity | reflexivity |].
  split; [exact Hres | split; [exact Hmethod | exact Hpin]].
Defined.

Lemma sessionTimeout_saved_not_restored_witness :
  let w1 := snd (App.setSessionTimeout 10%Z (Scenario.app empty_store ∅ "none")) in
  AuthService.sessionTimeout (App.auth w1) = 600000%Z /\
  fst (App.getSessionTimeout (snd (App.restart w1))) = Ok (Some 10%Z) /\
  AuthService.sessionTimeout (App.auth (snd (App.restart w1))) = 300000%Z.
Proof.
  destruct (sessionTimeout_saved_not_restored (Scenario.app empty_store ∅ "none") 10%Z)
    as (Hset & _ & Hsaved & Hafter);
    [apply sample_device_operational | reflexivity | discriminate |].
  split; [exact Hset | split; [exact Hsaved | exact Hafter]].
Defined.

Lemma getSecuritySettings_reports_witness :
  exists s,
    fst (App.getSecuritySettings
           (Scenario.app empty_store (Scenario.with_pin "1234") "pin")) = Ok s /\
    App.ss_authMethod s = "pin" /\ App.ss_hasPIN s = true.
Proof.
  destruct (proj1 (getSecuritySettings_reports
                     (Scenario.app empty_store (Scenario.with_pin "1234") "pin")) eq_refl)
    as (s & E & Hmethod & _ & _ & Hpin).
  exists s. split; [exact E | split; [exact Hmethod | exact Hpin]].
Defined.

Lemma loadSettings_defaults_witness :
  let w := Scenario.settings_screen (Scenario.app empty_store ∅ "none") in
  SettingsScreen.settings (snd (SettingsScreen.loadSettings w))
    = SettingsScreen.initial_settings /\
  SettingsScreen.loading (snd (SettingsScreen.loadSettings w)) = false.
Proof.
  destruct (proj1 (loadSettings_defaults
                     (Scenario.settings_screen (Scenario.app empty_store ∅ "none"))))
    as (_ & Hs & Hl); [apply sample_device_ready | reflexivity | reflexivity |].
  split; [exact Hs | exact Hl].
Defined.

Lemma updateSetting_then_loadSettings_witness :
  let w := Scenario.settings_screen (Scenario.app empty_store ∅ "none") in
  SettingsScreen.settings
    (snd (SettingsScreen.loadSettings
            (snd (SettingsScreen.updateSetting "darkMode" (SettingsScreen.VBool true) w))))
    !! "darkMode" = Some (SettingsScreen.VBool true).
Proof.
  apply (updateSetting_then_loadSettings
           (Scenario.settings_screen (Scenario.app empty_store ∅ "none")) "darkMode" true).
  - apply sample_device_operational.
  - apply list_elem_of_further, list_elem_of_here.
Defined.

Lemma updateSetting_without_database_witness :
  let w := Scenario.settings_screen (Scenario.app_without_database ∅ "none") in
  let w1 := snd (SettingsScreen.updateSetting "darkMode" (SettingsScreen.VBool true) w) in
  SettingsScreen.settings w1 !! "darkMode" = Some (SettingsScreen.VBool true) /\
  SettingsScreen.alerts w1 = [] /\
  SettingsScreen.settings (snd (SettingsScreen.loadSettings w1)) !! "darkMode"
    = Some (SettingsScreen.VBool false).
Proof.
  destruct (updateSetting_without_database
              (Scenario.settings_screen (Scenario.app_without_database ∅ "none"))
              "Error: could not open database" "darkMode" (SettingsScreen.VBool true))
    as (_ & Hs & Ha & _ & Hl); [split; reflexivity|].
  cbv zeta. rewrite Hs, Ha, Hl. repeat split.
Defined.

Lemma loadTransactions_lists_type_witness :
  exists sorted,
    sorted ≡ₚ filter (fun r => "expense" = "all" \/ row_type r = "expense")
                (transactions Sample.two_transactions) /\
    Forall2 DatabaseSpec.deserializes (take 100 sorted)
      (TransactionsScreen.transactions
         (snd (TransactionsScreen.loadTransactions
                 (Scenario.transactions_screen Sample.two_transactions "expense")))).
Proof.
  destruct (loadTransactions_lists_type
              (Scenario.transactions_screen Sample.two_transactions "expense"))
    as (sorted & Hperm & _ & Hts);
    [apply sample_device_ready | apply sample_rows_readable | discriminate |].
  exists sorted. split; [exact Hperm | exact Hts].
Defined.
